(** * CCTV-SOS-AUTOMATION: the monitoring client of [frontend-layer/src/App.jsx]

    A shallow embedding of the WebSocket message handler ([ws.onmessage]),
    the alert list it maintains ([setAlerts]) and the operator's resolve
    action ([handleResolve]), with the browser functions they call.

    Layout: the browser's data (strings, buffers, UTF-8, JSON), then the
    component's handlers, then the event machine that runs them, then the
    properties, and last their instances on a small example platform.

    Not modelled: the timer that refreshes the clock of the header and
    the styling of the markup; the engine's limit on the nesting depth of
    a JSON text; React's development mode, which mounts a component
    twice. *)

From Stdlib Require Import List NArith ZArith Bool Ascii String DecimalString Lia.
From Stdlib Require Import DecimalN DecimalPos.
Import ListNotations.

Local Open Scope N_scope.

(* ================================================================== *)
(** ** JavaScript strings *)

(** A JavaScript string is a sequence of UTF-16 code units. *)
Definition jsstring := list N.

Fixpoint u16 (s : string) : jsstring :=
  match s with
  | EmptyString => []
  | String c r => N_of_ascii c :: u16 r
  end.

(** The same, with every apostrophe read as a double quote (code unit 34),
    so that JSON texts can be written down. *)
Fixpoint u16q (s : string) : jsstring :=
  match s with
  | EmptyString => []
  | String c r => (if N_of_ascii c =? 39 then 34 else N_of_ascii c) :: u16q r
  end.

Fixpoint jsstring_eqb (a b : jsstring) : bool :=
  match a, b with
  | [], [] => true
  | x :: a', y :: b' => (x =? y) && jsstring_eqb a' b'
  | _, _ => false
  end.

(* ================================================================== *)
(** ** ArrayBuffer and DataView *)

Definition ArrayBuffer := list Byte.byte.

Definition byteLength (b : ArrayBuffer) : N := N.of_nat (List.length b).

(** The exceptions the handler can end with. *)
Inductive Error := RangeError | SyntaxError | TypeError.

(** [dataView.getUint32(0, false)]: the first four bytes, big-endian; a
    view shorter than four bytes raises RangeError. *)
Definition getUint32 (b : ArrayBuffer) : Error + N :=
  match b with
  | b0 :: b1 :: b2 :: b3 :: _ =>
      inr (N.lor (N.shiftl (Byte.to_N b0) 24)
          (N.lor (N.shiftl (Byte.to_N b1) 16)
          (N.lor (N.shiftl (Byte.to_N b2) 8) (Byte.to_N b3))))
  | _ => inl RangeError
  end.

(** [arrayBuffer.slice(first, final)] for non-negative arguments: both
    ends are clamped to the length; an empty range gives an empty buffer. *)
Definition slice (first final : N) (b : ArrayBuffer) : ArrayBuffer :=
  let len := byteLength b in
  let lo := N.min first len in
  let hi := N.min final len in
  firstn (N.to_nat (hi - lo)) (skipn (N.to_nat lo) b).

(** [arrayBuffer.slice(first)]: to the end of the buffer. *)
Definition slice_from (first : N) (b : ArrayBuffer) : ArrayBuffer :=
  slice first (byteLength b) b.

(* ================================================================== *)
(** ** [new TextDecoder().decode]: UTF-8, errors replaced by U+FFFD *)

Inductive Utf8Lead :=
| LeadEmit (c : N)
| LeadNeed (n cp lower upper : N)
| LeadBad.

(** A byte read while no sequence is open. *)
Definition utf8_lead (b : N) : Utf8Lead :=
  if b <=? 0x7F then LeadEmit b
  else if (0xC2 <=? b) && (b <=? 0xDF) then LeadNeed 1 (N.land b 0x1F) 0x80 0xBF
  else if (0xE0 <=? b) && (b <=? 0xEF) then
    LeadNeed 2 (N.land b 0xF)
             (if b =? 0xE0 then 0xA0 else 0x80)
             (if b =? 0xED then 0x9F else 0xBF)
  else if (0xF0 <=? b) && (b <=? 0xF4) then
    LeadNeed 3 (N.land b 0x7)
             (if b =? 0xF0 then 0x90 else 0x80)
             (if b =? 0xF4 then 0x8F else 0xBF)
  else LeadBad.

(** The decoder's loop. [needed] counts the continuation bytes still to
    come (bytes needed minus bytes seen); a byte outside [lower, upper]
    ends the sequence with U+FFFD and is read again as a lead byte. *)
Fixpoint utf8_decode (bs : list N) (cp needed lower upper : N) : list N :=
  match bs with
  | [] => if needed =? 0 then [] else [0xFFFD]
  | b :: rest =>
      let start :=
        match utf8_lead b with
        | LeadEmit c => c :: utf8_decode rest 0 0 0x80 0xBF
        | LeadNeed n c lo hi => utf8_decode rest c n lo hi
        | LeadBad => 0xFFFD :: utf8_decode rest 0 0 0x80 0xBF
        end in
      if needed =? 0 then start
      else if (b <? lower) || (upper <? b) then 0xFFFD :: start
      else
        let cp' := N.lor (N.shiftl cp 6) (N.land b 0x3F) in
        if needed =? 1 then cp' :: utf8_decode rest 0 0 0x80 0xBF
        else utf8_decode rest cp' (needed - 1) 0x80 0xBF
  end.

(** A code point as UTF-16 code units. *)
Definition utf16_units (cp : N) : jsstring :=
  if cp <? 0x10000 then [cp]
  else [0xD800 + N.shiftr (cp - 0x10000) 10; 0xDC00 + N.land (cp - 0x10000) 0x3FF].

(** The decoder is created with no option: a leading byte order mark is
    dropped ([ignoreBOM] is false) and errors are not fatal. *)
Definition TextDecoder_decode (b : ArrayBuffer) : jsstring :=
  let cps := utf8_decode (map Byte.to_N b) 0 0 0x80 0xBF in
  flat_map utf16_units
    match cps with
    | 0xFEFF :: r => r
    | _ => cps
    end.

(* ================================================================== *)
(** ** JavaScript values, as [JSON.parse] builds them *)

(** [Num] stands for the engine's numbers (IEEE doubles), which this
    development leaves to the platform. An object keeps its members in
    source order, repeated keys included. [JUndefined] is what reading a
    missing property gives; no JSON text denotes it. *)
#[warnings="-register-all"]
Inductive JSValue (Num : Type) :=
| JUndefined
| JNull
| JBool (b : bool)
| JNumber (n : Num)
| JString (s : jsstring)
| JArray (elements : list (JSValue Num))
| JObject (members : list (jsstring * JSValue Num)).

Arguments JUndefined {Num}.
Arguments JNull {Num}.
Arguments JBool {Num} b.
Arguments JNumber {Num} n.
Arguments JString {Num} s.
Arguments JArray {Num} elements.
Arguments JObject {Num} members.

(** A decoded image, with the two dimensions the canvas takes from it. *)
Record ImageBitmap := { width : N; height : N; pixels : list Byte.byte }.

(** What the handlers take from the browser and this development does not
    compute: numbers, image decoding and the locale's time format. *)
Class Platform := {
  Num : Type;
  (** the value of a JSON number token *)
  Num_of_literal : jsstring -> Num;
  (** Number::toString *)
  Num_toString : Num -> jsstring;
  (** ToBoolean on a number: false for zero *)
  Num_truthy : Num -> bool;
  (** [createImageBitmap(blob)]: [None] when the promise rejects *)
  createImageBitmap : ArrayBuffer -> option ImageBitmap;
  (** [new Date(v).toLocaleTimeString('en-US', { hour12: true })], [v]
      being the primitive the Date constructor reduced its argument to *)
  toLocaleTimeString : JSValue Num -> jsstring
}.

(* ================================================================== *)
(** ** [JSON.parse] *)

Definition is_ws (c : N) : bool :=
  (c =? 9) || (c =? 10) || (c =? 13) || (c =? 32).

Fixpoint skip_ws (s : jsstring) : jsstring :=
  match s with
  | c :: r => if is_ws c then skip_ws r else s
  | [] => []
  end.

Definition is_digit (c : N) : bool := (48 <=? c) && (c <=? 57).

Definition hex_value (c : N) : option N :=
  if is_digit c then Some (c - 48)
  else if (97 <=? c) && (c <=? 102) then Some (c - 87)
  else if (65 <=? c) && (c <=? 70) then Some (c - 55)
  else None.

Definition hex4 (a b c d : N) : option N :=
  match hex_value a, hex_value b, hex_value c, hex_value d with
  | Some x, Some y, Some z, Some w => Some (((x * 16 + y) * 16 + z) * 16 + w)
  | _, _, _, _ => None
  end.

Definition cons_result {A B : Type} (a : A) (r : option (list A * B)) : option (list A * B) :=
  match r with
  | Some (l, rest) => Some (a :: l, rest)
  | None => None
  end.

(** The characters of a string token, read after its opening quote. *)
Fixpoint parse_string (s : jsstring) : option (jsstring * jsstring) :=
  match s with
  | [] => None
  | c :: r =>
      if c =? 34 then Some ([], r)
      else if c =? 92 then
        match r with
        | [] => None
        | e :: r1 =>
            if (e =? 34) || (e =? 92) || (e =? 47) then cons_result e (parse_string r1)
            else if e =? 98 then cons_result 8 (parse_string r1)
            else if e =? 102 then cons_result 12 (parse_string r1)
            else if e =? 110 then cons_result 10 (parse_string r1)
            else if e =? 114 then cons_result 13 (parse_string r1)
            else if e =? 116 then cons_result 9 (parse_string r1)
            else if e =? 117 then
              match r1 with
              | a :: b :: c' :: d :: r2 =>
                  match hex4 a b c' d with
                  | Some u => cons_result u (parse_string r2)
                  | None => None
                  end
              | _ => None
              end
            else None
        end
      else if c <? 32 then None
      else cons_result c (parse_string r)
  end.

Fixpoint span_digits (s : jsstring) : jsstring * jsstring :=
  match s with
  | c :: r => if is_digit c then let (ds, rest) := span_digits r in (c :: ds, rest)
              else ([], s)
  | [] => ([], [])
  end.

(** A number token: its text and what follows it. *)
Definition parse_number (s : jsstring) : option (jsstring * jsstring) :=
  let (sign, s1) := match s with
                    | c :: r => if c =? 45 then ([45], r) else ([], s)
                    | [] => ([], s)
                    end in
  match
    match s1 with
    | c :: r => if c =? 48 then Some ([48], r)
                else if is_digit c then let (ds, rest) := span_digits r in Some (c :: ds, rest)
                else None
    | [] => None
    end
  with
  | None => None
  | Some (int, s2) =>
      match
        match s2 with
        | c :: r => if c =? 46 then
                      match span_digits r with
                      | ([], _) => None
                      | (ds, rest) => Some (46 :: ds, rest)
                      end
                    else Some ([], s2)
        | [] => Some ([], s2)
        end
      with
      | None => None
      | Some (frac, s3) =>
          match
            match s3 with
            | c :: r => if (c =? 101) || (c =? 69) then
                          let (esign, r1) := match r with
                                             | c1 :: r' => if (c1 =? 43) || (c1 =? 45) then ([c1], r')
                                                           else ([], r)
                                             | [] => ([], r)
                                             end in
                          match span_digits r1 with
                          | ([], _) => None
                          | (ds, rest) => Some (c :: esign ++ ds, rest)
                          end
                        else Some ([], s3)
            | [] => Some ([], s3)
            end
          with
          | None => None
          | Some (exp, rest) => Some (sign ++ int ++ frac ++ exp, rest)
          end
      end
  end.

Definition starts_with (p s : jsstring) : option jsstring :=
  if jsstring_eqb p (firstn (List.length p) s) then Some (skipn (List.length p) s) else None.

Section WithPlatform.

Context {P : Platform}.

Local Abbreviation JS := (JSValue Num).

(** A value, after optional white space. Every call spends one unit of
    [fuel]; [JSON_parse] gives more than any text can use. *)
Fixpoint parse_value (fuel : nat) (s : jsstring) : option (JS * jsstring) :=
  match fuel with
  | O => None
  | S f =>
      match skip_ws s with
      | [] => None
      | c :: r =>
          if c =? 34 then
            match parse_string r with
            | Some (str, rest) => Some (JString str, rest)
            | None => None
            end
          else if c =? 91 then
            match skip_ws r with
            | c1 :: r1 => if c1 =? 93 then Some (JArray [], r1)
                          else match parse_elements f r with
                               | Some (vs, rest) => Some (JArray vs, rest)
                               | None => None
                               end
            | [] => None
            end
          else if c =? 123 then
            match skip_ws r with
            | c1 :: r1 => if c1 =? 125 then Some (JObject [], r1)
                          else match parse_members f r with
                               | Some (ms, rest) => Some (JObject ms, rest)
                               | None => None
                               end
            | [] => None
            end
          else
            match starts_with (u16 "null") (c :: r) with
            | Some rest => Some (JNull, rest)
            | None =>
            match starts_with (u16 "true") (c :: r) with
            | Some rest => Some (JBool true, rest)
            | None =>
            match starts_with (u16 "false") (c :: r) with
            | Some rest => Some (JBool false, rest)
            | None =>
            match parse_number (c :: r) with
            | Some (lit, rest) => Some (JNumber (Num_of_literal lit), rest)
            | None => None
            end end end end
      end
  end
with parse_elements (fuel : nat) (s : jsstring) : option (list JS * jsstring) :=
  match fuel with
  | O => None
  | S f =>
      match parse_value f s with
      | None => None
      | Some (v, r) =>
          match skip_ws r with
          | c :: r1 => if c =? 44 then cons_result v (parse_elements f r1)
                       else if c =? 93 then Some ([v], r1)
                       else None
          | [] => None
          end
      end
  end
with parse_members (fuel : nat) (s : jsstring) : option (list (jsstring * JS) * jsstring) :=
  match fuel with
  | O => None
  | S f =>
      match skip_ws s with
      | c :: r =>
          if c =? 34 then
            match parse_string r with
            | None => None
            | Some (key, r1) =>
                match skip_ws r1 with
                | c2 :: r2 =>
                    if c2 =? 58 then
                      match parse_value f r2 with
                      | None => None
                      | Some (v, r3) =>
                          match skip_ws r3 with
                          | c4 :: r4 => if c4 =? 44 then cons_result (key, v) (parse_members f r4)
                                        else if c4 =? 125 then Some ([(key, v)], r4)
                                        else None
                          | [] => None
                          end
                      end
                    else None
                | [] => None
                end
            end
          else None
      | [] => None
      end
  end.

(** [JSON.parse(text)]: one value, white space around it, nothing else;
    [None] is SyntaxError. *)
Definition JSON_parse (text : jsstring) : option JS :=
  match parse_value (2 * List.length text + 2) text with
  | Some (v, rest) => match skip_ws rest with
                      | [] => Some v
                      | _ :: _ => None
                      end
  | None => None
  end.

(* ================================================================== *)
(** ** Reading decoded values *)

(** The own property [k] of an object: of repeated keys the last one
    stands. *)
Fixpoint own_property (k : jsstring) (m : list (jsstring * JS)) : option JS :=
  match m with
  | [] => None
  | (k', v) :: r =>
      match own_property k r with
      | Some v' => Some v'
      | None => if jsstring_eqb k k' then Some v else None
      end
  end.

(** [v.k] for the names the component reads ([alerts],
    [emergency_detected], [detections], [class_name], [frame_id],
    [unix_time], [timestamp]): none is an index or defined by a built-in
    prototype, so only an object can hold one; reading from [null] or
    [undefined] raises TypeError. *)
Definition Get (v : JS) (k : jsstring) : Error + JS :=
  match v with
  | JUndefined | JNull => inl TypeError
  | JObject m => inr match own_property k m with
                     | Some x => x
                     | None => JUndefined
                     end
  | _ => inr JUndefined
  end.

(** [v?.k] *)
Definition Get_optional (v : JS) (k : jsstring) : Error + JS :=
  match v with
  | JUndefined | JNull => inr JUndefined
  | _ => Get v k
  end.

Definition ToBoolean (v : JS) : bool :=
  match v with
  | JUndefined | JNull => false
  | JBool b => b
  | JNumber n => Num_truthy n
  | JString s => match s with [] => false | _ :: _ => true end
  | JArray _ | JObject _ => true
  end.

(** ToString, as a template literal applies it. An array joins its
    elements with commas, [null] and [undefined] giving the empty string.
    An object answers with [Object.prototype.toString] unless a member of
    its own named [toString] hides it: a member read from JSON is never
    callable, [valueOf] then returns the object itself, and the
    conversion raises TypeError ([None]). *)
Fixpoint ToString (v : JS) : option jsstring :=
  match v with
  | JUndefined => Some (u16 "undefined")
  | JNull => Some (u16 "null")
  | JBool true => Some (u16 "true")
  | JBool false => Some (u16 "false")
  | JNumber n => Some (Num_toString n)
  | JString s => Some s
  | JArray l =>
      (fix join (l : list JS) : option jsstring :=
         match l with
         | [] => Some []
         | x :: r =>
             match match x with
                   | JUndefined | JNull => Some []
                   | _ => ToString x
                   end
             with
             | None => None
             | Some sx =>
                 match r with
                 | [] => Some sx
                 | _ :: _ => match join r with
                             | Some sr => Some (sx ++ 44 :: sr)
                             | None => None
                             end
                 end
             end
         end) l
  | JObject m => match own_property (u16 "toString") m with
                 | Some _ => None
                 | None => Some (u16 "[object Object]")
                 end
  end.

(** ToPrimitive, as [new Date(v)] applies it: an array or an object ends
    as its string, on the same conditions as [ToString]. *)
Definition ToPrimitive (v : JS) : Error + JS :=
  match v with
  | JArray _ | JObject _ => match ToString v with
                            | Some s => inr (JString s)
                            | None => inl TypeError
                            end
  | _ => inr v
  end.

(* ================================================================== *)
(** ** The alert list *)

Record Alert := {
  id : jsstring;
  class_name : jsstring;
  severity : jsstring;
  location : jsstring;
  time : jsstring;
  desc : jsstring
}.

(** The functions given to [setAlerts]: the one of [ws.onmessage], which
    closes over [eventId], [className] and [payload], and the one of
    [handleResolve]. *)
Inductive Updater :=
| AddAlert (eventId className : jsstring) (payload : JS)
| RemoveAlert (eventId : jsstring).

(** [prev.some(a => a.class_name === className)] *)
Definition some_class_name (className : jsstring) (prev : list Alert) : bool :=
  existsb (fun a => jsstring_eqb (class_name a) className) prev.

(** An updater applied to the previous list. The time of a new alert is
    computed here, and [new Date] raises TypeError on what has no
    primitive. *)
Definition apply_updater (u : Updater) (prev : list Alert) : Error + list Alert :=
  match u with
  | AddAlert eventId className payload =>
      if some_class_name className prev then inr prev
      else
        match Get payload (u16 "timestamp") with
        | inl e => inl e
        | inr timestamp =>
            match ToPrimitive timestamp with
            | inl e => inl e
            | inr t =>
                inr ({| id := eventId;
                        class_name := className;
                        severity := u16 "HIGH";
                        location := u16 "ROAD 1";
                        time := toLocaleTimeString t;
                        desc := className ++ u16 " emergency triggered." |} :: prev)
            end
        end
  | RemoveAlert eventId =>
      inr (filter (fun alert => negb (jsstring_eqb (id alert) eventId)) prev)
  end.

(* ================================================================== *)
(** ** The handlers *)

Inductive ReadyState := CONNECTING | OPEN | CLOSING | CLOSED.

Inductive SystemStatus := Connecting | MonitoringActive | Disconnected.

(** What a handler does to the world, in the order it does it.
    [DrawImage] stands for the body of the animation callback: the canvas
    takes the size of the bitmap, the bitmap is drawn and closed. *)
Inductive Action :=
| SetSystemStatus (st : SystemStatus)
| SetAlerts (u : Updater)
| AwaitArrayBuffer (blob : ArrayBuffer)
| AwaitImageBitmap (imageBlob : ArrayBuffer)
| RequestAnimationFrame (imageBitmap : ImageBitmap)
| DrawImage (imageBitmap : ImageBitmap)
| Send (text : jsstring)
| Close.

(** [ws.onopen] and [ws.onclose] *)
Definition onopen : list Action := [SetSystemStatus MonitoringActive].
Definition onclose : list Action := [SetSystemStatus Disconnected].

Definition emergency_classes : list jsstring :=
  [u16 "Fire"; u16 "Fall"; u16 "Accident"; u16 "Violence"; u16 "Unconsciousness"].

(** [[...].includes(className)]: only a string equals a string. *)
Definition includes (className : JS) : option jsstring :=
  match className with
  | JString s => if existsb (jsstring_eqb s) emergency_classes then Some s else None
  | _ => None
  end.

(** [`evt_${payload.frame_id}_${payload.unix_time}`] *)
Definition eventId_of (payload : JS) : Error + jsstring :=
  match Get payload (u16 "frame_id") with
  | inl e => inl e
  | inr frame_id =>
      match ToString frame_id with
      | None => inl TypeError
      | Some f =>
          match Get payload (u16 "unix_time") with
          | inl e => inl e
          | inr unix_time =>
              match ToString unix_time with
              | None => inl TypeError
              | Some t => inr (u16 "evt_" ++ f ++ u16 "_" ++ t)
              end
          end
      end
  end.

(** The function given to [forEach], for one detection: the updater it
    hands to [setAlerts], if any. *)
Definition detection_callback (payload det : JS) : Error + option Updater :=
  match Get det (u16 "class_name") with
  | inl e => inl e
  | inr cn =>
      match includes cn with
      | None => inr None
      | Some className =>
          match eventId_of payload with
          | inl e => inl e
          | inr eventId => inr (Some (AddAlert eventId className payload))
          end
      end
  end.

(** [payload.detections.forEach(...)]: the actions done, and the
    exception that stopped the loop, if one did. *)
Fixpoint forEach_detections (payload : JS) (dets : list JS) : list Action * option Error :=
  match dets with
  | [] => ([], None)
  | det :: rest =>
      match detection_callback payload det with
      | inl e => ([], Some e)
      | inr None => forEach_detections payload rest
      | inr (Some u) =>
          let (acts, err) := forEach_detections payload rest in
          (SetAlerts u :: acts, err)
      end
  end.

(** The block under "UPDATED ALERT LOGIC". Only an array has [forEach]. *)
Definition alert_logic (payload : JS) : list Action * option Error :=
  match Get payload (u16 "alerts") with
  | inl e => ([], Some e)
  | inr alerts =>
      match Get_optional alerts (u16 "emergency_detected") with
      | inl e => ([], Some e)
      | inr flag =>
          if ToBoolean flag then
            match Get payload (u16 "detections") with
            | inr (JArray dets) => forEach_detections payload dets
            | _ => ([], Some TypeError)
            end
          else ([], None)
      end
  end.

Inductive MessageData :=
| Blob (bytes : ArrayBuffer)
| Text (s : jsstring).

(** [ws.onmessage], up to its first [await]. *)
Definition onmessage (data : MessageData) : list Action :=
  match data with
  | Blob bytes => [AwaitArrayBuffer bytes]
  | Text _ => []
  end.

(** [ws.onmessage] from the array buffer to its second [await]: header,
    metadata, alerts, then the image blob. An exception ends the handler
    where it is raised; what was done before stays done. *)
Definition onmessage_arrayBuffer (arrayBuffer : ArrayBuffer) : list Action * option Error :=
  match getUint32 arrayBuffer with
  | inl e => ([], Some e)
  | inr jsonLen =>
      let jsonText := TextDecoder_decode (slice 4 (4 + jsonLen) arrayBuffer) in
      match JSON_parse jsonText with
      | None => ([], Some SyntaxError)
      | Some payload =>
          match alert_logic payload with
          | (acts, Some e) => (acts, Some e)
          | (acts, None) =>
              let imageBlob := slice_from (4 + jsonLen) arrayBuffer in
              (acts ++ [AwaitImageBitmap imageBlob], None)
          end
      end
  end.

(** [ws.onmessage] after [createImageBitmap] settled; a rejected promise
    ends the handler. *)
Definition onmessage_imageBitmap (imageBlob : ArrayBuffer) : list Action :=
  match createImageBitmap imageBlob with
  | Some imageBitmap => [RequestAnimationFrame imageBitmap]
  | None => []
  end.

(** The function given to [requestAnimationFrame]; [canvas] tells whether
    [canvasRef.current] holds an element. *)
Definition animation_callback (canvas : bool) (imageBitmap : ImageBitmap) : list Action :=
  if canvas then [DrawImage imageBitmap] else [].

(** A hexadecimal digit, in lower case. *)
Definition hex_digit (n : N) : N := if n <? 10 then 48 + n else 87 + n.

(** The escape of a code unit: a backslash, [u] and four digits. *)
Definition unicode_escape (c : N) : jsstring :=
  [92; 117; hex_digit (c / 4096); hex_digit ((c / 256) mod 16);
   hex_digit ((c / 16) mod 16); hex_digit (c mod 16)].

Definition is_high_surrogate (c : N) : bool := (0xD800 <=? c) && (c <=? 0xDBFF).
Definition is_low_surrogate (c : N) : bool := (0xDC00 <=? c) && (c <=? 0xDFFF).

(** [JSON.stringify] of a string, between its quotes: the short escapes,
    the other control characters and the lone surrogates as [\u] escapes,
    everything else as it is. *)
Fixpoint quote_chars (s : jsstring) : jsstring :=
  match s with
  | [] => []
  | c :: r =>
      if c =? 8 then 92 :: 98 :: quote_chars r
      else if c =? 9 then 92 :: 116 :: quote_chars r
      else if c =? 10 then 92 :: 110 :: quote_chars r
      else if c =? 12 then 92 :: 102 :: quote_chars r
      else if c =? 13 then 92 :: 114 :: quote_chars r
      else if c =? 34 then 92 :: 34 :: quote_chars r
      else if c =? 92 then 92 :: 92 :: quote_chars r
      else if c <? 32 then unicode_escape c ++ quote_chars r
      else if is_high_surrogate c then
        match r with
        | d :: r' => if is_low_surrogate d then c :: d :: quote_chars r'
                     else unicode_escape c ++ quote_chars r
        | [] => unicode_escape c
        end
      else if is_low_surrogate c then unicode_escape c ++ quote_chars r
      else c :: quote_chars r
  end.

Definition QuoteJSONString (s : jsstring) : jsstring :=
  34 :: quote_chars s ++ [34].

(** [JSON.stringify({ action: "resolve", event_id: eventId })] *)
Definition resolve_message (eventId : jsstring) : jsstring :=
  u16q "{'action':'resolve','event_id':" ++ QuoteJSONString eventId ++ u16 "}".

(** [handleResolve]; [rs] is [wsRef.current.readyState]. *)
Definition handleResolve (rs : ReadyState) (eventId : jsstring) : list Action :=
  match rs with
  | OPEN => [Send (resolve_message eventId)]
  | _ => []
  end ++ [SetAlerts (RemoveAlert eventId)].

(** The clean-up of the socket's effect. *)
Definition cleanup (rs : ReadyState) : list Action :=
  match rs with
  | OPEN => [Close]
  | _ => []
  end.

(* ================================================================== *)
(** ** The component as an event machine *)

(** Everything runs on one thread: an event is handled to its end, or to
    its next [await], before the next one. [setAlerts] takes a function
    of the previous list, and React applies such functions in the order
    they were given, so the list is updated here as soon as [setAlerts]
    is called. *)
Record State := {
  alerts : list Alert;
  systemStatus : SystemStatus;
  (** the component is on the page, and [canvasRef.current] is its canvas *)
  mounted : bool;
  (** [ws.readyState] *)
  readyState : ReadyState;
  (** promises of [event.data.arrayBuffer()] still pending *)
  arrayBuffers : list ArrayBuffer;
  (** promises of [createImageBitmap] still pending *)
  imageBitmaps : list ArrayBuffer;
  (** callbacks waiting for the next animation frame, oldest first *)
  animationFrames : list ImageBitmap;
  (** what [drawImage] drew, latest first *)
  canvas : list ImageBitmap;
  (** the text frames given to [ws.send], latest first *)
  sent : list jsstring
}.

Definition set_alerts (x : list Alert) (s : State) : State :=
  {| alerts := x; systemStatus := systemStatus s; mounted := mounted s;
     readyState := readyState s; arrayBuffers := arrayBuffers s;
     imageBitmaps := imageBitmaps s; animationFrames := animationFrames s;
     canvas := canvas s; sent := sent s |}.

Definition set_systemStatus (x : SystemStatus) (s : State) : State :=
  {| alerts := alerts s; systemStatus := x; mounted := mounted s;
     readyState := readyState s; arrayBuffers := arrayBuffers s;
     imageBitmaps := imageBitmaps s; animationFrames := animationFrames s;
     canvas := canvas s; sent := sent s |}.

Definition set_mounted (x : bool) (s : State) : State :=
  {| alerts := alerts s; systemStatus := systemStatus s; mounted := x;
     readyState := readyState s; arrayBuffers := arrayBuffers s;
     imageBitmaps := imageBitmaps s; animationFrames := animationFrames s;
     canvas := canvas s; sent := sent s |}.

Definition set_readyState (x : ReadyState) (s : State) : State :=
  {| alerts := alerts s; systemStatus := systemStatus s; mounted := mounted s;
     readyState := x; arrayBuffers := arrayBuffers s;
     imageBitmaps := imageBitmaps s; animationFrames := animationFrames s;
     canvas := canvas s; sent := sent s |}.

Definition set_arrayBuffers (x : list ArrayBuffer) (s : State) : State :=
  {| alerts := alerts s; systemStatus := systemStatus s; mounted := mounted s;
     readyState := readyState s; arrayBuffers := x;
     imageBitmaps := imageBitmaps s; animationFrames := animationFrames s;
     canvas := canvas s; sent := sent s |}.

Definition set_imageBitmaps (x : list ArrayBuffer) (s : State) : State :=
  {| alerts := alerts s; systemStatus := systemStatus s; mounted := mounted s;
     readyState := readyState s; arrayBuffers := arrayBuffers s;
     imageBitmaps := x; animationFrames := animationFrames s;
     canvas := canvas s; sent := sent s |}.

Definition set_animationFrames (x : list ImageBitmap) (s : State) : State :=
  {| alerts := alerts s; systemStatus := systemStatus s; mounted := mounted s;
     readyState := readyState s; arrayBuffers := arrayBuffers s;
     imageBitmaps := imageBitmaps s; animationFrames := x;
     canvas := canvas s; sent := sent s |}.

Definition set_canvas (x : list ImageBitmap) (s : State) : State :=
  {| alerts := alerts s; systemStatus := systemStatus s; mounted := mounted s;
     readyState := readyState s; arrayBuffers := arrayBuffers s;
     imageBitmaps := imageBitmaps s; animationFrames := animationFrames s;
     canvas := x; sent := sent s |}.

Definition set_sent (x : list jsstring) (s : State) : State :=
  {| alerts := alerts s; systemStatus := systemStatus s; mounted := mounted s;
     readyState := readyState s; arrayBuffers := arrayBuffers s;
     imageBitmaps := imageBitmaps s; animationFrames := animationFrames s;
     canvas := canvas s; sent := x |}.

(** The state once the component is mounted and its effects have run:
    [useState([])], [useState("Connecting...")], [new WebSocket(wsUrl)]. *)
Definition initial : State :=
  {| alerts := []; systemStatus := Connecting; mounted := true;
     readyState := CONNECTING; arrayBuffers := []; imageBitmaps := [];
     animationFrames := []; canvas := []; sent := [] |}.

(** [ws.close()] *)
Definition ws_close (s : State) : State :=
  match readyState s with
  | CONNECTING | OPEN => set_readyState CLOSING s
  | CLOSING | CLOSED => s
  end.

(** The component leaves the page: its state setters do nothing from
    then on, [canvasRef.current] is null, and the effect's clean-up runs. *)
Definition unmount (s : State) : State :=
  match cleanup (readyState s) with
  | [] => set_mounted false s
  | _ :: _ => ws_close (set_mounted false s)
  end.

(** One action. A function given to [setAlerts] runs while React
    renders: when it raises, no error boundary being there, React
    unmounts the component. *)
Definition run_action (a : Action) (s : State) : State :=
  match a with
  | SetSystemStatus st => if mounted s then set_systemStatus st s else s
  | SetAlerts u =>
      if mounted s then
        match apply_updater u (alerts s) with
        | inr l => set_alerts l s
        | inl _ => unmount s
        end
      else s
  | AwaitArrayBuffer blob => set_arrayBuffers (arrayBuffers s ++ [blob]) s
  | AwaitImageBitmap imageBlob => set_imageBitmaps (imageBitmaps s ++ [imageBlob]) s
  | RequestAnimationFrame imageBitmap =>
      set_animationFrames (animationFrames s ++ [imageBitmap]) s
  | DrawImage imageBitmap => set_canvas (imageBitmap :: canvas s) s
  | Send text => set_sent (text :: sent s) s
  | Close => ws_close s
  end.

Definition run (acts : list Action) (s : State) : State :=
  fold_left (fun s a => run_action a s) acts s.

(** What can happen to the component. [WsClosing] is the closing
    handshake when the server starts it: the browser sets [readyState] to
    CLOSING and calls no handler; [WsClose] comes when the connection is
    closed. *)
Inductive Event :=
| WsOpen
| WsClosing
| WsClose
| WsMessage (data : MessageData)
| ArrayBufferReady (i : nat)
| ImageBitmapSettled (i : nat)
| AnimationFrame
| Click (eventId : jsstring)
| Unmount.

(** [l] without its element at index [i]. *)
Fixpoint remove_nth {A : Type} (i : nat) (l : list A) : list A :=
  match l, i with
  | [], _ => []
  | _ :: r, O => r
  | x :: r, S j => x :: remove_nth j r
  end.

(** What the component does when the event comes. The browser sets
    [readyState] before it calls [onopen] and [onclose]. *)
Definition step (e : Event) (s : State) : State :=
  match e with
  | WsOpen => run onopen (set_readyState OPEN s)
  | WsClosing => set_readyState CLOSING s
  | WsClose => run onclose (set_readyState CLOSED s)
  | WsMessage data => run (onmessage data) s
  | ArrayBufferReady i =>
      match nth_error (arrayBuffers s) i with
      | Some arrayBuffer =>
          run (fst (onmessage_arrayBuffer arrayBuffer))
              (set_arrayBuffers (remove_nth i (arrayBuffers s)) s)
      | None => s
      end
  | ImageBitmapSettled i =>
      match nth_error (imageBitmaps s) i with
      | Some imageBlob =>
          run (onmessage_imageBitmap imageBlob)
              (set_imageBitmaps (remove_nth i (imageBitmaps s)) s)
      | None => s
      end
  | AnimationFrame =>
      run (flat_map (animation_callback (mounted s)) (animationFrames s))
          (set_animationFrames [] s)
  | Click eventId => run (handleResolve (readyState s) eventId) s
  | Unmount => if mounted s then unmount s else s
  end.

(** The events the browser can deliver in a state: a socket opens once,
    gets messages only while open, starts closing only while open and
    closes once; a promise settles once; buttons exist while the
    component is mounted. *)
Definition deliverable (s : State) (e : Event) : bool :=
  match e with
  | WsOpen => match readyState s with CONNECTING => true | _ => false end
  | WsClosing => match readyState s with OPEN => true | _ => false end
  | WsClose => match readyState s with CLOSED => false | _ => true end
  | WsMessage _ => match readyState s with OPEN => true | _ => false end
  | ArrayBufferReady i => Nat.ltb i (List.length (arrayBuffers s))
  | ImageBitmapSettled i => Nat.ltb i (List.length (imageBitmaps s))
  | AnimationFrame => true
  | Click _ => mounted s
  | Unmount => mounted s
  end.

Fixpoint steps (es : list Event) (s : State) : State :=
  match es with
  | [] => s
  | e :: r => steps r (step e s)
  end.

(** Every event of [es] can be delivered when its turn comes. *)
Fixpoint deliverable_all (es : list Event) (s : State) : bool :=
  match es with
  | [] => true
  | e :: r => deliverable s e && deliverable_all r (step e s)
  end.

Inductive reachable : State -> Prop :=
| reachable_initial : reachable initial
| reachable_step s e : reachable s -> deliverable s e = true -> reachable (step e s).

(** The part of the message handler that feeds the alert list, as one
    operation on the state: the calls of [setAlerts] that [alert_logic]
    makes for a decoded record. *)
Definition ingest (payload : JS) (s : State) : State :=
  run (fst (alert_logic payload)) s.

(** No two alerts of a list have the same class name. *)
Definition unique_classes (l : list Alert) : Prop := NoDup (map class_name l).

(** A call of [setAlerts] with the updater that adds. *)
Definition adds (a : Action) : Prop :=
  exists eid cn p, a = SetAlerts (AddAlert eid cn p).

(** The emergency class names among the detections of a record, in the
    order of the detections. *)
Definition emergency_labels (dets : list JS) : list jsstring :=
  flat_map (fun det => match Get det (u16 "class_name") with
                       | inr cn => match includes cn with
                                   | Some className => [className]
                                   | None => []
                                   end
                       | inl _ => []
                       end) dets.

(** An alert as [ws.onmessage] builds them. *)
Definition built_alert (a : Alert) : Prop :=
  In (class_name a) emergency_classes
  /\ firstn 4 (id a) = u16 "evt_"
  /\ severity a = u16 "HIGH"
  /\ location a = u16 "ROAD 1"
  /\ desc a = class_name a ++ u16 " emergency triggered.".

(** A call of [setAlerts] as [ws.onmessage] makes them. *)
Definition adds_built (a : Action) : Prop :=
  exists rest cn p,
    a = SetAlerts (AddAlert (u16 "evt_" ++ rest) cn p) /\ In cn emergency_classes.

(** The actions a handler may take once the component is running. *)
Definition handler_action (a : Action) : Prop :=
  match a with
  | SetAlerts (AddAlert _ _ _) => adds_built a
  | _ => True
  end.

(** The status the component shows for a socket state. No handler runs
    when the closing handshake starts, so a socket that is closing shows
    what the open one showed. *)
Definition status_of (rs : ReadyState) : SystemStatus :=
  match rs with
  | CONNECTING => Connecting
  | OPEN | CLOSING => MonitoringActive
  | CLOSED => Disconnected
  end.

(** An action that is neither a status change nor a close. *)
Definition plain (a : Action) : Prop :=
  match a with
  | SetSystemStatus _ | Close => False
  | _ => True
  end.

(** The status shown is the one of the socket, while the component is mounted. *)
Definition status_follows (s : State) : Prop :=
  mounted s = true -> systemStatus s = status_of (readyState s).

(* ================================================================== *)
(** ** The page *)

(** ToString on an integer (of magnitude below 10^21): its decimal
    digits, after a minus sign when it is negative. *)
Definition Z_toString (z : Z) : jsstring :=
  match z with
  | Zneg p => 45 :: u16 (NilZero.string_of_uint (N.to_uint (Npos p)))
  | _ => u16 (NilZero.string_of_uint (N.to_uint (Z.to_N z)))
  end.

(** What the header reads of [currentTime], a valid date: the results of
    [getDate], [getMonth] and [getFullYear], and of
    [toLocaleTimeString('en-US', { hour12: true })]. *)
Record DateTime := {
  getDate : Z;
  getMonth : Z;
  getFullYear : Z;
  localeTime : jsstring
}.

(** [formatDate] and [formatTime] *)
Definition formatDate (date : DateTime) : jsstring :=
  Z_toString (getDate date) ++ u16 "/" ++ Z_toString (getMonth date + 1) ++ u16 "/"
  ++ Z_toString (getFullYear date).

Definition formatTime (date : DateTime) : jsstring := localeTime date.

(** The three values [systemStatus] takes, as the strings they are. *)
Definition status_text (st : SystemStatus) : jsstring :=
  match st with
  | Connecting => u16 "Connecting..."
  | MonitoringActive => u16 "Monitoring Active"
  | Disconnected => u16 "Disconnected"
  end.

(** One card of the alerts panel: its React key, the texts it shows (the
    level is the literal HIGH of the markup, not [alert.severity]) and
    what its two buttons do when clicked. *)
Record AlertCard := {
  key : jsstring;
  card_class_name : jsstring;
  card_level : jsstring;
  card_desc : jsstring;
  card_location : jsstring;
  card_time : jsstring;
  onClick_action_taken : Event;
  onClick_neglect : Event
}.

Definition alert_card (alert : Alert) : AlertCard :=
  {| key := id alert;
     card_class_name := class_name alert;
     card_level := u16 "HIGH";
     card_desc := desc alert;
     card_location := location alert;
     card_time := time alert;
     onClick_action_taken := Click (id alert);
     onClick_neglect := Click (id alert) |}.

(** The alerts panel under its heading: the line "No active alerts. All
    clear." or the cards. *)
Inductive AlertsPanel :=
| AllClear
| Cards (cards : list AlertCard).

(** What the component returns, as far as it depends on the state: the
    date and time of the header, the placeholder laid over the video
    while [systemStatus] is not "Monitoring Active", the number in the
    red badge, and the alerts panel. *)
Record Page := {
  date_time : jsstring;
  placeholder : option jsstring;
  badge : nat;
  panel : AlertsPanel
}.

Definition render (currentTime : DateTime) (s : State) : Page :=
  {| date_time := formatDate currentTime ++ u16 ", " ++ formatTime currentTime;
     placeholder := match systemStatus s with
                    | MonitoringActive => None
                    | st => Some (status_text st)
                    end;
     badge := List.length (alerts s);
     panel := match alerts s with
              | [] => AllClear
              | _ :: _ => Cards (map alert_card (alerts s))
              end |}.

(** The cards of a page, none when all is clear. *)
Definition cards_of (page : Page) : list AlertCard :=
  match panel page with
  | AllClear => []
  | Cards cards => cards
  end.

(** A detection that stops the loop of the alert logic: one that is null,
    or one of an emergency class when the id cannot be made. *)
Definition stops_loop (payload det : JS) : bool :=
  match Get det (u16 "class_name") with
  | inl _ => true
  | inr cn => match includes cn, eventId_of payload with
              | Some _, inl _ => true
              | _, _ => false
              end
  end.

(** No code unit of the string is [c]. *)
Definition free_of (c : N) (s : jsstring) : Prop := ~ In c s.

(** The socket was closed by the page or has closed. *)
Definition closing_or_closed (s : State) : Prop :=
  readyState s = CLOSING \/ readyState s = CLOSED.


(** [new Date(payload.timestamp)], as far as it can raise: the primitive
    the date is made from. *)
Definition new_Date (payload : JS) : Error + JS :=
  match Get payload (u16 "timestamp") with
  | inl e => inl e
  | inr timestamp => ToPrimitive timestamp
  end.

(** The class names that a handler's calls of [setAlerts] add, in order. *)
Definition added_classes (acts : list Action) : list jsstring :=
  flat_map (fun a => match a with
                     | SetAlerts (AddAlert _ className _) => [className]
                     | _ => []
                     end) acts.

(** A call of [setAlerts] whose updater closes over [payload]. *)
Definition adds_of (payload : JS) (a : Action) : Prop :=
  exists eid cn, a = SetAlerts (AddAlert eid cn payload).

(** A decimal digit, as a code unit. *)
Definition is_decimal_digit (c : N) : Prop := 48 <= c <= 57.

End WithPlatform.

(* ================================================================== *)
(** ** A platform to run examples on *)

(** Integers stand for numbers (exact for a token that is a plain
    integer below 2^53; a fraction or an exponent is not read), a blob
    decodes when it starts with the JPEG marker FF D8, and a time shows
    as the string it was given. The examples use nothing beyond that. *)
Module Example.

Definition digits_value (ds : jsstring) : N :=
  fold_left (fun acc c => acc * 10 + (c - 48)) ds 0.

Definition of_literal (lit : jsstring) : Z :=
  match lit with
  | 45 :: r => Z.opp (Z.of_N (digits_value (fst (span_digits r))))
  | _ => Z.of_N (digits_value (fst (span_digits lit)))
  end.

Definition to_string (z : Z) : jsstring :=
  match z with
  | Zneg p => 45 :: u16 (NilZero.string_of_uint (N.to_uint (Npos p)))
  | _ => u16 (NilZero.string_of_uint (N.to_uint (Z.to_N z)))
  end.

Definition decode_image (b : ArrayBuffer) : option ImageBitmap :=
  match b with
  | Byte.xff :: Byte.xd8 :: _ => Some {| width := 640; height := 480; pixels := b |}
  | _ => None
  end.

(** The dates of this platform. Its time zone is UTC. A number, [null]
    or a boolean is a time value in milliseconds; of strings it reads the
    ISO format of the standard, as a date (YYYY-MM-DD) or a date and a
    time (YYYY-MM-DDTHH:mm:ss, then milliseconds, then Z, both optional),
    and takes every other string, as it takes [undefined], for no date.
    Engines read more formats than that, each its own. [time_of_day] is
    the time of the day in milliseconds, [None] for an invalid date. *)
Definition digit (c : N) : option Z :=
  if (48 <=? c) && (c <=? 57) then Some (Z.of_N (c - 48)) else None.

Definition number2 (a b : N) : option Z :=
  match digit a, digit b with
  | Some x, Some y => Some (10 * x + y)%Z
  | _, _ => None
  end.

Definition number3 (a b c : N) : option Z :=
  match digit a, number2 b c with
  | Some x, Some y => Some (100 * x + y)%Z
  | _, _ => None
  end.

Definition number4 (a b c d : N) : option Z :=
  match number2 a b, number2 c d with
  | Some x, Some y => Some (100 * x + y)%Z
  | _, _ => None
  end.

Definition days_in_month (year month : Z) : Z :=
  if (month =? 2)%Z then
    if ((year mod 4 =? 0) && negb (year mod 100 =? 0) || (year mod 400 =? 0))%Z
    then 29%Z else 28%Z
  else if ((month =? 4) || (month =? 6) || (month =? 9) || (month =? 11))%Z then 30%Z
  else 31%Z.

Definition valid_date (y1 y2 y3 y4 m1 m2 d1 d2 : N) : bool :=
  match number4 y1 y2 y3 y4, number2 m1 m2, number2 d1 d2 with
  | Some year, Some month, Some day =>
      ((1 <=? month) && (month <=? 12) && (1 <=? day)
       && (day <=? days_in_month year month))%Z
  | _, _, _ => false
  end.

Definition clock (h1 h2 n1 n2 s1 s2 : N) (ms : Z) : option Z :=
  match number2 h1 h2, number2 n1 n2, number2 s1 s2 with
  | Some h, Some n, Some sec =>
      if ((h <=? 23) && (n <=? 59) && (sec <=? 59))%Z
      then Some (h * 3600000 + n * 60000 + sec * 1000 + ms)%Z
      else None
  | _, _, _ => None
  end.

Definition Date_parse (s : jsstring) : option Z :=
  match s with
  | y1 :: y2 :: y3 :: y4 :: 45 :: m1 :: m2 :: 45 :: d1 :: d2 :: rest =>
      if valid_date y1 y2 y3 y4 m1 m2 d1 d2 then
        match rest with
        | [] => Some 0%Z
        | 84 :: h1 :: h2 :: 58 :: n1 :: n2 :: 58 :: s1 :: s2 :: tail =>
            match tail with
            | [] | [90] => clock h1 h2 n1 n2 s1 s2 0
            | [46; f1; f2; f3] | [46; f1; f2; f3; 90] =>
                match number3 f1 f2 f3 with
                | Some ms => clock h1 h2 n1 n2 s1 s2 ms
                | None => None
                end
            | _ => None
            end
        | _ => None
        end
      else None
  | _ => None
  end.

Definition time_of_day (v : JSValue Z) : option Z :=
  match v with
  | JNumber z => if (Z.abs z <=? 8640000000000000)%Z then Some (z mod 86400000)%Z else None
  | JNull | JBool false => Some 0%Z
  | JBool true => Some 1%Z
  | JString s => Date_parse s
  | _ => None
  end.

Definition two_digits (n : Z) : jsstring :=
  (if (n <? 10)%Z then u16 "0" else []) ++ to_string n.

(** [toLocaleTimeString('en-US', { hour12: true })], with a plain space
    before AM and PM. *)
Definition show_time (v : JSValue Z) : jsstring :=
  match time_of_day v with
  | Some t =>
      let h := (t / 3600000)%Z in
      to_string (if (h mod 12 =? 0)%Z then 12 else h mod 12)%Z ++ u16 ":"
      ++ two_digits ((t / 60000) mod 60)%Z ++ u16 ":"
      ++ two_digits ((t / 1000) mod 60)%Z
      ++ u16 (if (h <? 12)%Z then " AM" else " PM")
  | None => u16 "Invalid Date"
  end.

Definition platform : Platform :=
  {| Num := Z;
     Num_of_literal := of_literal;
     Num_toString := to_string;
     Num_truthy := fun z => negb (Z.eqb z 0);
     createImageBitmap := decode_image;
     toLocaleTimeString := show_time |}.

(** A frame: the length of [json] in four bytes, [json], then [image]. *)
Definition uint32_bytes (n : N) : ArrayBuffer :=
  match Byte.of_N (n / 16777216 mod 256), Byte.of_N (n / 65536 mod 256),
        Byte.of_N (n / 256 mod 256), Byte.of_N (n mod 256) with
  | Some a, Some b, Some c, Some d => [a; b; c; d]
  | _, _, _, _ => []
  end.

Definition ascii_bytes (s : jsstring) : ArrayBuffer :=
  flat_map (fun c => match Byte.of_N c with Some b => [b] | None => [] end) s.

Definition frame (declared : N) (json : jsstring) (image : ArrayBuffer) : ArrayBuffer :=
  uint32_bytes declared ++ ascii_bytes json ++ image.

Definition jpeg : ArrayBuffer := [Byte.xff; Byte.xd8; Byte.xff; Byte.xd9].

Definition fire_json : jsstring :=
  u16q "{'frame_id':'7','unix_time':'1000','alerts':{'emergency_detected':true},'detections':[{'class_name':'Fire'}]}".

Definition two_class_json : jsstring :=
  u16q "{'frame_id':7,'unix_time':1000,'timestamp':'12:00:00 PM','alerts':{'emergency_detected':true},'detections':[{'class_name':'Fire'},{'class_name':'Fall'}]}".

Definition calm_json : jsstring :=
  u16q "{'frame_id':8,'alerts':{'emergency_detected':false},'detections':[]}".

Definition whole (json : jsstring) (image : ArrayBuffer) : ArrayBuffer :=
  frame (N.of_nat (List.length json)) json image.

(** The socket is open and nothing has arrived yet. *)
Definition opened : State := @step platform WsOpen initial.

(** The server has started the closing handshake. *)
Definition closing : State := @step platform WsClosing opened.

(** The two-class frame has arrived and its metadata are read; its image
    is still being decoded. *)
Definition two_alerts : State :=
  @steps platform [WsMessage (Blob (whole two_class_json jpeg)); ArrayBufferReady 0] opened.

(** The same, and the socket has closed since. *)
Definition closed_midstream : State := @step platform WsClose two_alerts.

(** The two-class frame has arrived and the socket has closed before its
    bytes were read. *)
Definition closed_before_read : State :=
  @steps platform [WsMessage (Blob (whole two_class_json jpeg)); WsClose] opened.

(** What [JSON.parse] makes of a text. *)
Definition parsed (json : jsstring) : JSValue Z :=
  match @JSON_parse platform json with
  | Some v => v
  | None => JUndefined
  end.

(** A frame that declares 200 bytes of metadata and has 109. *)
Definition short_frame : ArrayBuffer := frame 200 fire_json [].

(** Scenario 4 of the specification: 50 bytes declared, 40 bytes in all. *)
Definition scenario4_frame : ArrayBuffer :=
  frame 50 (u16 "{}                                  ") [].

(** No metadata, and an image. *)
Definition empty_metadata_frame : ArrayBuffer := frame 0 [] jpeg.

Definition fire_alert (time : jsstring) : Alert :=
  {| id := u16 "evt_7_1000"; class_name := u16 "Fire"; severity := u16 "HIGH";
     location := u16 "ROAD 1"; time := time; desc := u16 "Fire emergency triggered." |}.

Definition fall_alert (time : jsstring) : Alert :=
  {| id := u16 "evt_7_1000"; class_name := u16 "Fall"; severity := u16 "HIGH";
     location := u16 "ROAD 1"; time := time; desc := u16 "Fall emergency triggered." |}.

(** A record whose timestamp is an object that hides [toString]. *)
Definition bad_timestamp_json : jsstring :=
  u16q "{'frame_id':9,'unix_time':2000,'timestamp':{'toString':null},'alerts':{'emergency_detected':true},'detections':[{'class_name':'Fire'}]}".

(** The frame of that record has arrived on the open socket. *)
Definition bad_timestamp_arrived : State :=
  @step platform (WsMessage (Blob (whole bad_timestamp_json jpeg))) opened.

End Example.

(* ================================================================== *)
(** * Properties *)

Section Properties.

Context {P : Platform}.

Local Abbreviation JS := (JSValue Num).

(** ** Strings and lists *)

Lemma jsstring_eqb_eq (a b : jsstring) : jsstring_eqb a b = true <-> a = b.
Proof.
  revert b; induction a as [|x a IH]; intros [|y b]; simpl; split; intro H;
    try reflexivity; try discriminate.
  - apply andb_true_iff in H as [Hx Hr].
    apply N.eqb_eq in Hx. apply IH in Hr. congruence.
  - injection H as -> ->. rewrite N.eqb_refl. simpl. now apply IH.
Qed.

Lemma jsstring_eqb_refl (a : jsstring) : jsstring_eqb a a = true.
Proof. now apply jsstring_eqb_eq. Qed.

Lemma jsstring_eqb_neq (a b : jsstring) : jsstring_eqb a b = false <-> a <> b.
Proof.
  split.
  - intros H E. apply jsstring_eqb_eq in E. congruence.
  - intro H. destruct (jsstring_eqb a b) eqn:E; [|reflexivity].
    apply jsstring_eqb_eq in E. contradiction.
Qed.

Lemma some_class_name_In (cn : jsstring) (l : list Alert) :
  some_class_name cn l = true <-> In cn (map class_name l).
Proof.
  unfold some_class_name. rewrite existsb_exists, in_map_iff. split.
  - intros [a [Ha E]]. exists a. apply jsstring_eqb_eq in E. now split.
  - intros [a [E Ha]]. exists a. split; [assumption|]. now apply jsstring_eqb_eq.
Qed.

Lemma filter_keeps_all (A : Type) (keep : A -> bool) (l : list A) :
  Forall (fun a => keep a = true) l -> filter keep l = l.
Proof.
  intro H. apply forallb_filter_id, forallb_forall. now apply Forall_forall.
Qed.

Lemma filter_filter (A : Type) (keep : A -> bool) (l : list A) :
  filter keep (filter keep l) = filter keep l.
Proof.
  apply filter_keeps_all, Forall_forall. intros a Ha. now apply filter_In in Ha.
Qed.

(** ** What one action leaves alone *)

Lemma run_app (a b : list Action) (s : State) : run (a ++ b) s = run b (run a s).
Proof. unfold run. apply fold_left_app. Qed.

Lemma run_cons (a : Action) (l : list Action) (s : State) :
  run (a :: l) s = run l (run_action a s).
Proof. reflexivity. Qed.

Lemma unmount_alerts (s : State) : alerts (unmount s) = alerts s.
Proof.
  unfold unmount, cleanup, ws_close; simpl. destruct (readyState s); reflexivity.
Qed.

Lemma unmount_mounted (s : State) : mounted (unmount s) = false.
Proof.
  unfold unmount, cleanup, ws_close; simpl. destruct (readyState s); reflexivity.
Qed.

Lemma unmount_systemStatus (s : State) : systemStatus (unmount s) = systemStatus s.
Proof.
  unfold unmount, cleanup, ws_close; simpl. destruct (readyState s); reflexivity.
Qed.

Lemma unmount_canvas (s : State) : canvas (unmount s) = canvas s.
Proof.
  unfold unmount, cleanup, ws_close; simpl. destruct (readyState s); reflexivity.
Qed.

Lemma unmount_sent (s : State) : sent (unmount s) = sent s.
Proof.
  unfold unmount, cleanup, ws_close; simpl. destruct (readyState s); reflexivity.
Qed.

(** The remove updater of [handleResolve] cannot raise. *)
Lemma apply_RemoveAlert (x : jsstring) (l : list Alert) :
  apply_updater (RemoveAlert x) l
  = inr (filter (fun alert => negb (jsstring_eqb (id alert) x)) l).
Proof. reflexivity. Qed.

Lemma step_Click (x : jsstring) (s : State) :
  step (Click x) s
  = run_action (SetAlerts (RemoveAlert x))
      match readyState s with
      | OPEN => set_sent (resolve_message x :: sent s) s
      | _ => s
      end.
Proof.
  unfold step, handleResolve. rewrite run_app. destruct (readyState s); reflexivity.
Qed.

Lemma step_Click_alerts (x : jsstring) (s : State) :
  alerts (step (Click x) s)
  = if mounted s then filter (fun alert => negb (jsstring_eqb (id alert) x)) (alerts s)
    else alerts s.
Proof.
  rewrite step_Click. destruct (readyState s); simpl; destruct (mounted s); reflexivity.
Qed.

Lemma step_Click_mounted (x : jsstring) (s : State) :
  mounted (step (Click x) s) = mounted s.
Proof.
  rewrite step_Click.
  destruct (readyState s); simpl; destruct (mounted s) eqn:E; simpl; auto.
Qed.

Lemma step_Click_sent (x : jsstring) (s : State) :
  sent (step (Click x) s)
  = match readyState s with
    | OPEN => resolve_message x :: sent s
    | _ => sent s
    end.
Proof.
  rewrite step_Click. destruct (readyState s); simpl; destruct (mounted s); reflexivity.
Qed.

(** ** One alert for a class *)

Lemma unique_classes_filter (f : Alert -> bool) (l : list Alert) :
  unique_classes l -> unique_classes (filter f l).
Proof.
  unfold unique_classes. induction l as [|a l IH]; simpl; intro H; [constructor|].
  inversion H as [|? ? Hn Hl]; subst. destruct (f a); simpl.
  - constructor; [|now apply IH]. intro Hin. apply Hn.
    apply in_map_iff in Hin as [b [E Hb]]. apply filter_In in Hb as [Hb _].
    rewrite <- E. now apply in_map.
  - now apply IH.
Qed.

Lemma apply_updater_unique (u : Updater) (prev l : list Alert) :
  unique_classes prev -> apply_updater u prev = inr l -> unique_classes l.
Proof.
  intros H. destruct u as [eid cn p | eid]; cbn [apply_updater].
  - destruct (some_class_name cn prev) eqn:Es.
    + intro E. injection E as <-. assumption.
    + destruct (Get p (u16 "timestamp")) as [e|ts]; [discriminate|].
      destruct (ToPrimitive ts) as [e|t]; [discriminate|].
      intro E. injection E as <-. unfold unique_classes. simpl. constructor; [|assumption].
      intro Hin. apply some_class_name_In in Hin. congruence.
  - intro E. injection E as <-. now apply unique_classes_filter.
Qed.

Lemma run_action_unique (a : Action) (s : State) :
  unique_classes (alerts s) -> unique_classes (alerts (run_action a s)).
Proof.
  intro H. destruct a; simpl; try assumption.
  - destruct (mounted s); assumption.
  - destruct (mounted s); [|assumption].
    destruct (apply_updater u (alerts s)) as [e|l] eqn:E.
    + now rewrite unmount_alerts.
    + simpl. eapply apply_updater_unique; eassumption.
  - unfold ws_close. destruct (readyState s); assumption.
Qed.

Lemma run_unique (acts : list Action) (s : State) :
  unique_classes (alerts s) -> unique_classes (alerts (run acts s)).
Proof.
  revert s. induction acts as [|a acts IH]; intros s H; [assumption|].
  rewrite run_cons. apply IH. now apply run_action_unique.
Qed.

Lemma step_unique (e : Event) (s : State) :
  unique_classes (alerts s) -> unique_classes (alerts (step e s)).
Proof.
  intro H. destruct e; unfold step.
  - now apply run_unique.
  - assumption.
  - now apply run_unique.
  - now apply run_unique.
  - destruct (nth_error (arrayBuffers s) i); [|assumption]. now apply run_unique.
  - destruct (nth_error (imageBitmaps s) i); [|assumption]. now apply run_unique.
  - now apply run_unique.
  - now apply run_unique.
  - destruct (mounted s); [|assumption]. now rewrite unmount_alerts.
Qed.

Lemma reachable_steps (es : list Event) : forall (s : State),
  reachable s -> deliverable_all es s = true -> reachable (steps es s).
Proof.
  induction es as [|e es IH]; intros s Hs Hd; [assumption|].
  cbn [deliverable_all] in Hd. apply andb_true_iff in Hd as [He Hes].
  cbn [steps]. apply IH; [|assumption]. now constructor.
Qed.

Lemma reachable_unique (s : State) : reachable s -> unique_classes (alerts s).
Proof.
  induction 1 as [|s e _ IH _]; [constructor | now apply step_unique].
Qed.

(** ** Ingesting a record twice *)

Lemma forEach_detections_adds (payload : JS) (dets : list JS) :
  Forall adds (fst (forEach_detections payload dets)).
Proof.
  induction dets as [|d dets IH]; simpl; [constructor|].
  destruct (detection_callback payload d) as [e|[u|]] eqn:E; simpl; try constructor; try assumption.
  - destruct (forEach_detections payload dets) as [acts err]. simpl in *.
    constructor; [|assumption].
    unfold detection_callback in E.
    destruct (Get d (u16 "class_name")) as [?|cn]; [discriminate|].
    destruct (includes cn); [|discriminate].
    destruct (eventId_of payload); [discriminate|].
    injection E as <-. now repeat eexists.
Qed.

Lemma alert_logic_adds (payload : JS) : Forall adds (fst (alert_logic payload)).
Proof.
  unfold alert_logic.
  destruct (Get payload (u16 "alerts")) as [e|a]; [constructor|].
  destruct (Get_optional a (u16 "emergency_detected")) as [e|flag]; [constructor|].
  destruct (ToBoolean flag); [|constructor].
  destruct (Get payload (u16 "detections")) as [e|[ | | | | |dets| ]]; try constructor.
  apply forEach_detections_adds.
Qed.

Lemma set_alerts_same (s : State) : set_alerts (alerts s) s = s.
Proof. destruct s; reflexivity. Qed.

Lemma run_action_add_mounted (eid cn : jsstring) (p : JS) (s : State) :
  mounted (run_action (SetAlerts (AddAlert eid cn p)) s) = true ->
  mounted s = true /\ In cn (map class_name (alerts (run_action (SetAlerts (AddAlert eid cn p)) s)))
  /\ (forall c, In c (map class_name (alerts s)) ->
                In c (map class_name (alerts (run_action (SetAlerts (AddAlert eid cn p)) s)))).
Proof.
  cbn [run_action]. destruct (mounted s) eqn:Em; [|intro H; congruence].
  cbn [apply_updater]. destruct (some_class_name cn (alerts s)) eqn:Es.
  - intros _. cbn. repeat split; auto. now apply some_class_name_In.
  - destruct (Get p (u16 "timestamp")) as [e|ts].
    { rewrite unmount_mounted. discriminate. }
    destruct (ToPrimitive ts) as [e|t].
    { rewrite unmount_mounted. discriminate. }
    intros _. cbn. repeat split; auto.
Qed.

Lemma run_adds_present (acts : list Action) : forall (s : State),
  Forall adds acts -> mounted (run acts s) = true ->
  mounted s = true
  /\ (forall c, In c (map class_name (alerts s)) -> In c (map class_name (alerts (run acts s))))
  /\ (forall eid cn p, In (SetAlerts (AddAlert eid cn p)) acts ->
                       In cn (map class_name (alerts (run acts s)))).
Proof.
  induction acts as [|a acts IH]; intros s Ha Hm.
  - repeat split; auto. intros ? ? ? [].
  - inversion Ha as [|? ? [eid [cn [p ->]]] Hrest]; subst.
    rewrite run_cons in *.
    destruct (IH _ Hrest Hm) as [Hm1 [Hkeep Hin]].
    destruct (run_action_add_mounted _ _ _ _ Hm1) as [Hm0 [Hcn Hkeep0]].
    repeat split; auto.
    intros eid' cn' p' [E|Hlater].
    + injection E as -> -> ->. now apply Hkeep.
    + eapply Hin; eassumption.
Qed.

Lemma run_fixed (acts : list Action) (s : State) :
  (forall a, In a acts -> run_action a s = s) -> run acts s = s.
Proof.
  induction acts as [|a acts IH]; intro H; [reflexivity|].
  rewrite run_cons, (H a (or_introl eq_refl)). apply IH. intros b Hb. apply H. now right.
Qed.

Lemma ingest_twice (payload : JS) (s : State) :
  ingest payload (ingest payload s) = ingest payload s.
Proof.
  unfold ingest. set (acts := fst (alert_logic payload)).
  pose proof (alert_logic_adds payload) as Ha. fold acts in Ha.
  apply run_fixed. intros a Hin.
  pose proof (proj1 (Forall_forall _ _) Ha a Hin) as [eid [cn [p ->]]].
  cbn [run_action]. destruct (mounted (run acts s)) eqn:Em; [|reflexivity].
  destruct (run_adds_present acts s Ha Em) as [_ [_ Hpresent]].
  cbn [apply_updater].
  rewrite (proj2 (some_class_name_In cn _) (Hpresent _ _ _ Hin)).
  apply set_alerts_same.
Qed.

(** ** What the alert logic does with a well-formed record *)

Lemma includes_emergency (cn : jsstring) :
  In cn emergency_classes -> includes (JString cn : JS) = Some cn.
Proof.
  intro H. unfold includes.
  replace (existsb (jsstring_eqb cn) emergency_classes) with true; [reflexivity|].
  symmetry. apply existsb_exists. exists cn. split; [assumption | apply jsstring_eqb_refl].
Qed.

Lemma includes_Some (v : JS) (cn : jsstring) :
  includes v = Some cn -> v = JString cn /\ In cn emergency_classes.
Proof.
  unfold includes. destruct v; try discriminate.
  destruct (existsb (jsstring_eqb s) emergency_classes) eqn:E; [|discriminate].
  intro H. injection H as <-. split; [reflexivity|].
  apply existsb_exists in E as [c [Hc Ec]]. apply jsstring_eqb_eq in Ec. now subst.
Qed.

Lemma eventId_of_shape (payload fv tv : JS) (f t : jsstring) :
  Get payload (u16 "frame_id") = inr fv -> ToString fv = Some f ->
  Get payload (u16 "unix_time") = inr tv -> ToString tv = Some t ->
  eventId_of payload = inr (u16 "evt_" ++ f ++ u16 "_" ++ t).
Proof. intros H1 H2 H3 H4. unfold eventId_of. now rewrite H1, H2, H3, H4. Qed.

Lemma forEach_detections_labels (payload : JS) (eid : jsstring) (dets : list JS) :
  eventId_of payload = inr eid ->
  Forall (fun det => det <> JNull /\ det <> JUndefined) dets ->
  forEach_detections payload dets
  = (map (fun cn => SetAlerts (AddAlert eid cn payload)) (emergency_labels dets), None).
Proof.
  intros He Hd. induction Hd as [|d dets Hd _ IH]; [reflexivity|].
  cbn [forEach_detections emergency_labels flat_map]. unfold detection_callback.
  destruct d; try (exfalso; tauto); cbn [Get];
    (destruct (includes _) as [c|]; [|exact IH]);
    rewrite He; fold (emergency_labels dets); rewrite IH; reflexivity.
Qed.

Lemma alert_logic_labels (payload a flag : JS) (dets : list JS) (eid : jsstring) :
  Get payload (u16 "alerts") = inr a ->
  Get_optional a (u16 "emergency_detected") = inr flag ->
  ToBoolean flag = true ->
  Get payload (u16 "detections") = inr (JArray dets) ->
  Forall (fun det => det <> JNull /\ det <> JUndefined) dets ->
  eventId_of payload = inr eid ->
  alert_logic payload
  = (map (fun cn => SetAlerts (AddAlert eid cn payload)) (emergency_labels dets), None).
Proof.
  intros Ha Hf Ht Hd Hn He. unfold alert_logic. rewrite Ha, Hf, Ht, Hd.
  now apply forEach_detections_labels.
Qed.

Lemma apply_AddAlert_new (eid cn : jsstring) (payload ts tp : JS) (prev : list Alert) :
  Get payload (u16 "timestamp") = inr ts -> ToPrimitive ts = inr tp ->
  some_class_name cn prev = false ->
  apply_updater (AddAlert eid cn payload) prev
  = inr ({| id := eid; class_name := cn; severity := u16 "HIGH"; location := u16 "ROAD 1";
            time := toLocaleTimeString tp; desc := cn ++ u16 " emergency triggered." |} :: prev).
Proof. intros H1 H2 H3. cbn [apply_updater]. now rewrite H3, H1, H2. Qed.

Lemma apply_AddAlert_present (eid cn : jsstring) (payload : JS) (prev : list Alert) :
  In cn (map class_name prev) -> apply_updater (AddAlert eid cn payload) prev = inr prev.
Proof.
  intro H. cbn [apply_updater]. now rewrite (proj2 (some_class_name_In cn prev) H).
Qed.

Lemma apply_AddAlert_result (eid cn : jsstring) (payload : JS) (prev l : list Alert) :
  apply_updater (AddAlert eid cn payload) prev = inr l ->
  In cn (map class_name l)
  /\ (l = prev /\ some_class_name cn prev = true
      \/ exists a, l = a :: prev /\ id a = eid /\ class_name a = cn
                   /\ some_class_name cn prev = false).
Proof.
  cbn [apply_updater]. destruct (some_class_name cn prev) eqn:Es.
  - intro E. injection E as <-. split; [now apply some_class_name_In | left; now split].
  - destruct (Get payload (u16 "timestamp")) as [e|ts]; [discriminate|].
    destruct (ToPrimitive ts) as [e|t]; [discriminate|].
    intro E. injection E as <-. split; [now left|]. right. eexists. repeat split.
Qed.

Lemma some_class_name_cons (cn : jsstring) (a : Alert) (l : list Alert) :
  some_class_name cn (a :: l) = jsstring_eqb (class_name a) cn || some_class_name cn l.
Proof. reflexivity. Qed.

Lemma Get_inr_not_null (v x : JS) (k : jsstring) :
  Get v k = inr x -> v <> JNull /\ v <> JUndefined.
Proof. destruct v; cbn [Get]; intro H; try discriminate; split; discriminate. Qed.

(** ** Slices *)

Lemma getUint32_length (b : ArrayBuffer) (n : N) : getUint32 b = inr n -> 4 <= byteLength b.
Proof.
  unfold byteLength. destruct b as [|? [|? [|? [|? ?]]]]; simpl; try discriminate. lia.
Qed.

Lemma getUint32_short (b : ArrayBuffer) : byteLength b < 4 -> getUint32 b = inl RangeError.
Proof.
  unfold byteLength. destruct b as [|? [|? [|? [|? ?]]]]; simpl; try reflexivity. lia.
Qed.

Lemma byteLength_slice (lo hi : N) (b : ArrayBuffer) :
  byteLength (slice lo hi b) = N.min hi (byteLength b) - N.min lo (byteLength b).
Proof.
  unfold slice, byteLength. rewrite length_firstn, length_skipn. lia.
Qed.

Lemma slice_from_skipn (lo : N) (b : ArrayBuffer) :
  slice_from lo b = skipn (N.to_nat (N.min lo (byteLength b))) b.
Proof.
  unfold slice_from, slice. apply firstn_all2. rewrite length_skipn. unfold byteLength. lia.
Qed.

Lemma slice_parts (n : N) (b : ArrayBuffer) :
  4 <= byteLength b -> b = firstn 4 b ++ slice 4 (4 + n) b ++ slice_from (4 + n) b.
Proof.
  intro H. rewrite slice_from_skipn. unfold slice.
  rewrite (N.min_l 4) by assumption. change (N.to_nat 4) with 4%nat.
  set (lo := N.min (4 + n) (byteLength b)).
  assert (Hlo : 4 <= lo) by (unfold lo; lia).
  replace (skipn (N.to_nat lo) b) with (skipn (N.to_nat (lo - 4)) (skipn 4 b)).
  - now rewrite !firstn_skipn.
  - rewrite skipn_skipn. f_equal. lia.
Qed.

Lemma slice_clamped (n : N) (b : ArrayBuffer) :
  4 <= byteLength b -> byteLength b < 4 + n ->
  slice 4 (4 + n) b = skipn 4 b /\ slice_from (4 + n) b = [].
Proof.
  intros H4 Hn. split.
  - unfold slice. rewrite (N.min_l 4), (N.min_r (4 + n)) by lia.
    change (N.to_nat 4) with 4%nat. apply firstn_all2. rewrite length_skipn.
    unfold byteLength. lia.
  - rewrite slice_from_skipn. rewrite N.min_r by lia. apply skipn_all2.
    unfold byteLength. lia.
Qed.

(** ** What the alert logic leaves alone *)

Lemma run_action_adds_frame (a : Action) (s : State) :
  adds a ->
  systemStatus (run_action a s) = systemStatus s
  /\ canvas (run_action a s) = canvas s
  /\ sent (run_action a s) = sent s
  /\ animationFrames (run_action a s) = animationFrames s
  /\ imageBitmaps (run_action a s) = imageBitmaps s
  /\ arrayBuffers (run_action a s) = arrayBuffers s.
Proof.
  intros [eid [cn [p ->]]]. cbn [run_action]. destruct (mounted s); [|tauto].
  destruct (apply_updater _ _); [|cbn; tauto].
  unfold unmount, cleanup, ws_close; simpl. destruct (readyState s); cbn; tauto.
Qed.

Lemma run_adds_frame (acts : list Action) : forall (s : State),
  Forall adds acts ->
  systemStatus (run acts s) = systemStatus s
  /\ canvas (run acts s) = canvas s
  /\ sent (run acts s) = sent s
  /\ animationFrames (run acts s) = animationFrames s
  /\ imageBitmaps (run acts s) = imageBitmaps s
  /\ arrayBuffers (run acts s) = arrayBuffers s.
Proof.
  induction acts as [|a acts IH]; intros s H; [cbn; tauto|].
  inversion H as [|? ? Ha Hr]; subst. rewrite run_cons.
  destruct (IH (run_action a s) Hr) as (-> & -> & -> & -> & -> & ->).
  now apply run_action_adds_frame.
Qed.

(** The handler's actions after the first await: calls of [setAlerts]
    that add, then at most the start of the image decode. *)
Lemma onmessage_arrayBuffer_shape (b : ArrayBuffer) :
  exists acts rest,
    fst (onmessage_arrayBuffer b) = acts ++ rest /\ Forall adds acts
    /\ (rest = [] \/ exists n, getUint32 b = inr n /\ snd (onmessage_arrayBuffer b) = None
                            /\ rest = [AwaitImageBitmap (slice_from (4 + n) b)]).
Proof.
  unfold onmessage_arrayBuffer. destruct (getUint32 b) as [e|n].
  { exists [], []. repeat split; auto. }
  destruct (JSON_parse _) as [payload|].
  2:{ exists [], []. repeat split; auto. }
  pose proof (alert_logic_adds payload) as Ha.
  destruct (alert_logic payload) as [acts [e|]]; cbn [fst snd] in *.
  - exists acts, []. rewrite app_nil_r. auto.
  - exists acts, [AwaitImageBitmap (slice_from (4 + n) b)]. repeat split; auto.
    right. exists n. auto.
Qed.

Lemma step_ArrayBufferReady_systemStatus (i : nat) (s : State) :
  systemStatus (step (ArrayBufferReady i) s) = systemStatus s.
Proof.
  unfold step. destruct (nth_error (arrayBuffers s) i) as [b|]; [|reflexivity].
  destruct (onmessage_arrayBuffer_shape b) as (acts & rest & -> & Ha & Hr).
  rewrite run_app.
  assert (Hrest : forall s0, systemStatus (run rest s0) = systemStatus s0).
  { intro s0. destruct Hr as [-> | (n & _ & _ & ->)]; reflexivity. }
  rewrite Hrest. now destruct (run_adds_frame acts (set_arrayBuffers (remove_nth i (arrayBuffers s)) s) Ha) as (-> & _).
Qed.

(** ** The empty text is no JSON *)

Lemma TextDecoder_decode_nil : TextDecoder_decode [] = [].
Proof. reflexivity. Qed.

Lemma JSON_parse_nil : JSON_parse [] = None.
Proof. reflexivity. Qed.

Lemma slice_empty (lo : N) (b : ArrayBuffer) : slice lo lo b = [].
Proof. unfold slice. now rewrite N.sub_diag. Qed.

Lemma alert_logic_calm (payload a flag : JS) :
  Get payload (u16 "alerts") = inr a ->
  Get_optional a (u16 "emergency_detected") = inr flag ->
  ToBoolean flag = false ->
  alert_logic payload = ([], None).
Proof. intros H1 H2 H3. unfold alert_logic. now rewrite H1, H2, H3. Qed.

(** ** After the socket has closed *)

Lemma run_action_closed (a : Action) (s : State) :
  readyState s = CLOSED -> readyState (run_action a s) = CLOSED.
Proof.
  intro H. destruct a; cbn [run_action]; try assumption.
  - destruct (mounted s); assumption.
  - destruct (mounted s); [|assumption].
    destruct (apply_updater u (alerts s)); [|assumption].
    unfold unmount, cleanup, ws_close; simpl. now rewrite H.
  - unfold ws_close. now rewrite H.
Qed.

Lemma run_closed (acts : list Action) : forall (s : State),
  readyState s = CLOSED -> readyState (run acts s) = CLOSED.
Proof.
  induction acts as [|a acts IH]; intros s H; [assumption|].
  rewrite run_cons. apply IH. now apply run_action_closed.
Qed.

Lemma step_closed (e : Event) (s : State) :
  readyState s = CLOSED -> deliverable s e = true ->
  readyState (step e s) = CLOSED /\ (forall d, e <> WsMessage d).
Proof.
  intros H Hd. destruct e; cbn [deliverable] in Hd; rewrite ?H in Hd; try discriminate;
    (split; [|discriminate]); unfold step.
  - destruct (nth_error (arrayBuffers s) i); [|assumption]. now apply run_closed.
  - destruct (nth_error (imageBitmaps s) i); [|assumption]. now apply run_closed.
  - now apply run_closed.
  - now apply run_closed.
  - rewrite Hd. unfold unmount, cleanup, ws_close; simpl. now rewrite H.
Qed.

Lemma steps_closed (es : list Event) : forall (s : State),
  readyState s = CLOSED -> deliverable_all es s = true ->
  readyState (steps es s) = CLOSED /\ (forall d, ~ In (WsMessage d) es).
Proof.
  induction es as [|e es IH]; intros s H Hd; [split; [assumption | intros d []]|].
  cbn [deliverable_all] in Hd. apply andb_true_iff in Hd as [He Hes].
  destruct (step_closed e s H He) as [Hc Hne].
  destruct (IH (step e s) Hc Hes) as [Hc' Hno].
  split; [assumption|]. intros d [E | Hin]; [now apply (Hne d) | now apply (Hno d)].
Qed.

Lemma step_WsClose_readyState (s : State) : readyState (step WsClose s) = CLOSED.
Proof. unfold step, onclose. cbn. destruct (mounted s); reflexivity. Qed.

Lemma run_action_unmounted (a : Action) (s : State) :
  mounted s = false -> (forall b, a <> DrawImage b) ->
  canvas (run_action a s) = canvas s /\ mounted (run_action a s) = false.
Proof.
  intros H Hn. destruct a as [st|u|blob|blob|bmp|bmp|text|]; cbn [run_action]; rewrite ?H;
    try (split; [reflexivity | first [assumption | reflexivity]]).
  - exfalso. now apply (Hn bmp).
  - unfold ws_close. destruct (readyState s); split; auto.
Qed.

Lemma run_unmounted (acts : list Action) : forall (s : State),
  mounted s = false -> (forall b, ~ In (DrawImage b) acts) ->
  canvas (run acts s) = canvas s /\ mounted (run acts s) = false.
Proof.
  induction acts as [|a acts IH]; intros s H Hn; [split; [reflexivity | assumption]|].
  rewrite run_cons.
  destruct (run_action_unmounted a s H) as [Hc Hm].
  { intros b E. apply (Hn b). now left. }
  destruct (IH (run_action a s) Hm) as [Hc' Hm'].
  { intros b Hin. apply (Hn b). now right. }
  split; congruence.
Qed.

Lemma adds_not_DrawImage (acts : list Action) (b : ImageBitmap) :
  Forall adds acts -> ~ In (DrawImage b) acts.
Proof.
  intros H Hin. apply (proj1 (Forall_forall _ _) H) in Hin as (? & ? & ? & ?). discriminate.
Qed.

Lemma run_unmounted_from (acts : list Action) (s s0 : State) :
  mounted s = false -> canvas s = canvas s0 -> (forall b, ~ In (DrawImage b) acts) ->
  canvas (run acts s) = canvas s0 /\ mounted (run acts s) = false.
Proof.
  intros H Hc Hn. destruct (run_unmounted acts s H Hn) as [E Hm]. split; congruence.
Qed.

Lemma step_unmounted (e : Event) (s : State) :
  mounted s = false -> canvas (step e s) = canvas s /\ mounted (step e s) = false.
Proof.
  intro H. destruct e; unfold step.
  - apply run_unmounted_from; [exact H | reflexivity |]. intros b [E|[]]. discriminate.
  - now split.
  - apply run_unmounted_from; [exact H | reflexivity |]. intros b [E|[]]. discriminate.
  - apply run_unmounted_from; [exact H | reflexivity |].
    destruct data; intros b; [intros [E|[]]; discriminate | intros []].
  - destruct (nth_error (arrayBuffers s) i) as [buf|]; [|now split].
    apply run_unmounted_from; [exact H | reflexivity |].
    destruct (onmessage_arrayBuffer_shape buf) as (acts & rest & -> & Ha & Hr).
    intros b Hin. apply in_app_or in Hin as [Hin|Hin].
    + now apply (adds_not_DrawImage acts b).
    + destruct Hr as [-> | (n & _ & _ & ->)]; [destruct Hin|].
      destruct Hin as [E|[]]. discriminate.
  - destruct (nth_error (imageBitmaps s) i) as [blob|]; [|now split].
    apply run_unmounted_from; [exact H | reflexivity |]. unfold onmessage_imageBitmap.
    destruct (createImageBitmap blob); intros b; [intros [E|[]]; discriminate | intros []].
  - apply run_unmounted_from; [exact H | reflexivity |]. rewrite H. intros b Hin.
    apply in_flat_map in Hin as (x & _ & []).
  - apply run_unmounted_from; [exact H | reflexivity |]. unfold handleResolve.
    intros b Hin. apply in_app_or in Hin as [Hin | [E|[]]]; [|discriminate].
    destruct (readyState s); try destruct Hin as [E|[]]; try discriminate; destruct Hin.
  - rewrite H. now split.
Qed.

Lemma run_draw (l : list ImageBitmap) : forall (s : State),
  canvas (run (flat_map (animation_callback true) l) s) = rev l ++ canvas s
  /\ systemStatus (run (flat_map (animation_callback true) l) s) = systemStatus s.
Proof.
  induction l as [|b l IH]; intro s; [split; reflexivity|].
  cbn [flat_map animation_callback app]. rewrite run_cons.
  destruct (IH (run_action (DrawImage b) s)) as [-> ->]. cbn [rev run_action canvas set_canvas systemStatus].
  now rewrite <- app_assoc.
Qed.

Lemma ingest_present (payload : JS) (s : State) :
  (forall eid cn p, In (SetAlerts (AddAlert eid cn p)) (fst (alert_logic payload)) ->
                    In cn (map class_name (alerts s))) ->
  ingest payload s = s.
Proof.
  intro H. unfold ingest. apply run_fixed. intros a Ha.
  pose proof (proj1 (Forall_forall _ _) (alert_logic_adds payload) a Ha) as (eid & cn & p & ->).
  cbn [run_action]. destruct (mounted s); [|reflexivity].
  rewrite (apply_AddAlert_present eid cn p (alerts s)) by (eapply H; eassumption).
  apply set_alerts_same.
Qed.

(** ** Every alert is one the handler built *)

Lemma eventId_of_prefix (payload : JS) (eid : jsstring) :
  eventId_of payload = inr eid -> exists rest, eid = u16 "evt_" ++ rest.
Proof.
  unfold eventId_of.
  destruct (Get payload (u16 "frame_id")) as [e|fv]; [discriminate|].
  destruct (ToString fv) as [f|]; [|discriminate].
  destruct (Get payload (u16 "unix_time")) as [e|tv]; [discriminate|].
  destruct (ToString tv) as [t|]; [|discriminate].
  intro H. injection H as <-. now eexists.
Qed.

Lemma forEach_detections_built (payload : JS) (dets : list JS) :
  Forall adds_built (fst (forEach_detections payload dets)).
Proof.
  induction dets as [|d dets IH]; cbn [forEach_detections]; [constructor|].
  destruct (detection_callback payload d) as [e|[u|]] eqn:E; try (constructor; fail); [|exact IH].
  destruct (forEach_detections payload dets) as [acts err]. cbn [fst] in *.
  constructor; [|assumption].
  unfold detection_callback in E.
  destruct (Get d (u16 "class_name")) as [?|cn]; [discriminate|].
  destruct (includes cn) as [c|] eqn:Ei; [|discriminate].
  destruct (eventId_of payload) as [?|eid] eqn:Ee; [discriminate|].
  injection E as <-. apply includes_Some in Ei as [_ Hin].
  apply eventId_of_prefix in Ee as [rest ->]. now exists rest, c, payload.
Qed.

Lemma alert_logic_built (payload : JS) : Forall adds_built (fst (alert_logic payload)).
Proof.
  unfold alert_logic.
  destruct (Get payload (u16 "alerts")) as [e|a]; [constructor|].
  destruct (Get_optional a (u16 "emergency_detected")) as [e|flag]; [constructor|].
  destruct (ToBoolean flag); [|constructor].
  destruct (Get payload (u16 "detections")) as [e|[ | | | | |dets| ]]; try constructor.
  apply forEach_detections_built.
Qed.

Lemma apply_updater_built (u : Updater) (prev l : list Alert) :
  match u with
  | AddAlert _ _ _ => adds_built (SetAlerts u)
  | RemoveAlert _ => True
  end ->
  Forall built_alert prev -> apply_updater u prev = inr l -> Forall built_alert l.
Proof.
  intros Hu Hp. destruct u as [eid cn p | eid]; cbn [apply_updater].
  - destruct (some_class_name cn prev); [intro E; now injection E as <-|].
    destruct (Get p (u16 "timestamp")) as [e|ts]; [discriminate|].
    destruct (ToPrimitive ts) as [e|t]; [discriminate|].
    intro E. injection E as <-. constructor; [|assumption].
    destruct Hu as (rest & cn' & p' & Ha & Hin). injection Ha as -> -> ->.
    repeat split; assumption || reflexivity.
  - intro E. injection E as <-. apply Forall_forall. intros a Ha.
    apply filter_In in Ha as [Ha _]. revert a Ha. now apply Forall_forall.
Qed.

Lemma run_action_built (a : Action) (s : State) :
  handler_action a -> Forall built_alert (alerts s) ->
  Forall built_alert (alerts (run_action a s)).
Proof.
  intros Ha H. destruct a as [st|u|blob|blob|bmp|bmp|text|]; cbn [run_action]; try assumption.
  - destruct (mounted s); assumption.
  - destruct (mounted s); [|assumption].
    destruct (apply_updater u (alerts s)) as [e|l] eqn:E; [now rewrite unmount_alerts|].
    cbn [alerts set_alerts].
    apply (apply_updater_built u (alerts s)); [destruct u; [exact Ha | exact I] | | ];
      assumption.
  - unfold ws_close. destruct (readyState s); assumption.
Qed.

Lemma run_built (acts : list Action) : forall (s : State),
  Forall handler_action acts -> Forall built_alert (alerts s) ->
  Forall built_alert (alerts (run acts s)).
Proof.
  induction acts as [|a acts IH]; intros s Ha H; [assumption|].
  inversion Ha; subst. rewrite run_cons. apply IH; [assumption|]. now apply run_action_built.
Qed.

Lemma adds_built_handler (acts : list Action) :
  Forall adds_built acts -> Forall handler_action acts.
Proof.
  intro H. apply Forall_forall. intros a Ha.
  pose proof (proj1 (Forall_forall _ _) H a Ha) as Hb.
  destruct Hb as (rest & cn & p & -> & Hin). cbn. now exists rest, cn, p.
Qed.

Lemma onmessage_arrayBuffer_handler (b : ArrayBuffer) :
  Forall handler_action (fst (onmessage_arrayBuffer b)).
Proof.
  unfold onmessage_arrayBuffer. destruct (getUint32 b) as [e|n]; [constructor|].
  destruct (JSON_parse _) as [payload|]; [|constructor].
  pose proof (adds_built_handler _ (alert_logic_built payload)) as Ha.
  destruct (alert_logic payload) as [acts [e|]]; cbn [fst] in *; [assumption|].
  apply Forall_app. split; [assumption|]. constructor; [exact I | constructor].
Qed.

Lemma step_built (e : Event) (s : State) :
  Forall built_alert (alerts s) -> Forall built_alert (alerts (step e s)).
Proof.
  intro H. destruct e; unfold step.
  - apply run_built; [|exact H]. repeat constructor.
  - assumption.
  - apply run_built; [|exact H]. repeat constructor.
  - apply run_built; [|exact H]. destruct data; repeat constructor.
  - destruct (nth_error (arrayBuffers s) i) as [b|]; [|assumption].
    apply run_built; [|exact H]. apply onmessage_arrayBuffer_handler.
  - destruct (nth_error (imageBitmaps s) i) as [b|]; [|assumption].
    apply run_built; [|exact H]. unfold onmessage_imageBitmap.
    destruct (createImageBitmap b); repeat constructor.
  - apply run_built; [|exact H]. apply Forall_forall. intros a Ha.
    apply in_flat_map in Ha as (bmp & _ & Hb). unfold animation_callback in Hb.
    destruct (mounted s); [|destruct Hb]. destruct Hb as [<-|[]]. exact I.
  - apply run_built; [|exact H]. unfold handleResolve.
    apply Forall_app. split; [destruct (readyState s)|]; repeat constructor.
  - destruct (mounted s); [|assumption]. now rewrite unmount_alerts.
Qed.

Lemma reachable_built (s : State) : reachable s -> Forall built_alert (alerts s).
Proof.
  induction 1 as [|s e _ IH _]; [constructor | now apply step_built].
Qed.

Lemma run_action_plain (a : Action) (s : State) :
  plain a -> mounted (run_action a s) = true ->
  mounted s = true /\ readyState (run_action a s) = readyState s
  /\ systemStatus (run_action a s) = systemStatus s.
Proof.
  intros Hp. destruct a as [st|u|blob|blob|bmp|bmp|text|]; cbn [run_action];
    try destruct Hp; try (intro H; repeat split; assumption || reflexivity).
  destruct (mounted s) eqn:Em; [|intro H; congruence].
  destruct (apply_updater u (alerts s)); [now rewrite unmount_mounted|].
  intros _. repeat split; assumption || reflexivity.
Qed.

Lemma run_plain (acts : list Action) : forall (s : State),
  Forall plain acts -> mounted (run acts s) = true ->
  mounted s = true /\ readyState (run acts s) = readyState s
  /\ systemStatus (run acts s) = systemStatus s.
Proof.
  induction acts as [|a acts IH]; intros s Hp Hm; [repeat split; assumption|].
  inversion Hp; subst. rewrite run_cons in *.
  destruct (IH _ H2 Hm) as (Hm1 & -> & ->).
  now apply run_action_plain.
Qed.

Lemma onmessage_arrayBuffer_plain (b : ArrayBuffer) :
  Forall plain (fst (onmessage_arrayBuffer b)).
Proof.
  destruct (onmessage_arrayBuffer_shape b) as (acts & rest & -> & Ha & Hr).
  apply Forall_app. split.
  - apply Forall_forall. intros a Hin.
    apply (proj1 (Forall_forall _ _) Ha) in Hin as (? & ? & ? & ->). exact I.
  - destruct Hr as [-> | (n & _ & _ & ->)]; repeat constructor.
Qed.

Lemma run_plain_follows (acts : list Action) (s s0 : State) :
  Forall plain acts -> status_follows s0 ->
  mounted s = mounted s0 -> readyState s = readyState s0 -> systemStatus s = systemStatus s0 ->
  status_follows (run acts s).
Proof.
  intros Hp H0 E1 E2 E3 Hm. destruct (run_plain acts s Hp Hm) as (Hm' & -> & ->).
  rewrite E2, E3. apply H0. congruence.
Qed.

Lemma step_follows (e : Event) (s : State) :
  deliverable s e = true -> status_follows s -> status_follows (step e s).
Proof.
  intros Hd H. destruct e; unfold step.
  - unfold onopen, run, status_follows. cbn [fold_left run_action mounted set_readyState].
    destruct (mounted s) eqn:E; cbn; intro; congruence.
  - cbn [deliverable] in Hd. unfold status_follows in *.
    cbn [mounted systemStatus readyState set_readyState status_of]. intro Hm.
    rewrite (H Hm). destruct (readyState s); try discriminate. reflexivity.
  - unfold onclose, run, status_follows. cbn [fold_left run_action mounted set_readyState].
    destruct (mounted s) eqn:E; cbn; intro; congruence.
  - apply (run_plain_follows _ s s); try reflexivity; [|assumption].
    destruct data; repeat constructor.
  - destruct (nth_error (arrayBuffers s) i) as [b|]; [|assumption].
    apply (run_plain_follows _ _ s); try reflexivity; [|assumption].
    apply onmessage_arrayBuffer_plain.
  - destruct (nth_error (imageBitmaps s) i) as [b|]; [|assumption].
    apply (run_plain_follows _ _ s); try reflexivity; [|assumption].
    unfold onmessage_imageBitmap. destruct (createImageBitmap b); repeat constructor.
  - apply (run_plain_follows _ _ s); try reflexivity; [|assumption].
    apply Forall_forall. intros a Ha. apply in_flat_map in Ha as (bmp & _ & Hb).
    unfold animation_callback in Hb. destruct (mounted s); [|destruct Hb].
    destruct Hb as [<-|[]]. exact I.
  - apply (run_plain_follows _ s s); try reflexivity; [|assumption].
    unfold handleResolve. apply Forall_app. split; [destruct (readyState s)|]; repeat constructor.
  - cbn [deliverable] in Hd. destruct (mounted s); [|discriminate].
    intro Hm. now rewrite unmount_mounted in Hm.
Qed.

Lemma reachable_follows (s : State) : reachable s -> status_follows s.
Proof.
  induction 1 as [|s e _ IH Hd]; [intro; reflexivity | now apply step_follows].
Qed.

(** ** The handlers do not read the status *)

Lemma run_action_status (a : Action) (st : SystemStatus) (s : State) :
  plain a \/ a = Close ->
  run_action a (set_systemStatus st s) = set_systemStatus st (run_action a s).
Proof.
  intros [Hp | ->].
  - destruct a as [st'|u|blob|blob|bmp|bmp|text|]; try destruct Hp; try reflexivity.
    cbn [run_action mounted alerts set_systemStatus]. destruct (mounted s); [|reflexivity].
    destruct (apply_updater u (alerts s)); [|reflexivity].
    unfold unmount, cleanup, ws_close; simpl. destruct (readyState s); reflexivity.
  - unfold run_action, ws_close; simpl. destruct (readyState s); reflexivity.
Qed.

Lemma run_status (acts : list Action) (st : SystemStatus) : forall (s : State),
  Forall plain acts ->
  run acts (set_systemStatus st s) = set_systemStatus st (run acts s).
Proof.
  induction acts as [|a acts IH]; intros s Hp; [reflexivity|].
  inversion Hp; subst. rewrite !run_cons.
  rewrite run_action_status by (now left). now apply IH.
Qed.

Lemma animation_callbacks_plain (canvas : bool) (l : list ImageBitmap) :
  Forall plain (flat_map (animation_callback canvas) l).
Proof.
  apply Forall_forall. intros a Ha. apply in_flat_map in Ha as (bmp & _ & Hb).
  unfold animation_callback in Hb. destruct canvas; [|destruct Hb].
  destruct Hb as [<-|[]]. exact I.
Qed.

Lemma step_status (e : Event) (st : SystemStatus) (s : State) :
  match e with
  | ArrayBufferReady _ | ImageBitmapSettled _ | AnimationFrame => True
  | _ => False
  end ->
  step e (set_systemStatus st s) = set_systemStatus st (step e s).
Proof.
  destruct e; intros []; unfold step; cbn [arrayBuffers imageBitmaps animationFrames mounted set_systemStatus].
  - destruct (nth_error (arrayBuffers s) i) as [b|]; [|reflexivity].
    apply (run_status _ st (set_arrayBuffers (remove_nth i (arrayBuffers s)) s)).
    apply onmessage_arrayBuffer_plain.
  - destruct (nth_error (imageBitmaps s) i) as [b|]; [|reflexivity].
    apply (run_status _ st (set_imageBitmaps (remove_nth i (imageBitmaps s)) s)).
    unfold onmessage_imageBitmap. destruct (createImageBitmap b); repeat constructor.
  - apply (run_status _ st (set_animationFrames [] s)). apply animation_callbacks_plain.
Qed.

(** ** The fuel of [JSON_parse] is enough *)

Lemma skip_ws_length (s : jsstring) : (List.length (skip_ws s) <= List.length s)%nat.
Proof.
  induction s as [|c s IH]; simpl; [lia|]. destruct (is_ws c); simpl; lia.
Qed.

Lemma cons_result_Some (A B : Type) (a : A) (r : option (list A * B)) (l : list A) (b : B) :
  cons_result a r = Some (l, b) -> exists l', r = Some (l', b) /\ l = a :: l'.
Proof.
  destruct r as [[l' b']|]; simpl; intro H; [|discriminate].
  injection H as <- <-. now exists l'.
Qed.

Lemma parse_string_length (n : nat) : forall (s x r : jsstring),
  (List.length s <= n)%nat -> parse_string s = Some (x, r) ->
  (List.length r < List.length s)%nat.
Proof.
  induction n as [|n IH]; intros [|c s] x r Hn; simpl in Hn; try discriminate; try lia.
  cbn [parse_string].
  destruct (c =? 34). { intro H. injection H as <- <-. simpl. lia. }
  destruct (c =? 92).
  - destruct s as [|e s1]; [discriminate|].
    assert (Hrec : forall v x' r', cons_result v (parse_string s1) = Some (x', r') ->
                   (List.length r' < List.length (c :: e :: s1))%nat).
    { intros v x' r' H. apply cons_result_Some in H as (l' & H & _).
      apply IH in H; simpl in *; lia. }
    destruct ((e =? 34) || (e =? 92) || (e =? 47)); [apply Hrec|].
    destruct (e =? 98); [apply Hrec|]. destruct (e =? 102); [apply Hrec|].
    destruct (e =? 110); [apply Hrec|]. destruct (e =? 114); [apply Hrec|].
    destruct (e =? 116); [apply Hrec|].
    destruct (e =? 117); [|discriminate].
    destruct s1 as [|a [|b [|c' [|d s2]]]]; try discriminate.
    destruct (hex4 a b c' d); [|discriminate].
    intro H. apply cons_result_Some in H as (l' & H & _).
    apply IH in H; simpl in *; lia.
  - destruct (c <? 32); [discriminate|].
    intro H. apply cons_result_Some in H as (l' & H & _).
    apply IH in H; simpl in *; lia.
Qed.

Lemma span_digits_length (s : jsstring) :
  (List.length (snd (span_digits s)) <= List.length s)%nat.
Proof.
  induction s as [|c s IH]; simpl; [lia|].
  destruct (is_digit c); simpl; [|lia].
  destruct (span_digits s); simpl in *; lia.
Qed.

Lemma span_digits_rest (s ds r : jsstring) :
  span_digits s = (ds, r) -> (List.length r <= List.length s)%nat.
Proof. intro H. pose proof (span_digits_length s). now rewrite H in *. Qed.

Lemma parse_number_length (s lit r : jsstring) :
  parse_number s = Some (lit, r) -> (List.length r < List.length s)%nat.
Proof.
  unfold parse_number.
  set (signed := match s with
                 | c :: r0 => if c =? 45 then ([45], r0) else ([], s)
                 | [] => ([], s)
                 end).
  assert (Hs : (List.length (snd signed) <= List.length s)%nat).
  { subst signed. destruct s as [|c s0]; simpl; [lia|]. destruct (c =? 45); simpl; lia. }
  destruct signed as [sign s1]. cbn [snd] in Hs.
  set (int := match s1 with
              | c :: r0 => if c =? 48 then Some ([48], r0)
                           else if is_digit c
                                then let (ds, rest) := span_digits r0 in Some (c :: ds, rest)
                                else None
              | [] => None
              end).
  assert (Hi : forall i s2, int = Some (i, s2) -> (List.length s2 < List.length s1)%nat).
  { subst int. intros i s2. destruct s1 as [|c s0]; [discriminate|].
    destruct (c =? 48). { intro H. injection H as <- <-. simpl. lia. }
    destruct (is_digit c); [|discriminate].
    destruct (span_digits s0) as [ds rest] eqn:E. intro H. injection H as <- <-.
    apply span_digits_rest in E. simpl. lia. }
  destruct int as [[i s2]|]; [|discriminate]. specialize (Hi i s2 eq_refl).
  set (frac := match s2 with
               | c :: r0 => if c =? 46
                            then match span_digits r0 with
                                 | ([], _) => None
                                 | (ds, rest) => Some (46 :: ds, rest)
                                 end
                            else Some ([], s2)
               | [] => Some ([], s2)
               end).
  assert (Hf : forall fr s3, frac = Some (fr, s3) -> (List.length s3 <= List.length s2)%nat).
  { subst frac. intros fr s3. destruct s2 as [|c s0]; [intro H; injection H as <- <-; lia|].
    destruct (c =? 46); [|intro H; injection H as <- <-; lia].
    destruct (span_digits s0) as [[|d ds] rest] eqn:E; [discriminate|].
    intro H. injection H as <- <-. apply span_digits_rest in E. simpl. lia. }
  destruct frac as [[fr s3]|]; [|discriminate]. specialize (Hf fr s3 eq_refl).
  set (ex := match s3 with
             | c :: r0 => _
             | [] => Some ([], s3)
             end).
  assert (He : forall e s4, ex = Some (e, s4) -> (List.length s4 <= List.length s3)%nat).
  { subst ex. intros e s4. destruct s3 as [|c s0]; [intro H; injection H as <- <-; lia|].
    destruct ((c =? 101) || (c =? 69)); [|intro H; injection H as <- <-; lia].
    set (es := match s0 with
               | c1 :: r' => if (c1 =? 43) || (c1 =? 45) then ([c1], r') else ([], s0)
               | [] => ([], s0)
               end).
    assert (Hes : (List.length (snd es) <= List.length s0)%nat).
    { subst es. destruct s0 as [|c1 r']; simpl; [lia|].
      destruct ((c1 =? 43) || (c1 =? 45)); simpl; lia. }
    destruct es as [esign r1]. cbn [snd] in Hes.
    destruct (span_digits r1) as [[|d ds] rest] eqn:E; [discriminate|].
    intro H. injection H as <- <-. apply span_digits_rest in E. simpl. lia. }
  destruct ex as [[e s4]|]; [|discriminate]. specialize (He e s4 eq_refl).
  intro H. injection H as <- <-. lia.
Qed.

Lemma starts_with_length (p s r : jsstring) :
  p <> [] -> starts_with p s = Some r -> (List.length r < List.length s)%nat.
Proof.
  intros Hp. unfold starts_with.
  destruct (jsstring_eqb p (firstn (List.length p) s)) eqn:E; [|discriminate].
  intro H. injection H as <-. apply jsstring_eqb_eq in E.
  assert (Hl : List.length p = List.length (firstn (List.length p) s)) by now rewrite <- E.
  rewrite length_firstn in Hl. rewrite length_skipn.
  assert (0 < List.length p)%nat by (destruct p; [contradiction | simpl; lia]).
  lia.
Qed.


Local Ltac got H := injection H as <- <-.

Lemma parse_consumes (f : nat) :
  (forall s v r, parse_value f s = Some (v, r) -> (List.length r < List.length s)%nat)
  /\ (forall s vs r, parse_elements f s = Some (vs, r) -> (List.length r < List.length s)%nat)
  /\ (forall s ms r, parse_members f s = Some (ms, r) -> (List.length r < List.length s)%nat).
Proof.
  induction f as [|f (IHv & IHe & IHm)]; [repeat split; discriminate|].
  split; [|split].
  - intros s v r. cbn [parse_value]. pose proof (skip_ws_length s) as Hws.
    destruct (skip_ws s) as [|c t]; [discriminate|]. cbn [List.length] in Hws.
    destruct (c =? 34).
    { destruct (parse_string t) as [[str rest]|] eqn:E; [|discriminate].
      intro H. got H. apply (parse_string_length (List.length t)) in E; lia. }
    destruct (c =? 91).
    { pose proof (skip_ws_length t) as Ht.
      destruct (skip_ws t) as [|c1 t1]; [discriminate|]. cbn [List.length] in Ht.
      destruct (c1 =? 93). { intro H. got H. lia. }
      destruct (parse_elements f t) as [[vs rest]|] eqn:E; [|discriminate].
      intro H. got H. apply IHe in E. lia. }
    destruct (c =? 123).
    { pose proof (skip_ws_length t) as Ht.
      destruct (skip_ws t) as [|c1 t1]; [discriminate|]. cbn [List.length] in Ht.
      destruct (c1 =? 125). { intro H. got H. lia. }
      destruct (parse_members f t) as [[ms rest]|] eqn:E; [|discriminate].
      intro H. got H. apply IHm in E. lia. }
    destruct (starts_with (u16 "null") (c :: t)) as [rest|] eqn:E1.
    { intro H. got H. apply starts_with_length in E1; [cbn [List.length] in E1; lia | discriminate]. }
    destruct (starts_with (u16 "true") (c :: t)) as [rest|] eqn:E2.
    { intro H. got H. apply starts_with_length in E2; [cbn [List.length] in E2; lia | discriminate]. }
    destruct (starts_with (u16 "false") (c :: t)) as [rest|] eqn:E3.
    { intro H. got H. apply starts_with_length in E3; [cbn [List.length] in E3; lia | discriminate]. }
    destruct (parse_number (c :: t)) as [[lit rest]|] eqn:E4; [|discriminate].
    intro H. got H. apply parse_number_length in E4. cbn [List.length] in E4. lia.
  - intros s vs r. cbn [parse_elements].
    destruct (parse_value f s) as [[v0 r0]|] eqn:E; [|discriminate]. apply IHv in E.
    pose proof (skip_ws_length r0) as Hws.
    destruct (skip_ws r0) as [|c r1]; [discriminate|]. cbn [List.length] in Hws.
    destruct (c =? 44).
    { intro H. apply cons_result_Some in H as (l' & H & _). apply IHe in H. lia. }
    destruct (c =? 93); [|discriminate]. intro H. got H. lia.
  - intros s ms r. cbn [parse_members]. pose proof (skip_ws_length s) as Hws.
    destruct (skip_ws s) as [|c t]; [discriminate|]. cbn [List.length] in Hws.
    destruct (c =? 34); [|discriminate].
    destruct (parse_string t) as [[key r1]|] eqn:Ek; [|discriminate].
    apply (parse_string_length (List.length t)) in Ek; [|lia].
    pose proof (skip_ws_length r1) as Hws1.
    destruct (skip_ws r1) as [|c2 r2]; [discriminate|]. cbn [List.length] in Hws1.
    destruct (c2 =? 58); [|discriminate].
    destruct (parse_value f r2) as [[v r3]|] eqn:Ev; [|discriminate]. apply IHv in Ev.
    pose proof (skip_ws_length r3) as Hws3.
    destruct (skip_ws r3) as [|c4 r4]; [discriminate|]. cbn [List.length] in Hws3.
    destruct (c4 =? 44).
    { intro H. apply cons_result_Some in H as (l' & H & _). apply IHm in H. lia. }
    destruct (c4 =? 125); [|discriminate]. intro H. got H. lia.
Qed.

(** Beyond twice the length of the text, more fuel changes nothing. *)
Lemma parse_fuel (f : nat) :
  (forall s f', (2 * List.length s + 1 <= f)%nat -> (f <= f')%nat ->
                parse_value f' s = parse_value f s)
  /\ (forall s f', (2 * List.length s + 2 <= f)%nat -> (f <= f')%nat ->
                   parse_elements f' s = parse_elements f s)
  /\ (forall s f', (2 * List.length s + 1 <= f)%nat -> (f <= f')%nat ->
                   parse_members f' s = parse_members f s).
Proof.
  induction f as [|f (IHv & IHe & IHm)]; [repeat split; intros; lia|].
  split; [|split]; intros s [|f'] Hf Hle; try lia.
  - cbn [parse_value]. pose proof (skip_ws_length s) as Hws.
    destruct (skip_ws s) as [|c t]; [reflexivity|]. cbn [List.length] in Hws.
    destruct (c =? 34); [reflexivity|].
    destruct (c =? 91).
    { destruct (skip_ws t) as [|c1 t1]; [reflexivity|].
      destruct (c1 =? 93); [reflexivity|]. rewrite (IHe t f') by lia. reflexivity. }
    destruct (c =? 123); [|reflexivity].
    destruct (skip_ws t) as [|c1 t1]; [reflexivity|].
    destruct (c1 =? 125); [reflexivity|]. rewrite (IHm t f') by lia. reflexivity.
  - cbn [parse_elements]. rewrite (IHv s f') by lia.
    destruct (parse_value f s) as [[v0 r0]|] eqn:E; [|reflexivity].
    apply (proj1 (parse_consumes f)) in E.
    pose proof (skip_ws_length r0) as Hws.
    destruct (skip_ws r0) as [|c r1]; [reflexivity|]. cbn [List.length] in Hws.
    destruct (c =? 44); [|reflexivity]. rewrite (IHe r1 f') by lia. reflexivity.
  - cbn [parse_members]. pose proof (skip_ws_length s) as Hws.
    destruct (skip_ws s) as [|c t]; [reflexivity|]. cbn [List.length] in Hws.
    destruct (c =? 34); [|reflexivity].
    destruct (parse_string t) as [[key r1]|] eqn:Ek; [|reflexivity].
    apply (parse_string_length (List.length t)) in Ek; [|lia].
    pose proof (skip_ws_length r1) as Hws1.
    destruct (skip_ws r1) as [|c2 r2]; [reflexivity|]. cbn [List.length] in Hws1.
    destruct (c2 =? 58); [|reflexivity].
    rewrite (IHv r2 f') by lia.
    destruct (parse_value f r2) as [[v r3]|] eqn:Ev; [|reflexivity].
    apply (proj1 (parse_consumes f)) in Ev.
    pose proof (skip_ws_length r3) as Hws3.
    destruct (skip_ws r3) as [|c4 r4]; [reflexivity|]. cbn [List.length] in Hws3.
    destruct (c4 =? 44); [|reflexivity]. rewrite (IHm r4 f') by lia. reflexivity.
Qed.

(** [JSON_parse] never stops for want of fuel: with any larger amount it
    reads the same value. *)
Lemma JSON_parse_fuel (text : jsstring) (fuel : nat) :
  (2 * List.length text + 2 <= fuel)%nat ->
  parse_value fuel text = parse_value (2 * List.length text + 2) text.
Proof.
  intro H. apply (proj1 (parse_fuel (2 * List.length text + 2))); lia.
Qed.

(** ** [JSON.parse] reads back what [JSON.stringify] wrote *)

Lemma hex_value_digit (n : N) : n < 16 -> hex_value (hex_digit n) = Some n.
Proof.
  intro H. unfold hex_digit, hex_value, is_digit.
  destruct (N.ltb_spec n 10) as [Hlow | Hhigh].
  - replace ((48 <=? 48 + n) && (48 + n <=? 57)) with true.
    + f_equal. lia.
    + symmetry. apply andb_true_iff. split; apply N.leb_le; lia.
  - replace (87 + n <=? 57) with false by (symmetry; apply N.leb_gt; lia).
    rewrite andb_false_r.
    replace ((97 <=? 87 + n) && (87 + n <=? 102)) with true.
    + f_equal. lia.
    + symmetry. apply andb_true_iff. split; apply N.leb_le; lia.
Qed.

Lemma hex4_escape (c : N) : c < 65536 ->
  hex4 (hex_digit (c / 4096)) (hex_digit ((c / 256) mod 16))
       (hex_digit ((c / 16) mod 16)) (hex_digit (c mod 16)) = Some c.
Proof.
  intro H. unfold hex4.
  assert (H3 : c / 4096 < 16) by (apply N.Div0.div_lt_upper_bound; lia).
  assert (H2 : (c / 256) mod 16 < 16) by (apply N.mod_lt; lia).
  assert (H1 : (c / 16) mod 16 < 16) by (apply N.mod_lt; lia).
  assert (H0 : c mod 16 < 16) by (apply N.mod_lt; lia).
  rewrite !hex_value_digit by assumption. f_equal.
  pose proof (N.div_mod c 16). pose proof (N.div_mod (c / 16) 16).
  pose proof (N.div_mod (c / 256) 16).
  assert (c / 16 / 16 = c / 256) by (rewrite N.Div0.div_div; reflexivity).
  assert (c / 256 / 16 = c / 4096) by (rewrite N.Div0.div_div; reflexivity).
  assert ((c / 4096) mod 16 = c / 4096) by (apply N.mod_small; assumption).
  lia.
Qed.

Local Arguments hex4 : simpl never.
Local Arguments hex_digit : simpl never.
Local Arguments N.div : simpl never.
Local Arguments N.modulo : simpl never.

Lemma parse_string_unicode_escape (c : N) (t : jsstring) : c < 65536 ->
  parse_string (unicode_escape c ++ t) = cons_result c (parse_string t).
Proof.
  intro H. unfold unicode_escape. cbn [app parse_string].
  change (92 =? 34) with false. change (92 =? 92) with true.
  change (117 =? 34) with false. change (117 =? 92) with false.
  change (117 =? 47) with false. change (117 =? 98) with false.
  change (117 =? 102) with false. change (117 =? 110) with false.
  change (117 =? 114) with false. change (117 =? 116) with false.
  change (117 =? 117) with true. cbn [orb].
  now rewrite hex4_escape.
Qed.

Lemma parse_string_plain (c : N) (t : jsstring) :
  (c =? 34) = false -> (c =? 92) = false -> (c <? 32) = false ->
  parse_string (c :: t) = cons_result c (parse_string t).
Proof. intros H1 H2 H3. cbn [parse_string]. now rewrite H1, H2, H3. Qed.

Lemma parse_string_short_escape (e v : N) (t : jsstring) :
  In (e, v) [(98, 8); (116, 9); (110, 10); (102, 12); (114, 13); (34, 34); (92, 92)] ->
  parse_string (92 :: e :: t) = cons_result v (parse_string t).
Proof.
  intro H. repeat (destruct H as [H | H]; [injection H as <- <-; reflexivity|]).
  destruct H.
Qed.

Lemma parse_string_quote_chars (n : nat) : forall (x r : jsstring),
  (List.length x <= n)%nat -> parse_string (quote_chars x ++ 34 :: r) = Some (x, r).
Proof.
  induction n as [|n IH]; intros [|c x] r Hn; try reflexivity; simpl in Hn; [lia|].
  assert (IHx : parse_string (quote_chars x ++ 34 :: r) = Some (x, r)) by (apply IH; lia).
  cbn [quote_chars].
  destruct (c =? 8) eqn:E8.
  { apply N.eqb_eq in E8; subst c. cbn [app].
    rewrite (parse_string_short_escape 98 8) by (simpl; tauto). now rewrite IHx. }
  destruct (c =? 9) eqn:E9.
  { apply N.eqb_eq in E9; subst c. cbn [app].
    rewrite (parse_string_short_escape 116 9) by (simpl; tauto). now rewrite IHx. }
  destruct (c =? 10) eqn:E10.
  { apply N.eqb_eq in E10; subst c. cbn [app].
    rewrite (parse_string_short_escape 110 10) by (simpl; tauto). now rewrite IHx. }
  destruct (c =? 12) eqn:E12.
  { apply N.eqb_eq in E12; subst c. cbn [app].
    rewrite (parse_string_short_escape 102 12) by (simpl; tauto). now rewrite IHx. }
  destruct (c =? 13) eqn:E13.
  { apply N.eqb_eq in E13; subst c. cbn [app].
    rewrite (parse_string_short_escape 114 13) by (simpl; tauto). now rewrite IHx. }
  destruct (c =? 34) eqn:E34.
  { apply N.eqb_eq in E34; subst c. cbn [app].
    rewrite (parse_string_short_escape 34 34) by (simpl; tauto). now rewrite IHx. }
  destruct (c =? 92) eqn:E92.
  { apply N.eqb_eq in E92; subst c. cbn [app].
    rewrite (parse_string_short_escape 92 92) by (simpl; tauto). now rewrite IHx. }
  destruct (c <? 32) eqn:E32.
  { apply N.ltb_lt in E32. rewrite <- app_assoc.
    rewrite parse_string_unicode_escape by lia. now rewrite IHx. }
  destruct (is_high_surrogate c) eqn:Eh.
  { unfold is_high_surrogate in Eh. apply andb_true_iff in Eh as [Eh1 Eh2].
    apply N.leb_le in Eh1, Eh2.
    destruct x as [|d x'].
    - rewrite parse_string_unicode_escape by lia. reflexivity.
    - destruct (is_low_surrogate d) eqn:El.
      + unfold is_low_surrogate in El. apply andb_true_iff in El as [El1 El2].
        apply N.leb_le in El1, El2. cbn [app].
        rewrite parse_string_plain by assumption.
        rewrite parse_string_plain; try (apply N.eqb_neq; lia); try (apply N.ltb_ge; lia).
        rewrite IH by (simpl in Hn; lia). reflexivity.
      + rewrite <- app_assoc. rewrite parse_string_unicode_escape by lia.
        now rewrite IHx. }
  destruct (is_low_surrogate c) eqn:El.
  { unfold is_low_surrogate in El. apply andb_true_iff in El as [El1 El2].
    apply N.leb_le in El1, El2. rewrite <- app_assoc.
    rewrite parse_string_unicode_escape by lia. now rewrite IHx. }
  cbn [app]. rewrite parse_string_plain by assumption. now rewrite IHx.
Qed.

Lemma JSON_parse_resolve_message (x : jsstring) :
  JSON_parse (resolve_message x)
  = Some (JObject [(u16 "action", JString (u16 "resolve")); (u16 "event_id", JString x)]).
Proof.
  unfold JSON_parse, resolve_message, QuoteJSONString.
  set (fuel := (2 * List.length _ + 2)%nat).
  assert (Hf : exists k, fuel = S (S (S (S k)))).
  { subst fuel. rewrite length_app. simpl. eexists. repeat f_equal. }
  clearbody fuel. destruct Hf as [k ->].
  replace ((34 :: quote_chars x ++ [34]) ++ u16 "}") with (34 :: quote_chars x ++ 34 :: u16 "}")
    by (cbn [app]; now rewrite <- app_assoc).
  cbn -[quote_chars].
  rewrite parse_string_quote_chars with (n := List.length x) by lia.
  reflexivity.
Qed.

(** ** The header and the two slices of a well-made frame *)

Lemma Byte_to_N_bound (b : Byte.byte) : Byte.to_N b < 256.
Proof. destruct b; reflexivity. Qed.

Lemma lor_shiftl_add (hi lo n : N) : lo < 2 ^ n -> N.lor (N.shiftl hi n) lo = hi * 2 ^ n + lo.
Proof.
  intro H.
  assert (Hz : N.land (N.shiftl hi n) lo = 0).
  { apply N.bits_inj. intro i. rewrite N.land_spec, N.bits_0.
    destruct (N.ltb_spec i n) as [Hi | Hi].
    - now rewrite N.shiftl_spec_low.
    - replace (N.testbit lo i) with false; [apply andb_false_r|].
      symmetry. destruct (N.eq_dec lo 0) as [-> | Hlo]; [apply N.bits_0|].
      apply N.bits_above_log2. apply N.log2_lt_pow2; [lia|].
      eapply N.lt_le_trans; [exact H|]. apply N.pow_le_mono_r; [discriminate | assumption]. }
  rewrite <- N.lxor_lor, <- N.add_nocarry_lxor by assumption. now rewrite N.shiftl_mul_pow2.
Qed.

Lemma getUint32_value (b0 b1 b2 b3 : Byte.byte) (rest : ArrayBuffer) :
  getUint32 (b0 :: b1 :: b2 :: b3 :: rest)
  = inr (Byte.to_N b0 * 16777216 + Byte.to_N b1 * 65536 + Byte.to_N b2 * 256 + Byte.to_N b3).
Proof.
  pose proof (Byte_to_N_bound b0). pose proof (Byte_to_N_bound b1).
  pose proof (Byte_to_N_bound b2). pose proof (Byte_to_N_bound b3).
  unfold getUint32. f_equal.
  rewrite (lor_shiftl_add (Byte.to_N b2) (Byte.to_N b3) 8) by (change (2 ^ 8) with 256; lia).
  rewrite (lor_shiftl_add (Byte.to_N b1) _ 16) by (change (2 ^ 8) with 256; change (2 ^ 16) with 65536; lia).
  rewrite (lor_shiftl_add (Byte.to_N b0) _ 24)
    by (change (2 ^ 8) with 256; change (2 ^ 16) with 65536; change (2 ^ 24) with 16777216; lia).
  change (2 ^ 8) with 256; change (2 ^ 16) with 65536; change (2 ^ 24) with 16777216. lia.
Qed.


Lemma firstn_length_app (A : Type) (l r : list A) : firstn (List.length l) (l ++ r) = l.
Proof. rewrite firstn_app, firstn_all, Nat.sub_diag, firstn_O. apply app_nil_r. Qed.

Lemma skipn_length_app (A : Type) (l r : list A) : skipn (List.length l) (l ++ r) = r.
Proof. rewrite skipn_app, skipn_all, Nat.sub_diag. reflexivity. Qed.

Lemma slice_whole_frame (b0 b1 b2 b3 : Byte.byte) (metadata image : ArrayBuffer) :
  slice 4 (4 + byteLength metadata) (b0 :: b1 :: b2 :: b3 :: metadata ++ image) = metadata
  /\ slice_from (4 + byteLength metadata) (b0 :: b1 :: b2 :: b3 :: metadata ++ image) = image.
Proof.
  assert (Hlen : byteLength (b0 :: b1 :: b2 :: b3 :: metadata ++ image)
                 = 4 + byteLength metadata + byteLength image).
  { unfold byteLength. cbn [List.length]. rewrite length_app. lia. }
  split.
  - unfold slice. rewrite Hlen. rewrite (N.min_l 4), (N.min_l (4 + byteLength metadata)) by lia.
    change (N.to_nat 4) with 4%nat. cbn [skipn].
    replace (N.to_nat (4 + byteLength metadata - 4)) with (List.length metadata)
      by (unfold byteLength; lia).
    apply firstn_length_app.
  - rewrite slice_from_skipn, Hlen. rewrite N.min_l by lia.
    replace (N.to_nat (4 + byteLength metadata)) with (4 + List.length metadata)%nat
      by (unfold byteLength; lia).
    cbn [Nat.add skipn]. apply skipn_length_app.
Qed.

(** ** How the handler ends *)

Lemma Get_error (v : JS) (k : jsstring) (e : Error) : Get v k = inl e -> e = TypeError.
Proof. destruct v; cbn [Get]; intro H; try discriminate; now injection H as <-. Qed.

Lemma Get_optional_error (v : JS) (k : jsstring) (e : Error) :
  Get_optional v k = inl e -> e = TypeError.
Proof. destruct v; cbn [Get_optional Get]; intro H; discriminate. Qed.

Lemma eventId_of_error (payload : JS) (e : Error) : eventId_of payload = inl e -> e = TypeError.
Proof.
  unfold eventId_of.
  destruct (Get payload (u16 "frame_id")) as [e1|fv] eqn:E1.
  { intro H. injection H as <-. now apply Get_error in E1. }
  destruct (ToString fv); [|intro H; now injection H as <-].
  destruct (Get payload (u16 "unix_time")) as [e2|tv] eqn:E2.
  { intro H. injection H as <-. now apply Get_error in E2. }
  destruct (ToString tv); [discriminate | intro H; now injection H as <-].
Qed.

Lemma detection_callback_stops (payload det : JS) :
  (stops_loop payload det = true -> detection_callback payload det = inl TypeError)
  /\ (stops_loop payload det = false -> exists u, detection_callback payload det = inr u).
Proof.
  unfold stops_loop, detection_callback.
  destruct (Get det (u16 "class_name")) as [e|cn] eqn:Eg.
  { apply Get_error in Eg as ->. split; [reflexivity | discriminate]. }
  destruct (includes cn) as [c|]; [|split; [discriminate | now eexists]].
  destruct (eventId_of payload) as [e|eid] eqn:Ee.
  - apply eventId_of_error in Ee as ->. split; [reflexivity | discriminate].
  - split; [discriminate | now eexists].
Qed.

Lemma forEach_detections_ends (payload : JS) (dets : list JS) :
  snd (forEach_detections payload dets)
  = if existsb (stops_loop payload) dets then Some TypeError else None.
Proof.
  induction dets as [|d dets IH]; [reflexivity|]. cbn [forEach_detections existsb].
  destruct (detection_callback_stops payload d) as [Hs Hg].
  destruct (stops_loop payload d).
  - now rewrite (Hs eq_refl).
  - destruct (Hg eq_refl) as [[u|] ->]; cbn [orb]; [|exact IH].
    destruct (forEach_detections payload dets). exact IH.
Qed.

Lemma forEach_detections_before (payload : JS) (pre post : list JS) (det : JS) :
  existsb (stops_loop payload) pre = false -> stops_loop payload det = true ->
  forEach_detections payload (pre ++ det :: post)
  = (fst (forEach_detections payload pre), Some TypeError).
Proof.
  intros Hpre Hdet. induction pre as [|d pre IH]; cbn [app forEach_detections].
  - now rewrite (proj1 (detection_callback_stops payload det) Hdet).
  - cbn [existsb] in Hpre. apply orb_false_iff in Hpre as [Hd Hpre].
    destruct (proj2 (detection_callback_stops payload d) Hd) as [[u|] ->].
    + rewrite (IH Hpre). destruct (forEach_detections payload pre). reflexivity.
    + exact (IH Hpre).
Qed.

Lemma alert_logic_error (payload : JS) (e : Error) :
  snd (alert_logic payload) = Some e -> e = TypeError.
Proof.
  unfold alert_logic.
  destruct (Get payload (u16 "alerts")) as [e1|a] eqn:E1.
  { intro H. injection H as <-. now apply Get_error in E1. }
  destruct (Get_optional a (u16 "emergency_detected")) as [e2|flag] eqn:E2.
  { intro H. injection H as <-. now apply Get_optional_error in E2. }
  destruct (ToBoolean flag); [|discriminate].
  destruct (Get payload (u16 "detections")) as [e3|[ | | | | |dets| ]];
    try (intro H; now injection H as <-).
  rewrite forEach_detections_ends. destruct (existsb _ dets); [|discriminate].
  intro H. now injection H as <-.
Qed.

(** ** What an event can do to the alert list *)

Lemma run_action_adds_built_front (a : Action) (s : State) :
  adds_built a ->
  alerts (run_action a s) = alerts s
  \/ exists b, alerts (run_action a s) = b :: alerts s
               /\ In (class_name b) emergency_classes
               /\ ~ In (class_name b) (map class_name (alerts s)).
Proof.
  intros (rest & cn & p & -> & Hcn). cbn [run_action].
  destruct (mounted s); [|now left].
  destruct (apply_updater _ (alerts s)) as [e|l] eqn:E; [left; apply unmount_alerts|].
  apply apply_AddAlert_result in E as [_ [[-> _] | (b & -> & _ & Hb & Hfresh)]]; [now left|].
  right. exists b. cbn [alerts set_alerts]. rewrite Hb. repeat split; try assumption.
  intro Hin. apply some_class_name_In in Hin. congruence.
Qed.

Lemma run_adds_built_front (acts : list Action) : forall (s : State),
  Forall adds_built acts ->
  exists new,
    alerts (run acts s) = new ++ alerts s
    /\ NoDup (map class_name new)
    /\ (forall b, In b new -> In (class_name b) emergency_classes
                               /\ ~ In (class_name b) (map class_name (alerts s))).
Proof.
  induction acts as [|a acts IH]; intros s Ha.
  - exists []. split; [reflexivity|]. split; [apply NoDup_nil|]. intros b [].
  - inversion Ha as [|? ? Hb Hrest]; subst. rewrite run_cons.
    destruct (IH (run_action a s) Hrest) as (new & Hnew & Hnd & Hin).
    destruct (run_action_adds_built_front a s Hb) as [E | (b & E & Hcls & Hfresh)].
    + exists new. rewrite E in *. auto.
    + exists (new ++ [b]). rewrite Hnew, E, <- app_assoc. split; [reflexivity|]. split.
      * rewrite map_app. cbn [map]. apply NoDup_app; [assumption | repeat constructor; intros [] |].
        intros c Hc [<- | []]. apply in_map_iff in Hc as (x & Hx & Hxin).
        apply Hin in Hxin as [_ Hno]. apply Hno. rewrite E. cbn [map]. left. congruence.
      * intros x Hx. apply in_app_or in Hx as [Hx | [<- | []]].
        -- destruct (Hin x Hx) as [H1 H2]. split; [assumption|].
           intro Hc. apply H2. rewrite E. cbn [map]. now right.
        -- now split.
Qed.

Lemma NoDup_emergency_length (l : list Alert) :
  NoDup (map class_name l) -> (forall b, In b l -> In (class_name b) emergency_classes) ->
  (List.length l <= 5)%nat.
Proof.
  intros Hnd Hin. rewrite <- (length_map class_name).
  change 5%nat with (List.length emergency_classes).
  apply NoDup_incl_length; [assumption|].
  intros c Hc. apply in_map_iff in Hc as (b & <- & Hb). now apply Hin.
Qed.

Lemma run_one_alerts (a : Action) (s : State) :
  plain a -> (forall u, a <> SetAlerts u) -> alerts (run_action a s) = alerts s.
Proof.
  intros Hp Hn. destruct a as [st|u|blob|blob|bmp|bmp|text|]; try reflexivity;
    try destruct Hp. now contradiction (Hn u).
Qed.

(** ** Leaving the page *)

Lemma run_action_closing (a : Action) (s : State) :
  closing_or_closed s -> closing_or_closed (run_action a s).
Proof.
  unfold closing_or_closed. intro H.
  destruct a as [st|u|blob|blob|bmp|bmp|text|]; cbn [run_action]; try assumption.
  - destruct (mounted s); assumption.
  - destruct (mounted s); [|assumption].
    destruct (apply_updater u (alerts s)); [|assumption].
    unfold unmount, cleanup, ws_close. destruct H as [E | E]; rewrite E; cbn; auto.
  - unfold ws_close. destruct H as [E | E]; rewrite E; auto.
Qed.

Lemma run_closing (acts : list Action) : forall (s : State),
  closing_or_closed s -> closing_or_closed (run acts s).
Proof.
  induction acts as [|a acts IH]; intros s H; [assumption|].
  rewrite run_cons. apply IH. now apply run_action_closing.
Qed.

Lemma step_closing (e : Event) (s : State) :
  closing_or_closed s -> deliverable s e = true ->
  closing_or_closed (step e s) /\ (forall d, e <> WsMessage d).
Proof.
  intros H Hd.
  destruct e; cbn [deliverable] in Hd;
    try (destruct H as [E | E]; rewrite E in Hd; discriminate);
    (split; [|discriminate]); unfold step.
  - right. unfold onclose, run. cbn. destruct (mounted s); reflexivity.
  - destruct (nth_error (arrayBuffers s) i); [|assumption]. now apply run_closing.
  - destruct (nth_error (imageBitmaps s) i); [|assumption]. now apply run_closing.
  - now apply run_closing.
  - now apply run_closing.
  - rewrite Hd. unfold closing_or_closed, unmount, cleanup, ws_close.
    destruct H as [E | E]; rewrite E; cbn; auto.
Qed.

Lemma steps_closing (es : list Event) : forall (s : State),
  closing_or_closed s -> deliverable_all es s = true -> forall d, ~ In (WsMessage d) es.
Proof.
  induction es as [|e es IH]; intros s H Hd d; [intros []|].
  cbn [deliverable_all] in Hd. apply andb_true_iff in Hd as [He Hes].
  destruct (step_closing e s H He) as [Hc Hne].
  intros [E | Hin]; [now apply (Hne d) | now apply (IH (step e s) Hc Hes d)].
Qed.

(** ** Frames are drawn in the order they were decoded *)






(** ** Resolving an alert lets its class alert again *)

Lemma NoDup_map_In_eq {A B : Type} (f : A -> B) (l : list A) (a b : A) :
  NoDup (map f l) -> In a l -> In b l -> f a = f b -> a = b.
Proof.
  induction l as [|x l IH]; intros Hnd Ha Hb E; [destruct Ha|].
  cbn [map] in Hnd. inversion Hnd as [|? ? Hx Hl]; subst.
  destruct Ha as [-> | Ha], Hb as [-> | Hb]; try reflexivity.
  - exfalso. apply Hx. rewrite E. now apply in_map.
  - exfalso. apply Hx. rewrite <- E. now apply in_map.
  - now apply IH.
Qed.

Lemma filter_drops_length {A : Type} (f : A -> bool) (l : list A) (a : A) :
  In a l -> f a = false -> (List.length (filter f l) < List.length l)%nat.
Proof.
  induction l as [|x l IH]; intros Ha Hf; [destruct Ha|].
  pose proof (filter_length_le f l) as Hle. cbn [filter].
  destruct Ha as [-> | Ha].
  - rewrite Hf. cbn [List.length]. lia.
  - specialize (IH Ha Hf). destruct (f x); cbn [List.length]; lia.
Qed.

Lemma click_removes_class (s : State) (a : Alert) :
  reachable s -> mounted s = true -> In a (alerts s) ->
  ~ In (class_name a) (map class_name (alerts (step (Click (id a)) s))).
Proof.
  intros Hr Hm Ha. rewrite step_Click_alerts, Hm. intro Hin.
  apply in_map_iff in Hin as (b & Eb & Hb). apply filter_In in Hb as [Hb Hid].
  assert (b = a) as ->.
  { apply (NoDup_map_In_eq class_name (alerts s)); try assumption.
    now apply reachable_unique. }
  now rewrite jsstring_eqb_refl in Hid.
Qed.

(** ** A timestamp that cannot become a date *)

Lemma forEach_detections_adds_of (payload : JS) (dets : list JS) :
  Forall (adds_of payload) (fst (forEach_detections payload dets)).
Proof.
  induction dets as [|det rest IH]; [constructor|]. cbn [forEach_detections].
  destruct (detection_callback payload det) as [e|[u|]] eqn:E; [constructor | | assumption].
  destruct (forEach_detections payload rest) as [acts err]. cbn [fst] in *.
  constructor; [|assumption].
  unfold detection_callback in E.
  destruct (Get det (u16 "class_name")) as [e|cn]; [discriminate|].
  destruct (includes cn) as [c|]; [|discriminate].
  destruct (eventId_of payload) as [e|eid]; [discriminate|].
  injection E as <-. now exists eid, c.
Qed.

Lemma alert_logic_adds_of (payload : JS) : Forall (adds_of payload) (fst (alert_logic payload)).
Proof.
  unfold alert_logic.
  destruct (Get payload (u16 "alerts")) as [e|a]; [constructor|].
  destruct (Get_optional a (u16 "emergency_detected")) as [e|flag]; [constructor|].
  destruct (ToBoolean flag); [|constructor].
  destruct (Get payload (u16 "detections")) as [e|[| | | | |dets|]]; try constructor.
  apply forEach_detections_adds_of.
Qed.

Lemma run_unmounted_adds (acts : list Action) : forall (s : State),
  mounted s = false -> Forall adds acts -> run acts s = s.
Proof.
  intros s Hm Ha. apply run_fixed. intros a Hin.
  apply (proj1 (Forall_forall _ _) Ha) in Hin as (eid & cn & p & ->).
  cbn [run_action]. now rewrite Hm.
Qed.

Lemma adds_of_adds (payload : JS) (acts : list Action) :
  Forall (adds_of payload) acts -> Forall adds acts.
Proof.
  apply Forall_impl. intros a (eid & cn & ->). now exists eid, cn, payload.
Qed.

Lemma run_bad_timestamp (payload : JS) (e : Error) (acts : list Action) (s : State) :
  new_Date payload = inl e -> mounted s = true -> Forall (adds_of payload) acts ->
  run acts s
  = if existsb (fun cn => negb (some_class_name cn (alerts s))) (added_classes acts)
    then unmount s else s.
Proof.
  intros Hd Hm Ha. induction Ha as [|a acts (eid & cn & ->) Hrest IH]; [reflexivity|].
  rewrite run_cons. cbn [added_classes flat_map app existsb run_action apply_updater].
  rewrite Hm. destruct (some_class_name cn (alerts s)) eqn:Ec; cbn [negb orb].
  - rewrite set_alerts_same. exact IH.
  - unfold new_Date in Hd.
    assert (E : match Get payload (u16 "timestamp") with
                | inl e0 => inl e0
                | inr timestamp =>
                    match ToPrimitive timestamp with
                    | inl e0 => inl e0
                    | inr t =>
                        inr ({| id := eid; class_name := cn; severity := u16 "HIGH";
                                location := u16 "ROAD 1"; time := toLocaleTimeString t;
                                desc := cn ++ u16 " emergency triggered." |} :: alerts s)
                    end
                end = (inl e : Error + list Alert)).
    { destruct (Get payload (u16 "timestamp")) as [e0|ts]; [congruence|].
      destruct (ToPrimitive ts); [congruence | discriminate]. }
    rewrite E. apply run_unmounted_adds; [apply unmount_mounted | now apply (adds_of_adds payload)].
Qed.

Lemma run_good_timestamp (payload t : JS) (acts : list Action) : forall (s : State),
  new_Date payload = inr t -> Forall (adds_of payload) acts ->
  mounted (run acts s) = mounted s.
Proof.
  intros s Hd Ha. revert s. induction Ha as [|a acts (eid & cn & ->) Hrest IH]; intro s;
    [reflexivity|].
  rewrite run_cons, IH. cbn [run_action apply_updater].
  destruct (mounted s) eqn:Hm; [|assumption].
  destruct (some_class_name cn (alerts s)); [assumption|].
  unfold new_Date in Hd. destruct (Get payload (u16 "timestamp")) as [e0|ts]; [discriminate|].
  rewrite Hd. assumption.
Qed.

(** ** Texts put together with a separator *)

Lemma u16_inj (a : string) : forall b, u16 a = u16 b -> a = b.
Proof.
  induction a as [|x a IH]; intros [|y b] H; try discriminate; [reflexivity|].
  cbn [u16] in H. injection H as Hx Hr. f_equal; [|now apply IH].
  rewrite <- (ascii_N_embedding x), <- (ascii_N_embedding y). now rewrite Hx.
Qed.

Lemma string_of_uint_digits (d : Decimal.uint) :
  Forall is_decimal_digit (u16 (NilEmpty.string_of_uint d)).
Proof.
  induction d; cbn [NilEmpty.string_of_uint u16]; constructor; try assumption;
    unfold is_decimal_digit; cbn; lia.
Qed.

Lemma N_toString_digits (n : N) :
  Forall is_decimal_digit (u16 (NilZero.string_of_uint (N.to_uint n)))
  /\ u16 (NilZero.string_of_uint (N.to_uint n)) <> [].
Proof.
  assert (Hn : N.to_uint n <> Decimal.Nil).
  { destruct n; [discriminate | apply DecimalPos.Unsigned.to_uint_nonnil]. }
  destruct (N.to_uint n) eqn:E; try contradiction;
    (split; [apply (string_of_uint_digits (_ u)) || apply string_of_uint_digits | discriminate]).
Qed.

Lemma N_toString_inj (n m : N) :
  u16 (NilZero.string_of_uint (N.to_uint n)) = u16 (NilZero.string_of_uint (N.to_uint m)) ->
  n = m.
Proof.
  intro H. apply u16_inj in H. apply DecimalN.Unsigned.to_uint_inj.
  assert (Hn : forall k, N.to_uint k <> Decimal.Nil).
  { intros [|p]; [discriminate | apply DecimalPos.Unsigned.to_uint_nonnil]. }
  pose proof (NilZero.usu _ (Hn n)) as E1. pose proof (NilZero.usu _ (Hn m)) as E2.
  rewrite H in E1. congruence.
Qed.

Lemma Z_toString_cases (z : Z) :
  (exists n, Z_toString z = u16 (NilZero.string_of_uint (N.to_uint n)) /\ z = Z.of_N n)
  \/ (exists p, Z_toString z = 45 :: u16 (NilZero.string_of_uint (N.to_uint (Npos p)))
                /\ z = Zneg p).
Proof.
  destruct z as [|p|p].
  - left. now exists 0.
  - left. now exists (Npos p).
  - right. now exists p.
Qed.

Lemma Z_toString_free (z : Z) : free_of 47 (Z_toString z) /\ free_of 95 (Z_toString z).
Proof.
  assert (Hd : forall n c, (c = 47 \/ c = 95) ->
                           ~ In c (u16 (NilZero.string_of_uint (N.to_uint n)))).
  { intros n c Hc Hin. destruct (N_toString_digits n) as [Hf _].
    apply (proj1 (Forall_forall _ _) Hf) in Hin. unfold is_decimal_digit in Hin. lia. }
  unfold free_of.
  destruct (Z_toString_cases z) as [(n & -> & _) | (p & -> & _)].
  - split; apply Hd; auto.
  - split; (intros [E | Hin]; [discriminate | revert Hin; apply Hd; auto]).
Qed.

Lemma Z_toString_inj (z z' : Z) : Z_toString z = Z_toString z' -> z = z'.
Proof.
  intro H.
  assert (Hfirst : forall n p, u16 (NilZero.string_of_uint (N.to_uint n))
                               <> 45 :: u16 (NilZero.string_of_uint (N.to_uint (Npos p)))).
  { intros n p E. destruct (N_toString_digits n) as [Hf _]. rewrite E in Hf.
    inversion Hf as [|? ? Hc _]. unfold is_decimal_digit in Hc. lia. }
  destruct (Z_toString_cases z) as [(n & En & ->) | (p & En & ->)],
           (Z_toString_cases z') as [(m & Em & ->) | (q & Em & ->)];
    rewrite En, Em in H.
  - now rewrite (N_toString_inj n m H).
  - now contradiction (Hfirst n q).
  - symmetry in H. now contradiction (Hfirst m p).
  - injection H as H. apply (N_toString_inj (Npos p) (Npos q)) in H. congruence.
Qed.

(** Two texts cut at the first separator fall into the same pieces. *)
Lemma split_at_separator (c : N) (a : jsstring) : forall (a' b b' : jsstring),
  free_of c a -> free_of c a' -> a ++ c :: b = a' ++ c :: b' -> a = a' /\ b = b'.
Proof.
  unfold free_of. induction a as [|x a IH]; intros [|y a'] b b' Ha Ha' H; cbn [app] in H.
  - injection H as <-. now split.
  - injection H as <- _. exfalso. apply Ha'. now left.
  - injection H as -> _. exfalso. apply Ha. now left.
  - injection H as -> H. destruct (IH a' b b') as [-> ->]; try assumption.
    + intro Hin. apply Ha. now right.
    + intro Hin. apply Ha'. now right.
    + now split.
Qed.

(** ** Metadata in ASCII *)

Lemma utf8_decode_ascii (bs : list N) :
  Forall (fun b => b < 128) bs -> utf8_decode bs 0 0 0x80 0xBF = bs.
Proof.
  induction 1 as [|b bs Hb _ IH]; [reflexivity|].
  cbn [utf8_decode]. change (0 =? 0) with true. cbv iota.
  unfold utf8_lead. replace (b <=? 0x7F) with true by (symmetry; apply N.leb_le; lia).
  now rewrite IH.
Qed.

Lemma utf16_units_ascii (bs : list N) :
  Forall (fun b => b < 128) bs -> flat_map utf16_units bs = bs.
Proof.
  induction 1 as [|b bs Hb _ IH]; [reflexivity|].
  cbn [flat_map]. rewrite IH. unfold utf16_units.
  now replace (b <? 0x10000) with true by (symmetry; apply N.ltb_lt; lia).
Qed.

(** ** No JSON text denotes [undefined] *)

Lemma parse_value_defined (f : nat) (s r : jsstring) (v : JS) :
  parse_value f s = Some (v, r) -> v <> JUndefined.
Proof.
  destruct f as [|f]; [discriminate|]. cbn [parse_value].
  destruct (skip_ws s) as [|c t]; [discriminate|].
  destruct (c =? 34).
  { destruct (parse_string t) as [[str rest]|]; [|discriminate].
    intro H. injection H as <- _. discriminate. }
  destruct (c =? 91).
  { destruct (skip_ws t) as [|c1 t1]; [discriminate|].
    destruct (c1 =? 93). { intro H. injection H as <- _. discriminate. }
    destruct (parse_elements f t) as [[vs rest]|]; [|discriminate].
    intro H. injection H as <- _. discriminate. }
  destruct (c =? 123).
  { destruct (skip_ws t) as [|c1 t1]; [discriminate|].
    destruct (c1 =? 125). { intro H. injection H as <- _. discriminate. }
    destruct (parse_members f t) as [[ms rest]|]; [|discriminate].
    intro H. injection H as <- _. discriminate. }
  destruct (starts_with (u16 "null") (c :: t)) as [rest|].
  { intro H. injection H as <- _. discriminate. }
  destruct (starts_with (u16 "true") (c :: t)) as [rest|].
  { intro H. injection H as <- _. discriminate. }
  destruct (starts_with (u16 "false") (c :: t)) as [rest|].
  { intro H. injection H as <- _. discriminate. }
  destruct (parse_number (c :: t)) as [[lit rest]|]; [|discriminate].
  intro H. injection H as <- _. discriminate.
Qed.

Lemma JSON_parse_defined (text : jsstring) (v : JS) :
  JSON_parse text = Some v -> v <> JUndefined.
Proof.
  unfold JSON_parse.
  destruct (parse_value _ text) as [[v0 rest]|] eqn:E; [|discriminate].
  destruct (skip_ws rest); [|discriminate]. intro H. injection H as <-.
  exact (parse_value_defined _ _ _ _ E).
Qed.

Lemma Get_defined (v : JS) (k : jsstring) :
  v <> JNull -> v <> JUndefined -> exists x, Get v k = inr x.
Proof. intros H1 H2. destruct v; try contradiction; cbn [Get]; eauto. Qed.

Lemma Get_optional_total (v : JS) (k : jsstring) : exists x, Get_optional v k = inr x.
Proof. destruct v; cbn [Get_optional Get]; eauto. Qed.

(** ** What the calls of [setAlerts] of one record do to the component *)

Lemma unmount_readyState (s : State) :
  readyState (unmount s) = match readyState s with OPEN => CLOSING | rs => rs end.
Proof.
  unfold unmount, cleanup, ws_close. destruct (readyState s) eqn:E; cbn; rewrite ?E; reflexivity.
Qed.

Lemma run_adds_of_outcome (payload : JS) (acts : list Action) (s : State) :
  Forall (adds_of payload) acts ->
  (mounted (run acts s) = mounted s /\ readyState (run acts s) = readyState s)
  \/ (mounted s = true /\ (exists e, new_Date payload = inl e) /\ run acts s = unmount s).
Proof.
  intro Ha. pose proof (adds_of_adds payload acts Ha) as Hadds.
  destruct (mounted s) eqn:Hm.
  2:{ left. rewrite (run_unmounted_adds acts s Hm Hadds). now split. }
  destruct (new_Date payload) as [e|t] eqn:Hd.
  - rewrite (run_bad_timestamp payload e acts s Hd Hm Ha).
    destruct (existsb _ _); [right | left; now split].
    split; [reflexivity|]. split; [now exists e | reflexivity].
  - left. pose proof (run_good_timestamp payload t acts s Hd Ha) as E. rewrite Hm in E.
    split; [assumption|].
    assert (Hp : Forall plain acts).
    { apply Forall_forall. intros a Hin.
      apply (proj1 (Forall_forall _ _) Hadds) in Hin as (? & ? & ? & ->). exact I. }
    now destruct (run_plain acts s Hp E) as (_ & -> & _).
Qed.

Lemma step_ArrayBufferReady_socket (i : nat) (s : State) :
  (mounted (step (ArrayBufferReady i) s) = mounted s
   /\ readyState (step (ArrayBufferReady i) s) = readyState s)
  \/ (mounted s = true
      /\ mounted (step (ArrayBufferReady i) s) = false
      /\ alerts (step (ArrayBufferReady i) s) = alerts s
      /\ readyState (step (ArrayBufferReady i) s)
         = match readyState s with OPEN => CLOSING | rs => rs end
      /\ exists arrayBuffer jsonLen payload e,
           nth_error (arrayBuffers s) i = Some arrayBuffer
           /\ getUint32 arrayBuffer = inr jsonLen
           /\ JSON_parse (TextDecoder_decode (slice 4 (4 + jsonLen) arrayBuffer)) = Some payload
           /\ new_Date payload = inl e).
Proof.
  unfold step. destruct (nth_error (arrayBuffers s) i) as [b|] eqn:Hi; [|left; now split].
  set (s0 := set_arrayBuffers (remove_nth i (arrayBuffers s)) s).
  unfold onmessage_arrayBuffer.
  destruct (getUint32 b) as [e|n] eqn:Eh; [left; now split|].
  destruct (JSON_parse _) as [payload|] eqn:Ep; [|left; now split].
  pose proof (alert_logic_adds_of payload) as Ha.
  assert (Hgoal : forall rest,
            (forall s1, mounted (run rest s1) = mounted s1 /\ readyState (run rest s1) = readyState s1
                        /\ alerts (run rest s1) = alerts s1) ->
            let s' := run (fst (alert_logic payload) ++ rest) s0 in
            (mounted s' = mounted s /\ readyState s' = readyState s)
            \/ (mounted s = true /\ mounted s' = false /\ alerts s' = alerts s
                /\ readyState s' = match readyState s with OPEN => CLOSING | rs => rs end
                /\ exists arrayBuffer jsonLen payload0 e,
                     Some b = Some arrayBuffer
                     /\ getUint32 arrayBuffer = inr jsonLen
                     /\ JSON_parse (TextDecoder_decode (slice 4 (4 + jsonLen) arrayBuffer))
                        = Some payload0
                     /\ new_Date payload0 = inl e)).
  { intros rest Hrest s'. unfold s'. rewrite run_app.
    destruct (Hrest (run (fst (alert_logic payload)) s0)) as (-> & -> & ->).
    destruct (run_adds_of_outcome payload _ s0 Ha) as [[E1 E2] | (Hm & (e & He) & ->)].
    - left. rewrite E1, E2. now split.
    - right. rewrite unmount_mounted, unmount_alerts, unmount_readyState.
      repeat split; try assumption; try reflexivity.
      exists b, n, payload, e. repeat split; assumption. }
  destruct (alert_logic payload) as [acts [e|]] eqn:El; cbn [fst] in *.
  - specialize (Hgoal []). rewrite app_nil_r in Hgoal. apply Hgoal.
    intro s1. repeat split.
  - apply Hgoal. intro s1. repeat split.
Qed.

(** ** A frame that adds no alert *)

Lemma remove_nth_last {A : Type} (l : list A) (x : A) :
  remove_nth (List.length l) (l ++ [x]) = l.
Proof. induction l as [|y l IH]; [reflexivity|]. cbn. now rewrite IH. Qed.

Lemma nth_error_last {A : Type} (l : list A) (x : A) :
  nth_error (l ++ [x]) (List.length l) = Some x.
Proof. induction l as [|y l IH]; [reflexivity|]. exact IH. Qed.

Lemma animation_callbacks_canvas (l : list ImageBitmap) : forall (s : State),
  canvas (run (flat_map (animation_callback false) l) s) = canvas s
  /\ alerts (run (flat_map (animation_callback false) l) s) = alerts s.
Proof. induction l as [|b l IH]; intro s; [now split | exact (IH s)]. Qed.

Lemma run_draw_alerts (l : list ImageBitmap) : forall (s : State),
  alerts (run (flat_map (animation_callback true) l) s) = alerts s.
Proof.
  induction l as [|b l IH]; intro s; [reflexivity|].
  cbn [flat_map animation_callback app]. rewrite run_cons. now rewrite IH.
Qed.

(** ** The claims *)

(** C1 (as the code has it). A buffer of fewer than four bytes ends the
    handler with RangeError. Otherwise the buffer is its header, the
    metadata slice and the image slice, one after the other; when the
    declared length fits (4 + L <= total) the image has
    total - 4 - L bytes; when it does not fit nothing is refused: the
    metadata are all the bytes after the header and the image is empty.
    The handler then ends with SyntaxError when the metadata are no JSON
    and otherwise goes on to the alert logic. [systemStatus] is never
    touched. The component and its socket are left as they were too,
    but for one case: a record whose timestamp cannot become a date
    makes the updater raise while React renders, and then the component
    is unmounted, the alert list stays as it was, and the clean-up closes
    the socket if it was open. *)
Theorem C1_demux (arrayBuffer : ArrayBuffer) (jsonLen : N) :
  let total := byteLength arrayBuffer in
  let metadata := slice 4 (4 + jsonLen) arrayBuffer in
  let imageBlob := slice_from (4 + jsonLen) arrayBuffer in
  (total < 4 -> onmessage_arrayBuffer arrayBuffer = ([], Some RangeError))
  /\ (getUint32 arrayBuffer = inr jsonLen ->
      4 <= total
      /\ arrayBuffer = firstn 4 arrayBuffer ++ metadata ++ imageBlob
      /\ (4 + jsonLen <= total ->
          byteLength metadata = jsonLen /\ byteLength imageBlob = total - 4 - jsonLen)
      /\ (total < 4 + jsonLen -> metadata = skipn 4 arrayBuffer /\ imageBlob = [])
      /\ onmessage_arrayBuffer arrayBuffer
         = match JSON_parse (TextDecoder_decode metadata) with
           | None => ([], Some SyntaxError)
           | Some payload =>
               match alert_logic payload with
               | (acts, Some e) => (acts, Some e)
               | (acts, None) => (acts ++ [AwaitImageBitmap imageBlob], None)
               end
           end)
  /\ (forall i s,
        let s' := step (ArrayBufferReady i) s in
        systemStatus s' = systemStatus s
        /\ ((mounted s' = mounted s /\ readyState s' = readyState s)
            \/ (mounted s = true
                /\ mounted s' = false
                /\ alerts s' = alerts s
                /\ readyState s' = match readyState s with OPEN => CLOSING | rs => rs end
                /\ exists buffer L payload e,
                     nth_error (arrayBuffers s) i = Some buffer
                     /\ getUint32 buffer = inr L
                     /\ JSON_parse (TextDecoder_decode (slice 4 (4 + L) buffer)) = Some payload
                     /\ new_Date payload = inl e))).
Proof.
  intros total metadata imageBlob. split; [|split].
  - intro H. unfold onmessage_arrayBuffer. now rewrite getUint32_short.
  - intro H. pose proof (getUint32_length _ _ H) as H4. fold total in H4.
    split; [assumption|]. split; [now apply slice_parts|]. split; [|split].
    + intro Hfit. subst metadata imageBlob. unfold slice_from.
      rewrite !byteLength_slice. fold total. lia.
    + intro Hshort. now apply slice_clamped.
    + unfold onmessage_arrayBuffer. rewrite H. reflexivity.
  - intros i s s'. split; [apply step_ArrayBufferReady_systemStatus|].
    apply step_ArrayBufferReady_socket.
Qed.

(** C2 (as the code has it). A frame that declares L = 0 ends the handler
    with SyntaxError before anything else is done: no alert, no image
    decode, no paint; only the pending buffer is gone. So does, with
    TypeError, a frame whose metadata are the JSON text null. A frame
    whose metadata are any other JSON text and whose [emergency_detected]
    is falsy or absent adds no alert, and its image is given to the
    decoder; on the next animation frame it is drawn, after the bitmaps
    that were waiting, if it is a valid image and the component is
    mounted, and not otherwise. *)
Theorem C2_empty_metadata (arrayBuffer : ArrayBuffer) :
  (getUint32 arrayBuffer = inr 0 ->
     onmessage_arrayBuffer arrayBuffer = ([], Some SyntaxError)
     /\ forall s i, nth_error (arrayBuffers s) i = Some arrayBuffer ->
          step (ArrayBufferReady i) s = set_arrayBuffers (remove_nth i (arrayBuffers s)) s)
  /\ (forall jsonLen payload,
       getUint32 arrayBuffer = inr jsonLen ->
       JSON_parse (TextDecoder_decode (slice 4 (4 + jsonLen) arrayBuffer)) = Some payload ->
       let imageBlob := slice_from (4 + jsonLen) arrayBuffer in
       (payload = JNull ->
          onmessage_arrayBuffer arrayBuffer = ([], Some TypeError)
          /\ forall s i, nth_error (arrayBuffers s) i = Some arrayBuffer ->
               step (ArrayBufferReady i) s
               = set_arrayBuffers (remove_nth i (arrayBuffers s)) s)
       /\ (payload <> JNull ->
           exists a flag,
             Get payload (u16 "alerts") = inr a
             /\ Get_optional a (u16 "emergency_detected") = inr flag
             /\ (ToBoolean flag = false ->
                 onmessage_arrayBuffer arrayBuffer = ([AwaitImageBitmap imageBlob], None)
                 /\ forall s i, nth_error (arrayBuffers s) i = Some arrayBuffer ->
                      let es := [ArrayBufferReady i;
                                 ImageBitmapSettled (List.length (imageBitmaps s));
                                 AnimationFrame] in
                      alerts (steps es s) = alerts s
                      /\ canvas (steps es s)
                         = if mounted s then
                             match createImageBitmap imageBlob with
                             | Some imageBitmap =>
                                 imageBitmap :: rev (animationFrames s) ++ canvas s
                             | None => rev (animationFrames s) ++ canvas s
                             end
                           else canvas s))).
Proof.
  split.
  - intro H0.
    assert (E : onmessage_arrayBuffer arrayBuffer = ([], Some SyntaxError)).
    { unfold onmessage_arrayBuffer. rewrite H0. change (4 + 0) with 4.
      now rewrite slice_empty. }
    split; [assumption|]. intros s i Hi. unfold step. now rewrite Hi, E.
  - intros jsonLen payload HL Hp imageBlob. split.
    + intros ->.
      assert (E : onmessage_arrayBuffer arrayBuffer = ([], Some TypeError)).
      { unfold onmessage_arrayBuffer. now rewrite HL, Hp. }
      split; [assumption|]. intros s i Hi. unfold step. now rewrite Hi, E.
    + intro Hnull.
      destruct (Get_defined payload (u16 "alerts") Hnull (JSON_parse_defined _ _ Hp))
        as [a Ha].
      destruct (Get_optional_total a (u16 "emergency_detected")) as [flag Hf].
      exists a, flag. split; [assumption|]. split; [assumption|]. intro Hb.
      assert (E : onmessage_arrayBuffer arrayBuffer = ([AwaitImageBitmap imageBlob], None)).
      { unfold onmessage_arrayBuffer. rewrite HL, Hp.
        now rewrite (alert_logic_calm payload a flag). }
      split; [assumption|]. intros s i Hi es.
      set (s1 := set_imageBitmaps (imageBitmaps s ++ [imageBlob])
                   (set_arrayBuffers (remove_nth i (arrayBuffers s)) s)).
      assert (E1 : step (ArrayBufferReady i) s = s1).
      { unfold step. rewrite Hi, E. reflexivity. }
      set (frames := animationFrames s ++ match createImageBitmap imageBlob with
                                          | Some imageBitmap => [imageBitmap]
                                          | None => []
                                          end).
      set (s2 := set_animationFrames frames (set_imageBitmaps (imageBitmaps s) s1)).
      assert (E2 : step (ImageBitmapSettled (List.length (imageBitmaps s))) s1 = s2).
      { unfold step, s1 at 1 2. cbn [imageBitmaps set_imageBitmaps].
        rewrite nth_error_last, remove_nth_last. unfold onmessage_imageBitmap, s2, frames.
        destruct (createImageBitmap imageBlob); cbn; [reflexivity|].
        rewrite app_nil_r. unfold s1. destruct s; reflexivity. }
      unfold es. cbn [steps]. rewrite E1, E2. unfold step.
      change (mounted s2) with (mounted s). change (animationFrames s2) with frames.
      destruct (mounted s).
      * destruct (run_draw frames (set_animationFrames [] s2)) as [-> _].
        rewrite run_draw_alerts. split; [reflexivity|].
        change (canvas (set_animationFrames [] s2)) with (canvas s). unfold frames.
        destruct (createImageBitmap imageBlob).
        -- rewrite rev_app_distr. reflexivity.
        -- now rewrite app_nil_r.
      * destruct (animation_callbacks_canvas frames (set_animationFrames [] s2)) as [-> ->].
        split; reflexivity.
Qed.

(** C3. In every reachable state no two alerts have the same class name.
    An add for a class that is already there returns the list unchanged,
    whatever its id; a record whose emergency detections all have their
    alert leaves the state as it is; ingesting a record a second time
    changes nothing; and a second detection of a class just added adds
    nothing. *)
Theorem C3_one_alert_per_class :
  (forall s, reachable s -> NoDup (map class_name (alerts s)))
  /\ (forall eid cn payload prev,
        In cn (map class_name prev) ->
        apply_updater (AddAlert eid cn payload) prev = inr prev)
  /\ (forall payload s,
        (forall eid cn p, In (SetAlerts (AddAlert eid cn p)) (fst (alert_logic payload)) ->
                          In cn (map class_name (alerts s))) ->
        ingest payload s = s)
  /\ (forall payload s, ingest payload (ingest payload s) = ingest payload s)
  /\ (forall eid1 eid2 cn payload1 payload2 prev l,
        apply_updater (AddAlert eid1 cn payload1) prev = inr l ->
        apply_updater (AddAlert eid2 cn payload2) l = inr l).
Proof.
  repeat split.
  - apply reachable_unique.
  - intros. now apply apply_AddAlert_present.
  - apply ingest_present.
  - apply ingest_twice.
  - intros eid1 eid2 cn p1 p2 prev l H. apply apply_AddAlert_present.
    now apply apply_AddAlert_result in H.
Qed.

(** C4. For a record whose [emergency_detected] is truthy and none of
    whose detections is null, the alert logic calls [setAlerts] once for
    each detection of an emergency class, in order, with the id
    "evt_" + frame_id + "_" + unix_time; applied to a list without that
    class, the updater puts the new alert, severity HIGH, in front, so B
    after A gives B, A, ...; the frame of scenario 2 gives the one alert
    evt_7_1000 for Fire. *)
Theorem C4_alert_constructed (payload a flag fv tv ts tp : JS) (dets : list JS)
    (f t : jsstring) :
  Get payload (u16 "alerts") = inr a ->
  Get_optional a (u16 "emergency_detected") = inr flag ->
  ToBoolean flag = true ->
  Get payload (u16 "detections") = inr (JArray dets) ->
  Forall (fun det => det <> JNull /\ det <> JUndefined) dets ->
  Get payload (u16 "frame_id") = inr fv -> ToString fv = Some f ->
  Get payload (u16 "unix_time") = inr tv -> ToString tv = Some t ->
  Get payload (u16 "timestamp") = inr ts -> ToPrimitive ts = inr tp ->
  let eventId := u16 "evt_" ++ f ++ u16 "_" ++ t in
  let new := fun className =>
    {| id := eventId; class_name := className; severity := u16 "HIGH";
       location := u16 "ROAD 1"; time := toLocaleTimeString tp;
       desc := className ++ u16 " emergency triggered." |} in
  alert_logic payload
  = (map (fun cn => SetAlerts (AddAlert eventId cn payload)) (emergency_labels dets), None)
  /\ (forall cn prev,
        some_class_name cn prev = false ->
        apply_updater (AddAlert eventId cn payload) prev = inr (new cn :: prev))
  /\ (forall A B eidB payloadB prev l,
        A <> B -> some_class_name A prev = false -> some_class_name B prev = false ->
        apply_updater (AddAlert eidB B payloadB) (new A :: prev) = inr l ->
        exists b, l = b :: new A :: prev /\ id b = eidB /\ class_name b = B)
  /\ alerts (run (fst (onmessage_arrayBuffer (Example.whole Example.fire_json Example.jpeg)))
                 initial)
     = [{| id := u16 "evt_7_1000"; class_name := u16 "Fire"; severity := u16 "HIGH";
           location := u16 "ROAD 1"; time := toLocaleTimeString JUndefined;
           desc := u16 "Fire emergency triggered." |}].
Proof.
  intros Ha Hf Ht Hd Hn Hfv Hfs Htv Hts Hs Hp eventId new.
  split; [|split; [|split]].
  - apply (alert_logic_labels payload a flag dets eventId); try assumption.
    now apply (eventId_of_shape payload fv tv).
  - intros cn prev Hc. now apply (apply_AddAlert_new eventId cn payload ts tp).
  - intros A B eidB payloadB prev l Hab HA HB H.
    assert (Hnot : some_class_name B (new A :: prev) = false).
    { rewrite some_class_name_cons, HB, orb_false_r. now apply jsstring_eqb_neq. }
    apply apply_AddAlert_result in H as [_ [[_ Hyes] | [b [-> [Hi [Hc Hfresh]]]]]].
    + congruence.
    + now exists b.
  - vm_compute. reflexivity.
Qed.

(** C5. Resolving the same id twice leaves the alert list as resolving it
    once; the updater of [handleResolve] returns a list on every input
    (it raises nothing), and the component stays as it was. *)
Theorem C5_resolve_idempotent (x : jsstring) (s : State) :
  alerts (step (Click x) (step (Click x) s)) = alerts (step (Click x) s)
  /\ (exists l, apply_updater (RemoveAlert x) (alerts (step (Click x) s)) = inr l)
  /\ mounted (step (Click x) (step (Click x) s)) = mounted s.
Proof.
  repeat split.
  - rewrite (step_Click_alerts x (step (Click x) s)), step_Click_mounted.
    rewrite step_Click_alerts. destruct (mounted s); [apply filter_filter | reflexivity].
  - eexists. apply apply_RemoveAlert.
  - now rewrite !step_Click_mounted.
Qed.

(** C6. [handleResolve] on an open socket sends one text frame, the
    serialization of [{ action: "resolve", event_id: eventId }], and
    then removes the alert; on a socket in any other state it sends
    nothing; the removal follows in every case. *)
Theorem C6_resolve_sends_then_removes (x : jsstring) (s : State) :
  handleResolve OPEN x = [Send (resolve_message x); SetAlerts (RemoveAlert x)]
  /\ handleResolve CONNECTING x = [SetAlerts (RemoveAlert x)]
  /\ handleResolve CLOSING x = [SetAlerts (RemoveAlert x)]
  /\ handleResolve CLOSED x = [SetAlerts (RemoveAlert x)]
  /\ JSON_parse (resolve_message x)
     = Some (JObject [(u16 "action", JString (u16 "resolve")); (u16 "event_id", JString x)])
  /\ sent (step (Click x) s)
     = match readyState s with
       | OPEN => resolve_message x :: sent s
       | _ => sent s
       end
  /\ alerts (step (Click x) s)
     = if mounted s
       then filter (fun alert => negb (jsstring_eqb (id alert) x)) (alerts s)
       else alerts s.
Proof.
  repeat split; try reflexivity.
  - apply JSON_parse_resolve_message.
  - apply step_Click_sent.
  - apply step_Click_alerts.
Qed.

(** C7 (as the code has it). Once the socket is closed it stays closed
    and the browser delivers no further message, so no new message
    arrives. What is in flight is not cancelled: an image whose decode
    completes afterwards is drawn on the next animation frame as long as
    the component is mounted. Nothing is drawn once the component is
    unmounted. The three continuations of the handler (buffer read,
    image decoded, animation frame) do the same whatever the status is. *)
Theorem C7_close_does_not_cancel :
  (forall s d, readyState (step WsClose s) = CLOSED
               /\ deliverable (step WsClose s) (WsMessage d) = false)
  /\ (forall es s, readyState s = CLOSED -> deliverable_all es s = true ->
        readyState (steps es s) = CLOSED /\ forall d, ~ In (WsMessage d) es)
  /\ (forall s j imageBlob imageBitmap,
        nth_error (imageBitmaps s) j = Some imageBlob ->
        createImageBitmap imageBlob = Some imageBitmap ->
        mounted s = true ->
        canvas (steps [ImageBitmapSettled j; AnimationFrame] s)
        = imageBitmap :: rev (animationFrames s) ++ canvas s
        /\ systemStatus (steps [ImageBitmapSettled j; AnimationFrame] s) = systemStatus s)
  /\ (forall s e, mounted s = false ->
        canvas (step e s) = canvas s /\ mounted (step e s) = false)
  /\ (forall s st i,
        step (ArrayBufferReady i) (set_systemStatus st s)
        = set_systemStatus st (step (ArrayBufferReady i) s))
  /\ (forall s st i,
        step (ImageBitmapSettled i) (set_systemStatus st s)
        = set_systemStatus st (step (ImageBitmapSettled i) s))
  /\ (forall s st,
        step AnimationFrame (set_systemStatus st s)
        = set_systemStatus st (step AnimationFrame s)).
Proof.
  split; [|split; [|split; [|split; [|split; [|split]]]]].
  - intros s d. pose proof (step_WsClose_readyState s) as H. split; [assumption|].
    cbn [deliverable]. now rewrite H.
  - intros es s. apply steps_closed.
  - intros s j imageBlob imageBitmap Hj Hd Hm. cbn [steps].
    unfold step at 2 4. rewrite Hj. unfold onmessage_imageBitmap. rewrite Hd.
    cbn [run fold_left run_action]. unfold step.
    cbn [mounted animationFrames set_animationFrames set_imageBitmaps]. rewrite Hm.
    destruct (run_draw (animationFrames s ++ [imageBitmap])
                (set_animationFrames []
                   (set_animationFrames (animationFrames s ++ [imageBitmap])
                      (set_imageBitmaps (remove_nth j (imageBitmaps s)) s)))) as [-> ->].
    rewrite rev_app_distr. split; reflexivity.
  - intros s e. apply step_unmounted.
  - intros s st i. now apply step_status.
  - intros s st i. now apply step_status.
  - intros s st. now apply step_status.
Qed.

(** C8. A record with two detections of different emergency classes,
    neither shown yet, adds two alerts with the same id, and one resolve
    with that id removes both. *)
Theorem C8_two_alerts_one_id (payload a flag fv tv ts tp d1 d2 : JS)
    (c1 c2 f t : jsstring) (s : State) :
  Get payload (u16 "alerts") = inr a ->
  Get_optional a (u16 "emergency_detected") = inr flag ->
  ToBoolean flag = true ->
  Get payload (u16 "detections") = inr (JArray [d1; d2]) ->
  Get d1 (u16 "class_name") = inr (JString c1) ->
  Get d2 (u16 "class_name") = inr (JString c2) ->
  In c1 emergency_classes -> In c2 emergency_classes -> c1 <> c2 ->
  Get payload (u16 "frame_id") = inr fv -> ToString fv = Some f ->
  Get payload (u16 "unix_time") = inr tv -> ToString tv = Some t ->
  Get payload (u16 "timestamp") = inr ts -> ToPrimitive ts = inr tp ->
  mounted s = true ->
  some_class_name c1 (alerts s) = false -> some_class_name c2 (alerts s) = false ->
  let eventId := u16 "evt_" ++ f ++ u16 "_" ++ t in
  exists a1 a2,
    alerts (ingest payload s) = a2 :: a1 :: alerts s
    /\ class_name a1 = c1 /\ class_name a2 = c2
    /\ id a1 = eventId /\ id a2 = eventId
    /\ alerts (step (Click eventId) (ingest payload s))
       = filter (fun alert => negb (jsstring_eqb (id alert) eventId)) (alerts s).
Proof.
  intros Ha Hf Ht Hd Hd1 Hd2 Hc1 Hc2 Hne Hfv Hfs Htv Hts Hs Hp Hm Hn1 Hn2 eventId.
  assert (Hlogic : alert_logic payload
                   = ([SetAlerts (AddAlert eventId c1 payload);
                       SetAlerts (AddAlert eventId c2 payload)], None)).
  { rewrite (alert_logic_labels payload a flag [d1; d2] eventId); try assumption.
    - cbn [emergency_labels flat_map]. rewrite Hd1, Hd2.
      rewrite !includes_emergency by assumption. reflexivity.
    - repeat constructor;
        first [ apply (Get_inr_not_null d1 _ _ Hd1) | apply (Get_inr_not_null d2 _ _ Hd2) ].
    - now apply (eventId_of_shape payload fv tv). }
  unfold ingest. rewrite Hlogic. cbn [fst]. rewrite !run_cons.
  cbn [run run_action fold_left]. rewrite Hm.
  rewrite (apply_AddAlert_new eventId c1 payload ts tp) by assumption.
  cbn [mounted set_alerts alerts].  rewrite Hm.
  rewrite (apply_AddAlert_new eventId c2 payload ts tp); try assumption.
  2:{ rewrite some_class_name_cons. cbn [class_name]. rewrite Hn2, orb_false_r.
      now apply jsstring_eqb_neq. }
  eexists. eexists. split; [reflexivity|]. repeat split.
  rewrite step_Click_alerts. cbn [mounted set_alerts alerts]. rewrite Hm.
  cbn [filter id]. now rewrite jsstring_eqb_refl.
Qed.

(** C9. A resolve with an id that no alert of the list has still sends
    when the socket is open: one text frame, which is the JSON text of
    the object with [action] "resolve" and [event_id] the id given; and
    the alert list is left as it was. *)
Theorem C9_resolve_unknown_id (x : jsstring) (s : State) :
  (forall a, In a (alerts s) -> id a <> x) ->
  readyState s = OPEN ->
  sent (step (Click x) s) = resolve_message x :: sent s
  /\ JSON_parse (resolve_message x)
     = Some (JObject [(u16 "action", JString (u16 "resolve")); (u16 "event_id", JString x)])
  /\ alerts (step (Click x) s) = alerts s.
Proof.
  intros Hx Hopen. split; [|split].
  - rewrite step_Click_sent, Hopen. reflexivity.
  - apply JSON_parse_resolve_message.
  - rewrite step_Click_alerts. destruct (mounted s); [|reflexivity].
    apply filter_keeps_all, Forall_forall. intros a Ha.
    apply negb_true_iff, jsstring_eqb_neq. now apply Hx.
Qed.

(** C10. A message whose data is not a Blob is ignored: the handler does
    nothing, so the state (alerts, status, pending decodes, scheduled
    paints) is the one before. *)
Theorem C10_text_message_ignored (t : jsstring) (s : State) :
  onmessage (Text t) = [] /\ step (WsMessage (Text t)) s = s.
Proof.
  split; reflexivity.
Qed.

(** X1. In every reachable state each alert of the list is one the
    message handler built (an emergency class, an id that starts with
    evt_, severity HIGH, location ROAD 1, the description made from the
    class), and the list has at most five alerts, one for each class. *)
Theorem X1_alerts_are_built (s : State) :
  reachable s ->
  Forall built_alert (alerts s) /\ (List.length (alerts s) <= 5)%nat.
Proof.
  intro H. pose proof (reachable_built s H) as Hb. split; [assumption|].
  rewrite <- (length_map class_name).
  change 5%nat with (List.length emergency_classes).
  apply NoDup_incl_length; [now apply reachable_unique|].
  intros c Hc. apply in_map_iff in Hc as (a & <- & Ha).
  now apply (proj1 (Forall_forall _ _) Hb a Ha).
Qed.

(** X2. While the component is mounted the status it shows follows the
    socket: Connecting exactly while it connects, Disconnected exactly
    when it has closed, and Monitoring Active exactly from the moment it
    opened until it has closed. No handler runs when the server starts
    the closing handshake, so Monitoring Active is also shown while the
    socket is closing and delivers nothing any more. *)
Theorem X2_status_follows_socket (s : State) :
  reachable s -> mounted s = true ->
  (systemStatus s = MonitoringActive <-> readyState s = OPEN \/ readyState s = CLOSING)
  /\ (systemStatus s = Disconnected <-> readyState s = CLOSED)
  /\ (systemStatus s = Connecting <-> readyState s = CONNECTING)
  /\ (readyState s = CLOSING -> forall d, deliverable s (WsMessage d) = false).
Proof.
  intros Hr Hm. pose proof (reachable_follows s Hr Hm) as H.
  destruct (readyState s) eqn:E; cbn [status_of] in H; rewrite H;
    (split; [|split; [|split]]);
    try (split; intro H0; try discriminate; try reflexivity;
         try (destruct H0; discriminate); auto);
    try discriminate.
  intros _ d. cbn [deliverable]. now rewrite E.
Qed.

(** X3. Only [handleResolve] writes to the socket: every other event
    leaves the frames sent as they were, and a resolve adds one frame
    when the socket is open and none otherwise. *)
Theorem X3_only_resolve_sends (e : Event) (s : State) :
  sent (step e s)
  = match e with
    | Click eventId => match readyState s with
                       | OPEN => resolve_message eventId :: sent s
                       | _ => sent s
                       end
    | _ => sent s
    end.
Proof.
  destruct e; try apply step_Click_sent; unfold step.
  - unfold onopen, run. cbn. destruct (mounted s); reflexivity.
  - reflexivity.
  - unfold onclose, run. cbn. destruct (mounted s); reflexivity.
  - destruct data; reflexivity.
  - destruct (nth_error (arrayBuffers s) i) as [b|]; [|reflexivity].
    destruct (onmessage_arrayBuffer_shape b) as (acts & rest & -> & Ha & Hr).
    rewrite run_app.
    assert (Hrest : forall s0, sent (run rest s0) = sent s0).
    { intro s0. destruct Hr as [-> | (n & _ & _ & ->)]; reflexivity. }
    rewrite Hrest.
    now destruct (run_adds_frame acts (set_arrayBuffers (remove_nth i (arrayBuffers s)) s) Ha)
      as (_ & _ & -> & _).
  - destruct (nth_error (imageBitmaps s) i) as [b|]; [|reflexivity].
    unfold onmessage_imageBitmap. destruct (createImageBitmap b); reflexivity.
  - assert (H : forall l s1, sent (run (flat_map (animation_callback (mounted s)) l) s1) = sent s1).
    { induction l as [|b l IH]; intro s1; [reflexivity|].
      cbn [flat_map]. rewrite run_app, IH. unfold animation_callback.
      destruct (mounted s); reflexivity. }
    now rewrite H.
  - destruct (mounted s); [|reflexivity]. apply unmount_sent.
Qed.

(** X4. A frame is taken apart as it was put together. For a message made
    of four header bytes, the metadata and the image, the header is read
    as the big-endian number of its bytes, which is below 2^32; when that
    number is the length of the metadata, the metadata slice is the
    metadata, the image blob is the image, and the handler goes on with
    exactly these. *)
Theorem X4_frame_round_trip (b0 b1 b2 b3 : Byte.byte) (metadata image : ArrayBuffer) :
  let arrayBuffer := b0 :: b1 :: b2 :: b3 :: metadata ++ image in
  let jsonLen :=
    Byte.to_N b0 * 16777216 + Byte.to_N b1 * 65536 + Byte.to_N b2 * 256 + Byte.to_N b3 in
  getUint32 arrayBuffer = inr jsonLen
  /\ jsonLen < 4294967296
  /\ (jsonLen = byteLength metadata ->
      slice 4 (4 + jsonLen) arrayBuffer = metadata
      /\ slice_from (4 + jsonLen) arrayBuffer = image
      /\ onmessage_arrayBuffer arrayBuffer
         = match JSON_parse (TextDecoder_decode metadata) with
           | None => ([], Some SyntaxError)
           | Some payload =>
               match alert_logic payload with
               | (acts, Some e) => (acts, Some e)
               | (acts, None) => (acts ++ [AwaitImageBitmap image], None)
               end
           end).
Proof.
  intros arrayBuffer jsonLen.
  assert (Hv : getUint32 arrayBuffer = inr jsonLen) by apply getUint32_value.
  split; [exact Hv|]. split.
  - pose proof (Byte_to_N_bound b0). pose proof (Byte_to_N_bound b1).
    pose proof (Byte_to_N_bound b2). pose proof (Byte_to_N_bound b3). subst jsonLen. lia.
  - intro HL.
    destruct (slice_whole_frame b0 b1 b2 b3 metadata image) as [Hm Hi].
    fold arrayBuffer in Hm, Hi. rewrite <- HL in Hm, Hi.
    split; [exact Hm|]. split; [exact Hi|].
    unfold onmessage_arrayBuffer. rewrite Hv, Hm, Hi. reflexivity.
Qed.

(** X5. How the handler of a binary message can end. It raises RangeError
    exactly when the message has fewer than four bytes, SyntaxError
    exactly when the header can be read and the metadata slice is not a
    JSON text, TypeError exactly when the alert logic raises it on the
    parsed record. When it raises, no image is given to
    [createImageBitmap]; when it does not, what it did is some calls of
    [setAlerts] that add, then one [createImageBitmap] on the bytes after
    the metadata. *)
Theorem X5_handler_outcome (arrayBuffer : ArrayBuffer) :
  (snd (onmessage_arrayBuffer arrayBuffer) = Some RangeError <-> byteLength arrayBuffer < 4)
  /\ (snd (onmessage_arrayBuffer arrayBuffer) = Some SyntaxError
      <-> exists jsonLen,
            getUint32 arrayBuffer = inr jsonLen
            /\ JSON_parse (TextDecoder_decode (slice 4 (4 + jsonLen) arrayBuffer)) = None)
  /\ (snd (onmessage_arrayBuffer arrayBuffer) = Some TypeError
      <-> exists jsonLen payload,
            getUint32 arrayBuffer = inr jsonLen
            /\ JSON_parse (TextDecoder_decode (slice 4 (4 + jsonLen) arrayBuffer)) = Some payload
            /\ snd (alert_logic payload) = Some TypeError)
  /\ (snd (onmessage_arrayBuffer arrayBuffer) <> None ->
      forall imageBlob, ~ In (AwaitImageBitmap imageBlob) (fst (onmessage_arrayBuffer arrayBuffer)))
  /\ (snd (onmessage_arrayBuffer arrayBuffer) = None ->
      exists jsonLen sets,
        getUint32 arrayBuffer = inr jsonLen
        /\ Forall adds sets
        /\ fst (onmessage_arrayBuffer arrayBuffer)
           = sets ++ [AwaitImageBitmap (slice_from (4 + jsonLen) arrayBuffer)]).
Proof.
  unfold onmessage_arrayBuffer.
  destruct (getUint32 arrayBuffer) as [e|jsonLen] eqn:Eh.
  { assert (Hshort : byteLength arrayBuffer < 4).
    { destruct (N.ltb_spec (byteLength arrayBuffer) 4) as [H|H]; [assumption|].
      unfold byteLength in H. destruct arrayBuffer as [|? [|? [|? [|? ?]]]]; simpl in H; try lia.
      discriminate. }
    rewrite (getUint32_short _ Hshort) in Eh. injection Eh as <-. cbn [fst snd].
    split; [tauto|]. split; [|split; [|split]].
    - split; [discriminate | intros (n & H & _); discriminate].
    - split; [discriminate | intros (n & p & H & _); discriminate].
    - intros _ b [].
    - discriminate. }
  pose proof (getUint32_length _ _ Eh) as H4.
  destruct (JSON_parse _) as [payload|] eqn:Ep.
  2:{ cbn [fst snd]. split; [|split; [|split; [|split]]].
      - split; [discriminate | lia].
      - split; [intros _; now exists jsonLen | reflexivity].
      - split; [discriminate|]. intros (n & p & Hn & Hp & _). injection Hn as <-. congruence.
      - intros _ b [].
      - discriminate. }
  pose proof (alert_logic_adds payload) as Ha.
  pose proof (alert_logic_error payload) as He.
  destruct (alert_logic payload) as [acts [e|]] eqn:El; cbn [fst snd] in *.
  - specialize (He e eq_refl). subst e. split; [|split; [|split; [|split]]].
    + split; [discriminate | lia].
    + split; [discriminate|]. intros (n & Hn & Hp). injection Hn as <-. congruence.
    + split; [|reflexivity]. intros _. exists jsonLen, payload. now rewrite El.
    + intros _ b Hin. apply (proj1 (Forall_forall _ _) Ha) in Hin as (? & ? & ? & ?).
      discriminate.
    + discriminate.
  - split; [|split; [|split; [|split]]].
    + split; [discriminate | lia].
    + split; [discriminate|]. intros (n & Hn & Hp). injection Hn as <-. congruence.
    + split; [discriminate|]. intros (n & p & Hn & Hp & Ht). injection Hn as <-.
      rewrite Ep in Hp. injection Hp as <-. rewrite El in Ht. discriminate.
    + intro H. now contradiction H.
    + intros _. exists jsonLen, acts. auto.
Qed.

(** X6. The alert logic raises nothing but TypeError. It raises it on a
    record that is null or undefined; when [emergency_detected] is truthy
    and [detections] is not an array; and in the loop, at the first
    detection that is null or undefined, or that has an emergency class
    while [frame_id] or [unix_time] has no string. The calls of
    [setAlerts] made for the detections before that one stay made. When
    [emergency_detected] is falsy nothing is done and nothing raised. *)
Theorem X6_alert_logic_throws (payload : JS) :
  (forall e, snd (alert_logic payload) = Some e -> e = TypeError)
  /\ (payload = JNull \/ payload = JUndefined -> alert_logic payload = ([], Some TypeError))
  /\ (forall a flag,
        Get payload (u16 "alerts") = inr a ->
        Get_optional a (u16 "emergency_detected") = inr flag ->
        (ToBoolean flag = false -> alert_logic payload = ([], None))
        /\ (ToBoolean flag = true ->
            (forall dets, Get payload (u16 "detections") = inr (JArray dets) ->
               snd (alert_logic payload)
               = (if existsb (stops_loop payload) dets then Some TypeError else None)
               /\ forall pre det post,
                    dets = pre ++ det :: post ->
                    existsb (stops_loop payload) pre = false ->
                    stops_loop payload det = true ->
                    alert_logic payload = (fst (forEach_detections payload pre), Some TypeError))
            /\ ((forall dets, Get payload (u16 "detections") <> inr (JArray dets)) ->
                alert_logic payload = ([], Some TypeError)))).
Proof.
  split; [apply alert_logic_error|]. split.
  - intros [-> | ->]; reflexivity.
  - intros a flag Ha Hf. unfold alert_logic. rewrite Ha, Hf. split.
    + now intros ->.
    + intros ->. split.
      * intros dets ->. split; [apply forEach_detections_ends|].
        intros pre det post -> Hpre Hdet. now apply forEach_detections_before.
      * intro Hn. destruct (Get payload (u16 "detections")) as [e|[ | | | | |dets| ]];
          try reflexivity. now contradiction (Hn dets).
Qed.

(** X7. What an event can do to the alert list. A click on a button
    removes the alerts with the id of its card, if the component is
    mounted. Metadata that have been read put new alerts in front of the
    list: at most five, of emergency classes, no two of one class, none
    of a class the list had. Every other event (the socket opening or
    closing, a message arriving, an image decoded, an animation frame,
    the component leaving the page) leaves the list as it was. *)
Theorem X7_alert_list_changes (e : Event) (s : State) :
  match e with
  | Click eventId =>
      alerts (step e s)
      = if mounted s
        then filter (fun alert => negb (jsstring_eqb (id alert) eventId)) (alerts s)
        else alerts s
  | ArrayBufferReady _ =>
      exists new,
        alerts (step e s) = new ++ alerts s
        /\ NoDup (map class_name new)
        /\ (List.length new <= 5)%nat
        /\ forall b, In b new -> In (class_name b) emergency_classes
                                 /\ ~ In (class_name b) (map class_name (alerts s))
  | _ => alerts (step e s) = alerts s
  end.
Proof.
  destruct e; try apply step_Click_alerts; unfold step.
  - unfold onopen, run. cbn. destruct (mounted s); reflexivity.
  - reflexivity.
  - unfold onclose, run. cbn. destruct (mounted s); reflexivity.
  - destruct data; reflexivity.
  - destruct (nth_error (arrayBuffers s) i) as [b|].
    2:{ exists []. split; [reflexivity|]. split; [apply NoDup_nil|]. split; [cbn; lia|]. intros ? []. }
    unfold onmessage_arrayBuffer. destruct (getUint32 b) as [e|n].
    { exists []. split; [reflexivity|]. split; [apply NoDup_nil|]. split; [cbn; lia|]. intros ? []. }
    destruct (JSON_parse _) as [payload|].
    2:{ exists []. split; [reflexivity|]. split; [apply NoDup_nil|]. split; [cbn; lia|]. intros ? []. }
    pose proof (alert_logic_built payload) as Hb.
    set (s0 := set_arrayBuffers (remove_nth i (arrayBuffers s)) s).
    assert (Hgoal : forall acts, Forall adds_built acts ->
              exists new, alerts (run acts s0) = new ++ alerts s
                /\ NoDup (map class_name new) /\ (List.length new <= 5)%nat
                /\ forall b0, In b0 new -> In (class_name b0) emergency_classes
                                           /\ ~ In (class_name b0) (map class_name (alerts s))).
    { intros acts Ha. destruct (run_adds_built_front acts s0 Ha) as (new & E & Hnd & Hin).
      exists new. repeat split; try assumption; try (now apply Hin).
      apply NoDup_emergency_length; [assumption|]. intros x Hx. now apply Hin. }
    destruct (alert_logic payload) as [acts [e|]]; cbn [fst] in *; [now apply Hgoal|].
    rewrite run_app. cbn [run fold_left run_action alerts set_imageBitmaps]. now apply Hgoal.
  - destruct (nth_error (imageBitmaps s) i) as [b|]; [|reflexivity].
    unfold onmessage_imageBitmap. destruct (createImageBitmap b); reflexivity.
  - assert (H : forall l s1, alerts (run (flat_map (animation_callback (mounted s)) l) s1)
                             = alerts s1).
    { induction l as [|b l IH]; intro s1; [reflexivity|].
      cbn [flat_map]. rewrite run_app, IH. unfold animation_callback.
      destruct (mounted s); reflexivity. }
    now rewrite H.
  - destruct (mounted s); [apply unmount_alerts | reflexivity].
Qed.


(** X9. The clean-up closes the socket only if it is open. Unmounting
    with an open socket leaves it closing, and no message is delivered
    from then on, whatever happens. Unmounting while the socket is still
    connecting leaves it connecting: it can then open and deliver a
    message, whose bytes the handler still reads. *)
Theorem X9_cleanup_closes_only_an_open_socket (s : State) :
  mounted s = true ->
  (readyState s = OPEN ->
     readyState (step Unmount s) = CLOSING
     /\ forall es, deliverable_all es (step Unmount s) = true ->
                   forall d, ~ In (WsMessage d) es)
  /\ (readyState s = CONNECTING ->
      readyState (step Unmount s) = CONNECTING
      /\ forall blob,
           deliverable_all [WsOpen; WsMessage (Blob blob)] (step Unmount s) = true
           /\ arrayBuffers (steps [WsOpen; WsMessage (Blob blob)] (step Unmount s))
              = arrayBuffers s ++ [blob]).
Proof.
  intro Hm. split; intro Hr.
  - assert (E : readyState (step Unmount s) = CLOSING).
    { unfold step. rewrite Hm. unfold unmount, cleanup, ws_close; simpl. now rewrite Hr. }
    split; [exact E|]. intros es Hd d. apply (steps_closing es (step Unmount s)); [now left | exact Hd].
  - assert (E : step Unmount s = set_mounted false s).
    { unfold step. rewrite Hm. unfold unmount, cleanup. now rewrite Hr. }
    rewrite E. split; [exact Hr|]. intro blob. cbn. rewrite Hr. cbn. split; reflexivity.
Qed.

(** X10. Resolving an alert lets its class alert again. While an alert
    stands in the list, a detection of its class adds nothing; after a
    click on its button no alert of that class is left, the list is
    shorter, and the next detection of the class with a timestamp that
    can become a date puts a new alert in front. *)
Theorem X10_resolve_rearms_the_class (s : State) (a : Alert) :
  reachable s -> mounted s = true -> In a (alerts s) ->
  let s' := step (Click (id a)) s in
  (forall eid payload,
     apply_updater (AddAlert eid (class_name a) payload) (alerts s) = inr (alerts s))
  /\ ~ In (class_name a) (map class_name (alerts s'))
  /\ (List.length (alerts s') < List.length (alerts s))%nat
  /\ (forall eid payload ts tp,
        Get payload (u16 "timestamp") = inr ts -> ToPrimitive ts = inr tp ->
        exists b, apply_updater (AddAlert eid (class_name a) payload) (alerts s')
                  = inr (b :: alerts s')
                  /\ id b = eid /\ class_name b = class_name a).
Proof.
  intros Hr Hm Ha s'.
  assert (Es : alerts s' = filter (fun alert => negb (jsstring_eqb (id alert) (id a))) (alerts s)).
  { unfold s'. now rewrite step_Click_alerts, Hm. }
  assert (Hgone : ~ In (class_name a) (map class_name (alerts s'))).
  { rewrite Es. intro Hin. apply in_map_iff in Hin as (b & Eb & Hb).
    apply filter_In in Hb as [Hb Hid].
    assert (b = a) as ->.
    { apply (NoDup_map_In_eq class_name (alerts s)); try assumption.
      now apply reachable_unique. }
    now rewrite jsstring_eqb_refl in Hid. }
  split; [|split; [exact Hgone | split]].
  - intros eid payload. apply apply_AddAlert_present. now apply in_map.
  - rewrite Es. apply (filter_drops_length _ _ a Ha). now rewrite jsstring_eqb_refl.
  - intros eid payload ts tp Hts Htp. eexists. split; [|split].
    + apply (apply_AddAlert_new eid (class_name a) payload ts tp); try assumption.
      destruct (some_class_name (class_name a) (alerts s')) eqn:E; [|reflexivity].
      exfalso. apply Hgone. now apply some_class_name_In.
    + reflexivity.
    + reflexivity.
Qed.

(** X11. A timestamp that cannot become a date takes the page down.
    When [new Date(payload.timestamp)] raises, the updater raises while
    React renders, and the component is unmounted as soon as the record
    brings a class that the list does not have: the alert list is left
    as it was and the socket, if open, is closed. If the record brings
    no such class the state is the one before. When the date can be
    made the component stays mounted. *)
Theorem X11_bad_timestamp_takes_the_page_down (payload : JS) (s : State) :
  mounted s = true ->
  match new_Date payload with
  | inr _ => mounted (ingest payload s) = true
  | inl _ =>
      ingest payload s
      = if existsb (fun className => negb (some_class_name className (alerts s)))
             (added_classes (fst (alert_logic payload)))
        then unmount s else s
  end
  /\ mounted (unmount s) = false
  /\ alerts (unmount s) = alerts s
  /\ readyState (unmount s) = match readyState s with OPEN => CLOSING | rs => rs end.
Proof.
  intro Hm. split; [|split; [apply unmount_mounted | split; [apply unmount_alerts|]]].
  - destruct (new_Date payload) as [e|t] eqn:Hd.
    + apply (run_bad_timestamp payload e); try assumption. apply alert_logic_adds_of.
    + unfold ingest. rewrite (run_good_timestamp payload t); try assumption.
      apply alert_logic_adds_of.
  - unfold unmount, cleanup, ws_close. destruct (readyState s) eqn:E; cbn; rewrite ?E; reflexivity.
Qed.

(** X12. What the component returns in a reachable state, that is the
    elements it hands to React (how React lays out cards that share a key
    is not part of this). There are as many cards as the badge says, at
    most five, and no two name the same class. Every card is the card of
    an alert of the list: its key is the alert's id, its class is an
    emergency class, the literal HIGH it shows is the alert's severity,
    its place is ROAD 1, its text is made from the class, and its two
    buttons both resolve the alert's id; on a mounted component either
    button leaves no alert with that id and none of that class, and a
    shorter list. While the component is mounted the placeholder over
    the video is absent exactly when the socket is open or closing. *)
Theorem X12_what_the_component_returns (currentTime : DateTime) (s : State) :
  reachable s ->
  let page := render currentTime s in
  (List.length (cards_of page) = badge page /\ (badge page <= 5)%nat)
  /\ NoDup (map card_class_name (cards_of page))
  /\ (forall card, In card (cards_of page) ->
        exists alert,
          In alert (alerts s)
          /\ key card = id alert
          /\ In (card_class_name card) emergency_classes
          /\ card_level card = severity alert
          /\ card_location card = u16 "ROAD 1"
          /\ card_desc card = card_class_name card ++ u16 " emergency triggered."
          /\ onClick_action_taken card = Click (id alert)
          /\ onClick_neglect card = Click (id alert)
          /\ (mounted s = true ->
              forall click,
                click = onClick_action_taken card \/ click = onClick_neglect card ->
                ~ In (key card) (map id (alerts (step click s)))
                /\ ~ In (card_class_name card) (map class_name (alerts (step click s)))
                /\ (List.length (alerts (step click s)) < List.length (alerts s))%nat))
  /\ (mounted s = true ->
      (placeholder page = None <-> readyState s = OPEN \/ readyState s = CLOSING)).
Proof.
  intros Hr page.
  pose proof (reachable_built s Hr) as Hb. pose proof (reachable_unique s Hr) as Hu.
  assert (Ec : cards_of page = map alert_card (alerts s)).
  { unfold page, cards_of, render. cbn [panel]. now destruct (alerts s). }
  split; [split|split; [|split]].
  - rewrite Ec, length_map. reflexivity.
  - unfold page, render. cbn [badge]. apply NoDup_emergency_length; [exact Hu|].
    intros b Hin. now apply (proj1 (Forall_forall _ _) Hb b Hin).
  - rewrite Ec, map_map. exact Hu.
  - intros card Hc. rewrite Ec in Hc. apply in_map_iff in Hc as (a & <- & Ha).
    pose proof (proj1 (Forall_forall _ _) Hb a Ha) as (Hcls & _ & Hsev & Hloc & Hdesc).
    exists a. cbn [alert_card key card_class_name card_level card_location card_desc
                   onClick_action_taken onClick_neglect].
    repeat (split; [first [assumption | reflexivity | now symmetry]|]).
    intros Hm click Hclick.
    assert (click = Click (id a)) as -> by (destruct Hclick; assumption).
    split; [|split].
    + rewrite step_Click_alerts, Hm. intro Hin. apply in_map_iff in Hin as (b & Eb & Hin).
      apply filter_In in Hin as [_ Hid]. rewrite Eb, jsstring_eqb_refl in Hid. discriminate.
    + now apply click_removes_class.
    + rewrite step_Click_alerts, Hm.
      apply (filter_drops_length _ _ a Ha). now rewrite jsstring_eqb_refl.
  - intro Hm. pose proof (reachable_follows s Hr Hm) as H.
    unfold page, render. cbn [placeholder]. rewrite H.
    destruct (readyState s); cbn [status_of status_text]; split; intro H0;
      try discriminate; try reflexivity; auto; destruct H0; discriminate.
Qed.

(** X13. [formatDate] tells dates apart: two dates shown as the same text
    have the same day, month and year. *)
Theorem X13_formatDate_tells_dates_apart (date date' : DateTime) :
  formatDate date = formatDate date' ->
  getDate date = getDate date' /\ getMonth date = getMonth date'
  /\ getFullYear date = getFullYear date'.
Proof.
  unfold formatDate. cbn [u16 app]. change (N_of_ascii "/") with 47. intro H.
  apply split_at_separator in H as [Hd H]; try apply Z_toString_free.
  apply split_at_separator in H as [Hm Hy]; try apply Z_toString_free.
  apply Z_toString_inj in Hd, Hm, Hy. repeat split; try assumption. lia.
Qed.

(** X14. The event id tells frames apart as long as [frame_id] has no
    underscore: two records whose [frame_id] strings hold none and whose
    ids are equal have the same [frame_id] and [unix_time] strings. With
    an underscore they need not: [frame_id] a_b with [unix_time] c, and
    [frame_id] a with [unix_time] b_c, get the same id. *)
Theorem X14_event_id_tells_frames_apart :
  (forall (payload payload' fv tv fv' tv' : JS) (f t f' t' : jsstring),
     Get payload (u16 "frame_id") = inr fv -> ToString fv = Some f ->
     Get payload (u16 "unix_time") = inr tv -> ToString tv = Some t ->
     Get payload' (u16 "frame_id") = inr fv' -> ToString fv' = Some f' ->
     Get payload' (u16 "unix_time") = inr tv' -> ToString tv' = Some t' ->
     free_of 95 f -> free_of 95 f' ->
     eventId_of payload = eventId_of payload' -> f = f' /\ t = t')
  /\ (forall a b c : jsstring,
        eventId_of (JObject [(u16 "frame_id", JString (a ++ u16 "_" ++ b));
                             (u16 "unix_time", JString c)] : JS)
        = eventId_of (JObject [(u16 "frame_id", JString a);
                               (u16 "unix_time", JString (b ++ u16 "_" ++ c))] : JS)).
Proof.
  split.
  - intros payload payload' fv tv fv' tv' f t f' t' H1 H2 H3 H4 H1' H2' H3' H4' Hf Hf' E.
    rewrite (eventId_of_shape payload fv tv f t H1 H2 H3 H4) in E.
    rewrite (eventId_of_shape payload' fv' tv' f' t' H1' H2' H3' H4') in E.
    injection E as E. now apply split_at_separator in E.
  - intros a b c.
    rewrite (eventId_of_shape _ (JString (a ++ u16 "_" ++ b)) (JString c)
               (a ++ u16 "_" ++ b) c); try reflexivity.
    rewrite (eventId_of_shape _ (JString a) (JString (b ++ u16 "_" ++ c))
               a (b ++ u16 "_" ++ c)); try reflexivity.
    now rewrite <- !app_assoc.
Qed.

(** X15. Metadata written in ASCII are read as written: the decoder turns
    bytes below 128 into the code units of the same values. *)
Theorem X15_ascii_metadata_is_read_as_written (metadata : ArrayBuffer) :
  Forall (fun b => Byte.to_N b < 128) metadata ->
  TextDecoder_decode metadata = map Byte.to_N metadata.
Proof.
  intro H. assert (Hn : Forall (fun b => b < 128) (map Byte.to_N metadata)).
  { apply Forall_map. exact H. }
  unfold TextDecoder_decode. rewrite (utf8_decode_ascii _ Hn).
  destruct (map Byte.to_N metadata) as [|c r] eqn:E; [reflexivity|].
  inversion Hn as [|? ? Hc Hr]; subst.
  assert (Hbom : match c :: r with 0xFEFF :: r' => r' | _ => c :: r end = c :: r).
  { destruct c as [|p]; [reflexivity|].
    repeat (destruct p as [p|p|]; try reflexivity). exfalso. lia. }
  rewrite Hbom. now apply utf16_units_ascii.
Qed.

End Properties.

(* ================================================================== *)
(** * The claims on the example platform *)

#[local] Existing Instance Example.platform.

Lemma opened_reachable : reachable Example.opened.
Proof.
  apply (reachable_step initial WsOpen reachable_initial). reflexivity.
Qed.

Lemma closing_reachable : reachable Example.closing.
Proof.
  apply (reachable_step Example.opened WsClosing opened_reachable). reflexivity.
Qed.

Lemma two_alerts_reachable : reachable Example.two_alerts.
Proof.
  apply (reachable_steps
           [WsMessage (Blob (Example.whole Example.two_class_json Example.jpeg));
            ArrayBufferReady 0] Example.opened opened_reachable).
  reflexivity.
Qed.

(** C1, at four buffers: one byte; a whole frame, whose image slice has
    the bytes the header leaves; a frame that declares more metadata
    than it has; and a frame whose record has a timestamp that cannot
    become a date, which takes the component off the page and closes its
    socket while the status stays what it was. *)
Lemma C1_demux_witness :
  onmessage_arrayBuffer [Byte.x00] = ([], Some RangeError)
  /\ byteLength (slice_from (4 + 109) (Example.whole Example.fire_json Example.jpeg))
     = byteLength (Example.whole Example.fire_json Example.jpeg) - 4 - 109
  /\ slice 4 (4 + 200) Example.short_frame = skipn 4 Example.short_frame
  /\ slice_from (4 + 200) Example.short_frame = []
  /\ systemStatus (step (ArrayBufferReady 0) Example.bad_timestamp_arrived) = MonitoringActive
  /\ mounted (step (ArrayBufferReady 0) Example.bad_timestamp_arrived) = false
  /\ readyState (step (ArrayBufferReady 0) Example.bad_timestamp_arrived) = CLOSING.
Proof.
  split; [|split; [|split; [|split]]].
  - refine (proj1 (C1_demux [Byte.x00] 0) _). reflexivity.
  - refine (proj2 (proj1 (proj2 (proj2
      (proj1 (proj2 (C1_demux (Example.whole Example.fire_json Example.jpeg) 109))
             eq_refl))) _)).
    vm_compute. discriminate.
  - refine (proj1 (proj1 (proj2 (proj2 (proj2
      (proj1 (proj2 (C1_demux Example.short_frame 200)) eq_refl)))) _)).
    reflexivity.
  - refine (proj2 (proj1 (proj2 (proj2 (proj2
      (proj1 (proj2 (C1_demux Example.short_frame 200)) eq_refl)))) _)).
    reflexivity.
  - destruct (proj2 (proj2 (C1_demux [] 0)) 0%nat Example.bad_timestamp_arrived)
      as [H1 [[H2 _] | (_ & H2 & _ & H3 & _)]].
    + vm_compute in H2. discriminate.
    + split; [exact H1 | split; [exact H2 | exact H3]].
Defined.

(** C1 fails on the code: a frame that declares more metadata than it has
    is not refused. The 109 bytes after the header are read as the
    metadata, the Fire alert is created and an empty image goes to the
    decoder; scenario 4's frame is handled without an error as well. *)
Lemma C1_counterexample :
  getUint32 Example.short_frame = inr 200
  /\ byteLength Example.short_frame = 113
  /\ onmessage_arrayBuffer Example.short_frame
     = ([SetAlerts (AddAlert (u16 "evt_7_1000") (u16 "Fire")
                             (Example.parsed Example.fire_json));
         AwaitImageBitmap []], None)
  /\ alerts (steps [WsMessage (Blob Example.short_frame); ArrayBufferReady 0] Example.opened)
     = [Example.fire_alert (u16 "Invalid Date")]
  /\ getUint32 Example.scenario4_frame = inr 50
  /\ byteLength Example.scenario4_frame = 40
  /\ onmessage_arrayBuffer Example.scenario4_frame
     = ([AwaitImageBitmap []], None).
Proof.
  repeat split; vm_compute; reflexivity.
Qed.


(** C2, at a frame without metadata, which ends in SyntaxError; at a
    frame whose metadata are null, which ends in TypeError; and at a
    frame without alert and with an image: no alert, and the image is
    drawn. *)
Lemma C2_empty_metadata_witness :
  onmessage_arrayBuffer Example.empty_metadata_frame = ([], Some SyntaxError)
  /\ onmessage_arrayBuffer (Example.whole (u16 "null") Example.jpeg) = ([], Some TypeError)
  /\ onmessage_arrayBuffer (Example.whole Example.calm_json Example.jpeg)
     = ([AwaitImageBitmap Example.jpeg], None)
  /\ alerts (steps [ArrayBufferReady 0; ImageBitmapSettled 0; AnimationFrame]
               (step (WsMessage (Blob (Example.whole Example.calm_json Example.jpeg)))
                     Example.opened))
     = []
  /\ canvas (steps [ArrayBufferReady 0; ImageBitmapSettled 0; AnimationFrame]
               (step (WsMessage (Blob (Example.whole Example.calm_json Example.jpeg)))
                     Example.opened))
     = [{| width := 640; height := 480; pixels := Example.jpeg |}].
Proof.
  split; [|split].
  - exact (proj1 (proj1 (C2_empty_metadata Example.empty_metadata_frame) eq_refl)).
  - exact (proj1 (proj1 (proj2 (C2_empty_metadata (Example.whole (u16 "null") Example.jpeg))
                                4 JNull eq_refl eq_refl) eq_refl)).
  - pose proof (proj2 (proj2 (C2_empty_metadata (Example.whole Example.calm_json Example.jpeg))
                             68 (Example.parsed Example.calm_json) eq_refl eq_refl)) as H.
    assert (Hn : Example.parsed Example.calm_json <> JNull) by discriminate.
    destruct (H Hn) as (a & flag & Ha & Hf & Hrest).
    vm_compute in Ha. injection Ha as <-. vm_compute in Hf. injection Hf as <-.
    destruct (Hrest eq_refl) as [H1 H2]. split; [exact H1|].
    exact (H2 (step (WsMessage (Blob (Example.whole Example.calm_json Example.jpeg)))
                    Example.opened) 0%nat eq_refl).
Defined.

(** C2 fails on the code: a frame with L = 0 and a valid image ends the
    handler with SyntaxError, and the image is neither decoded nor drawn. *)
Lemma C2_counterexample :
  getUint32 Example.empty_metadata_frame = inr 0
  /\ createImageBitmap (slice_from 4 Example.empty_metadata_frame)
     = Some {| width := 640; height := 480; pixels := Example.jpeg |}
  /\ onmessage_arrayBuffer Example.empty_metadata_frame = ([], Some SyntaxError)
  /\ deliverable_all [WsMessage (Blob Example.empty_metadata_frame); ArrayBufferReady 0;
                      AnimationFrame] Example.opened = true
  /\ deliverable (steps [WsMessage (Blob Example.empty_metadata_frame); ArrayBufferReady 0]
                        Example.opened) (ImageBitmapSettled 0) = false
  /\ canvas (steps [WsMessage (Blob Example.empty_metadata_frame); ArrayBufferReady 0;
                    AnimationFrame] Example.opened) = [].
Proof.
  repeat split; vm_compute; reflexivity.
Qed.

(** C3, at the state with the Fire and the Fall alert: the class names
    differ, and one more Fire detection, under another id, adds nothing. *)
Lemma C3_one_alert_per_class_witness :
  NoDup (map class_name (alerts Example.two_alerts))
  /\ alerts Example.two_alerts
     = [Example.fall_alert (u16 "Invalid Date"); Example.fire_alert (u16 "Invalid Date")]
  /\ apply_updater (AddAlert (u16 "evt_8_1001") (u16 "Fire") JNull)
                   (alerts Example.two_alerts)
     = inr (alerts Example.two_alerts)
  /\ ingest (Example.parsed Example.two_class_json) Example.two_alerts = Example.two_alerts.
Proof.
  destruct C3_one_alert_per_class as (Hunique & Hpresent & Hrecord & _ & _).
  split; [|split; [reflexivity|split]].
  - exact (Hunique Example.two_alerts two_alerts_reachable).
  - apply Hpresent. simpl. tauto.
  - apply Hrecord. intros eid cn p [E | [E | []]]; injection E as <- <- <-; simpl; tauto.
Defined.

(** C4, at the record of scenario 2. *)
Lemma C4_alert_constructed_witness :
  alert_logic (Example.parsed Example.fire_json)
  = ([SetAlerts (AddAlert (u16 "evt_7_1000") (u16 "Fire") (Example.parsed Example.fire_json))],
     None)
  /\ apply_updater (AddAlert (u16 "evt_7_1000") (u16 "Fire") (Example.parsed Example.fire_json)) []
     = inr [Example.fire_alert (u16 "Invalid Date")].
Proof.
  pose proof (C4_alert_constructed (Example.parsed Example.fire_json)
                (JObject [(u16 "emergency_detected", JBool true)]) (JBool true)
                (JString (u16 "7")) (JString (u16 "1000")) JUndefined JUndefined
                [JObject [(u16 "class_name", JString (u16 "Fire"))]]
                (u16 "7") (u16 "1000")
                eq_refl eq_refl eq_refl eq_refl) as H.
  assert (Hd : Forall (fun det : JSValue Num => det <> JNull /\ det <> JUndefined)
                 [JObject [(u16 "class_name", JString (u16 "Fire"))]]).
  { constructor; [split; discriminate | constructor]. }
  specialize (H Hd eq_refl eq_refl eq_refl eq_refl eq_refl eq_refl).
  destruct H as [H1 [H2 _]].
  split; [exact H1 | exact (H2 (u16 "Fire") [] eq_refl)].
Defined.

(** C7 fails on the code: the two-class frame is read, the socket closes,
    the image decode completes, and the frame is drawn while the status
    is Disconnected; and a frame that arrived before the socket closed and
    is read after it still raises its alerts. *)
Lemma C7_counterexample :
  systemStatus Example.closed_midstream = Disconnected
  /\ readyState Example.closed_midstream = CLOSED
  /\ canvas Example.closed_midstream = []
  /\ deliverable_all [ImageBitmapSettled 0; AnimationFrame] Example.closed_midstream = true
  /\ systemStatus (steps [ImageBitmapSettled 0; AnimationFrame] Example.closed_midstream)
     = Disconnected
  /\ canvas (steps [ImageBitmapSettled 0; AnimationFrame] Example.closed_midstream)
     = [{| width := 640; height := 480; pixels := Example.jpeg |}]
  /\ systemStatus Example.closed_before_read = Disconnected
  /\ alerts Example.closed_before_read = []
  /\ deliverable Example.closed_before_read (ArrayBufferReady 0) = true
  /\ alerts (step (ArrayBufferReady 0) Example.closed_before_read)
     = [Example.fall_alert (u16 "Invalid Date"); Example.fire_alert (u16 "Invalid Date")].
Proof.
  repeat split; vm_compute; reflexivity.
Qed.

(** C7, at the same run: after the close no message can come, and the
    decode that was pending when the socket closed is drawn. *)
Lemma C7_close_does_not_cancel_witness :
  (forall d, ~ In (WsMessage d) [ImageBitmapSettled 0; AnimationFrame])
  /\ canvas (steps [ImageBitmapSettled 0; AnimationFrame] Example.closed_midstream)
     = {| width := 640; height := 480; pixels := Example.jpeg |}
       :: rev (animationFrames Example.closed_midstream) ++ canvas Example.closed_midstream
  /\ systemStatus (steps [ImageBitmapSettled 0; AnimationFrame] Example.closed_midstream)
     = systemStatus Example.closed_midstream.
Proof.
  destruct C7_close_does_not_cancel as (_ & Hclosed & Hdraw & _).
  split.
  - exact (proj2 (Hclosed [ImageBitmapSettled 0; AnimationFrame] Example.closed_midstream
                          eq_refl eq_refl)).
  - exact (Hdraw Example.closed_midstream 0%nat Example.jpeg
                 {| width := 640; height := 480; pixels := Example.jpeg |}
                 eq_refl eq_refl eq_refl).
Defined.

(** C8, at the two-class record on the freshly opened component. *)
Lemma C8_two_alerts_one_id_witness :
  exists a1 a2,
    alerts (ingest (Example.parsed Example.two_class_json) Example.opened)
    = a2 :: a1 :: alerts Example.opened
    /\ class_name a1 = u16 "Fire" /\ class_name a2 = u16 "Fall"
    /\ id a1 = u16 "evt_7_1000" /\ id a2 = u16 "evt_7_1000"
    /\ alerts (step (Click (u16 "evt_7_1000"))
                    (ingest (Example.parsed Example.two_class_json) Example.opened))
       = filter (fun alert => negb (jsstring_eqb (id alert) (u16 "evt_7_1000")))
                (alerts Example.opened).
Proof.
  refine (C8_two_alerts_one_id (Example.parsed Example.two_class_json)
            (JObject [(u16 "emergency_detected", JBool true)]) (JBool true)
            (JNumber 7%Z) (JNumber 1000%Z)
            (JString (u16 "12:00:00 PM")) (JString (u16 "12:00:00 PM"))
            (JObject [(u16 "class_name", JString (u16 "Fire"))])
            (JObject [(u16 "class_name", JString (u16 "Fall"))])
            (u16 "Fire") (u16 "Fall") (u16 "7") (u16 "1000") Example.opened
            eq_refl eq_refl eq_refl eq_refl eq_refl eq_refl _ _ _
            eq_refl eq_refl eq_refl eq_refl eq_refl eq_refl eq_refl eq_refl eq_refl).
  - simpl. tauto.
  - simpl. tauto.
  - discriminate.
Defined.

(** C9, at the state with two alerts: an id that none of them has. *)
Lemma C9_resolve_unknown_id_witness :
  sent (step (Click (u16 "evt_0_0")) Example.two_alerts)
  = [u16q "{'action':'resolve','event_id':'evt_0_0'}"]
  /\ JSON_parse (u16q "{'action':'resolve','event_id':'evt_0_0'}")
     = Some (JObject [(u16 "action", JString (u16 "resolve"));
                      (u16 "event_id", JString (u16 "evt_0_0"))])
  /\ alerts (step (Click (u16 "evt_0_0")) Example.two_alerts) = alerts Example.two_alerts.
Proof.
  refine (C9_resolve_unknown_id (u16 "evt_0_0") Example.two_alerts _ eq_refl).
  intros a [<- | [<- | []]]; discriminate.
Defined.

(** X1, at the state with the Fire and the Fall alert. *)
Lemma X1_alerts_are_built_witness :
  Forall built_alert (alerts Example.two_alerts)
  /\ (List.length (alerts Example.two_alerts) <= 5)%nat.
Proof.
  exact (X1_alerts_are_built Example.two_alerts two_alerts_reachable).
Defined.

(** X2, at the component whose server has started the closing handshake:
    the socket is closing and the status is still Monitoring Active. *)
Lemma X2_status_follows_socket_witness :
  readyState Example.closing = CLOSING
  /\ (systemStatus Example.closing = MonitoringActive
      <-> readyState Example.closing = OPEN \/ readyState Example.closing = CLOSING)
  /\ (systemStatus Example.closing = Disconnected <-> readyState Example.closing = CLOSED)
  /\ (systemStatus Example.closing = Connecting <-> readyState Example.closing = CONNECTING)
  /\ deliverable Example.closing (WsMessage (Text [])) = false.
Proof.
  pose proof (X2_status_follows_socket Example.closing closing_reachable eq_refl)
    as (H1 & H2 & H3 & H4).
  split; [reflexivity|]. split; [exact H1|]. split; [exact H2|]. split; [exact H3|].
  exact (H4 eq_refl (Text [])).
Defined.

(** X4, at a frame of 68 bytes of metadata and 4 of image. *)
Lemma X4_frame_round_trip_witness :
  getUint32 (Example.whole Example.calm_json Example.jpeg) = inr 68
  /\ slice 4 (4 + 68) (Example.whole Example.calm_json Example.jpeg)
     = Example.ascii_bytes Example.calm_json
  /\ slice_from (4 + 68) (Example.whole Example.calm_json Example.jpeg) = Example.jpeg.
Proof.
  pose proof (X4_frame_round_trip Byte.x00 Byte.x00 Byte.x00 Byte.x44
                (Example.ascii_bytes Example.calm_json) Example.jpeg) as (H1 & _ & H2).
  split; [exact H1|]. destruct (H2 eq_refl) as (Hm & Hi & _). split; [exact Hm | exact Hi].
Defined.


(** X9, at the component whose socket has just opened. *)
Lemma X9_cleanup_closes_only_an_open_socket_witness :
  readyState (step Unmount Example.opened) = CLOSING
  /\ deliverable (step Unmount Example.opened) (WsMessage (Text [])) = false.
Proof.
  pose proof (X9_cleanup_closes_only_an_open_socket Example.opened eq_refl) as [H _].
  split; [exact (proj1 (H eq_refl)) | reflexivity].
Defined.

(** X10, at the state with the Fire and the Fall alert: the Fire alert is
    resolved. *)
Lemma X10_resolve_rearms_the_class_witness :
  ~ In (u16 "Fire")
       (map class_name (alerts (step (Click (u16 "evt_7_1000")) Example.two_alerts)))
  /\ (List.length (alerts (step (Click (u16 "evt_7_1000")) Example.two_alerts))
      < List.length (alerts Example.two_alerts))%nat.
Proof.
  pose proof (X10_resolve_rearms_the_class Example.two_alerts
                (Example.fire_alert (u16 "Invalid Date")) two_alerts_reachable eq_refl) as H.
  assert (Hin : In (Example.fire_alert (u16 "Invalid Date")) (alerts Example.two_alerts)).
  { right. left. reflexivity. }
  destruct (H Hin) as (_ & H1 & H2 & _). split; [exact H1 | exact H2].
Defined.

(** X11, at a record whose timestamp is an object with a member named
    toString, read by the component whose socket has just opened. *)
Lemma X11_bad_timestamp_takes_the_page_down_witness :
  ingest (Example.parsed Example.bad_timestamp_json) Example.opened = unmount Example.opened
  /\ mounted (unmount Example.opened) = false
  /\ alerts (unmount Example.opened) = alerts Example.opened
  /\ readyState (unmount Example.opened) = CLOSING.
Proof.
  exact (X11_bad_timestamp_takes_the_page_down
           (Example.parsed Example.bad_timestamp_json) Example.opened eq_refl).
Defined.

(** X12, at the state with the Fire and the Fall alert, on 2 November
    2026. *)
Lemma X12_what_the_component_returns_witness :
  let page := render {| getDate := 2; getMonth := 10; getFullYear := 2026;
                        localeTime := u16 "9:00:00 AM" |} Example.two_alerts in
  badge page = 2%nat
  /\ map card_class_name (cards_of page) = [u16 "Fall"; u16 "Fire"]
  /\ NoDup (map card_class_name (cards_of page))
  /\ (placeholder page = None
      <-> readyState Example.two_alerts = OPEN \/ readyState Example.two_alerts = CLOSING).
Proof.
  intro page.
  pose proof (X12_what_the_component_returns
                {| getDate := 2; getMonth := 10; getFullYear := 2026;
                   localeTime := u16 "9:00:00 AM" |}
                Example.two_alerts two_alerts_reachable) as (_ & H2 & _ & H4).
  split; [reflexivity|]. split; [reflexivity|]. split; [exact H2 | exact (H4 eq_refl)].
Defined.

(** X13, at two moments of 2 November 2026. *)
Lemma X13_formatDate_tells_dates_apart_witness :
  let morning := {| getDate := 2; getMonth := 10; getFullYear := 2026;
                    localeTime := u16 "9:00:00 AM" |} in
  let evening := {| getDate := 2; getMonth := 10; getFullYear := 2026;
                    localeTime := u16 "9:00:00 PM" |} in
  formatDate morning = u16 "2/11/2026"
  /\ getDate morning = getDate evening /\ getMonth morning = getMonth evening
  /\ getFullYear morning = getFullYear evening.
Proof.
  intros morning evening. split; [reflexivity|].
  apply (X13_formatDate_tells_dates_apart morning evening). reflexivity.
Defined.

(** X15, at the metadata of a calm frame. *)
Lemma X15_ascii_metadata_is_read_as_written_witness :
  TextDecoder_decode (Example.ascii_bytes Example.calm_json)
  = map Byte.to_N (Example.ascii_bytes Example.calm_json)
  /\ map Byte.to_N (Example.ascii_bytes Example.calm_json) = Example.calm_json.
Proof.
  split; [|reflexivity].
  apply X15_ascii_metadata_is_read_as_written.
  apply Forall_forall. intros b Hb. vm_compute in Hb.
  repeat (destruct Hb as [<- | Hb]; [reflexivity|]). destruct Hb.
Defined.
